(** * American roulette strategy simulator: bet resolver, simulation loop
      and playback statistics.

    The development embeds [services/simulationEngine] ([isWin],
    [calculateDetailedOutcomes], [generateSpin], [runSimulation] with its
    inner closure [recordStep]), the colour table of [constants] and the
    [displayedStats] fold of [App.tsx].

    Modelling conventions.
    - JavaScript numbers that hold amounts, bankrolls, counters and
      multipliers are integers in every run the user interface can start;
      they are modelled as [Z], so [Math.floor (b.amount * multiplier)] is
      the product itself.  The only genuinely fractional quantities are the
      table-maximum scale factor, kept as a parameter of the simulation
      ([floorScaled]), and the ROI, modelled as an exact rational.
    - [Math.random] is an oracle [rng]: the draw made when [spinsConsumed]
      spins have been consumed is [rng spinsConsumed] (every call of
      [generateSpin] is immediately followed by one call of [recordStep],
      which increments [spinsConsumed]).
    - The mutable closure variables of [runSimulation] are threaded
      explicitly: [RunState] holds what [recordStep] mutates, [Cursor] holds
      the traversal variables.
    - [while] loops take a fuel argument; running out of it is the distinct
      result [OutOfFuel], never a normal return. *)

From Stdlib Require Import ZArith List String Ascii Bool Lia QArith.
Import ListNotations.
Local Open Scope Z_scope.

(** ** Data model ([types.ts]) *)

Inductive BetType :=
| STRAIGHT | SPLIT | STREET | CORNER | BASKET | LINE
| COLUMN | DOZEN | RED_BLACK | EVEN_ODD | HIGH_LOW | TRIO.

Record PlacedBet := mkBet {
  bet_id : string;
  bet_type : BetType;
  numbers : list Z;
  amount : Z;
  label : option string
}.

(** [number | '00'] *)
Inductive Pocket := Num (n : Z) | DoubleZero.

Inductive Color := red | black | green.

Record SpinResult := mkSpin {
  number : Pocket;
  color : Color
}.

Record BetOutcome := mkOutcome {
  o_bet : PlacedBet;
  o_won : bool;
  o_payout : Z;
  o_net : Z
}.

Inductive ProgressionType :=
| start_immediately | wait_spins | wait_condition | reset
| double | triple | add_unit | subtract_unit | same_bet | custom_bet
| martingale | repeat_until.

Inductive MartingaleLimitType := profit_target | spin_count | until_bankrupt.

Inductive RepeatUntilType := ru_spins | ru_wins | ru_profit_target | ru_loss_limit.

(** A child reference of a node: [null], the root object itself (the only
    back-edge a strategy graph may contain), or a proper sub-node. *)
Inductive Child (N : Type) := NoChild | RootRef | Sub (n : N).
Arguments NoChild {N}.
Arguments RootRef {N}.
Arguments Sub {N} n.

#[local] Set Warnings "-register-all".
Inductive StrategyNode := mkNode {
  node_id : string;
  node_type : ProgressionType;
  node_bets : option (list PlacedBet);
  value : option Z;
  condition : option string;
  postWaitAction : option ProgressionType;
  martingaleLimitType : option MartingaleLimitType;
  martingaleLimitValue : option Z;
  repeatUntilType : option RepeatUntilType;
  repeatUntilValue : option Z;
  children_win : Child StrategyNode;
  children_loss : Child StrategyNode
}.

Record StrategyConfig := mkStrategy {
  rootNode : StrategyNode;
  stopLoss : Z;
  takeProfit : Z
}.

Record SimConfig := mkConfig {
  maxSpins : Z;
  tableMin : Z;
  tableMax : Z
}.

(** The [actionType] strings, kept structured: [MARTINGALE_x m] stands for
    the template string with the multiplier printed, [REPEAT t] for
    [REPEAT_] followed by the upper-cased repeat type, [WAITING_FOR s] for
    [WAITING_FOR_] followed by [s]. *)
Inductive ActionType :=
| WAITING
| WAITING_FOR (s : string)
| MARTINGALE_x (m : Z)
| REPEAT (t : RepeatUntilType)
| START | BET | NO_BET.

Record SimulationStep := mkStep {
  spinIndex : Z;
  result : SpinResult;
  bets : list PlacedBet;
  outcomes : list BetOutcome;
  betTotal : Z;
  payout : Z;
  net : Z;
  bankroll : Z;
  won : bool;
  actionType : ActionType
}.

Record SimulationStats := mkStats {
  s_initialBankroll : Z;
  finalBankroll : Z;
  totalSpins : Z;
  wins : Z;
  losses : Z;
  maxDrawdown : Z;
  maxUpside : Z;
  longestWinStreak : Z;
  longestLossStreak : Z;
  roi : Q;
  s_config : SimConfig
}.

(** ** String helpers ([toLowerCase], [toUpperCase] on ASCII letters) *)

Definition lower_ascii (c : ascii) : ascii :=
  let n := nat_of_ascii c in
  if (Nat.leb 65 n && Nat.leb n 90)%bool then ascii_of_nat (n + 32) else c.

Definition upper_ascii (c : ascii) : ascii :=
  let n := nat_of_ascii c in
  if (Nat.leb 97 n && Nat.leb n 122)%bool then ascii_of_nat (n - 32) else c.

Fixpoint map_string (f : ascii -> ascii) (s : string) : string :=
  match s with
  | EmptyString => EmptyString
  | String c s' => String (f c) (map_string f s')
  end.

Definition toLowerCase : string -> string := map_string lower_ascii.
Definition toUpperCase : string -> string := map_string upper_ascii.

Definition opt_string_eqb (a b : option string) : bool :=
  match a, b with
  | Some x, Some y => String.eqb x y
  | None, None => true
  | _, _ => false
  end.

Definition label_is (b : PlacedBet) (s : string) : bool :=
  opt_string_eqb (label b) (Some s).

(** ** Colour table ([constants.NUMBER_COLORS]) *)

Definition red_numbers : list Z :=
  [1; 3; 5; 7; 9; 12; 14; 16; 18; 19; 21; 23; 25; 27; 30; 32; 34; 36].

Definition includes (l : list Z) (x : Z) : bool := existsb (Z.eqb x) l.

(** The table has the keys 0 to 36 and 00; any other key is [undefined]. *)
Definition NUMBER_COLORS (p : Pocket) : option Color :=
  match p with
  | DoubleZero => Some green
  | Num n =>
      if n =? 0 then Some green
      else if (1 <=? n) && (n <=? 36) then
        Some (if includes red_numbers n then red else black)
      else None
  end.

Definition color_name (c : Color) : string :=
  (match c with red => "red" | black => "black" | green => "green" end)%string.

(** ** Bet resolver *)

Definition getResultValue (resultNum : Pocket) : Z :=
  match resultNum with DoubleZero => 37 | Num n => n end.

Definition isWin (resultNum : Pocket) (bet : PlacedBet) : bool :=
  let resultVal := getResultValue resultNum in
  let isZeroOrDoubleZero := (resultVal =? 0) || (resultVal =? 37) in
  match bet_type bet with
  | BASKET => includes [0; 37; 1; 2; 3] resultVal
  | RED_BLACK =>
      if isZeroOrDoubleZero then false
      else opt_string_eqb (option_map color_name (NUMBER_COLORS resultNum))
                          (option_map toLowerCase (label bet))
  | EVEN_ODD =>
      if isZeroOrDoubleZero then false
      else
        let isEven := Z.rem resultVal 2 =? 0 in
        if label_is bet "Even" then isEven
        else if label_is bet "Odd" then negb isEven
        else false
  | HIGH_LOW =>
      if isZeroOrDoubleZero then false
      else if label_is bet "1-18" then (resultVal >=? 1) && (resultVal <=? 18)
      else if label_is bet "19-36" then (resultVal >=? 19) && (resultVal <=? 36)
      else false
  | DOZEN =>
      if isZeroOrDoubleZero then false
      else if label_is bet "1st 12" then (resultVal >=? 1) && (resultVal <=? 12)
      else if label_is bet "2nd 12" then (resultVal >=? 13) && (resultVal <=? 24)
      else if label_is bet "3rd 12" then (resultVal >=? 25) && (resultVal <=? 36)
      else false
  | COLUMN =>
      if isZeroOrDoubleZero then false
      else if (Z.of_nat (List.length (numbers bet)) >? 0) then includes (numbers bet) resultVal
      else if label_is bet "2 to 1 (Bot)" then Z.rem resultVal 3 =? 1
      else if label_is bet "2 to 1 (Mid)" then Z.rem resultVal 3 =? 2
      else if label_is bet "2 to 1 (Top)" then
        negb (resultVal =? 0) && negb (resultVal =? 37) && (Z.rem resultVal 3 =? 0)
      else false
  | _ => includes (numbers bet) resultVal
  end.

(** The [switch] on the bet type inside [calculateDetailedOutcomes]. *)
Definition payoutMultiplier (t : BetType) : Z :=
  match t with
  | STRAIGHT => 35
  | SPLIT => 17
  | STREET => 11
  | CORNER => 8
  | BASKET => 6
  | LINE => 5
  | COLUMN => 2
  | DOZEN => 2
  | RED_BLACK | EVEN_ODD | HIGH_LOW => 1
  | TRIO => 1
  end.

(** One pass of the [forEach] body. *)
Definition betOutcome (res : SpinResult) (bet : PlacedBet) : BetOutcome :=
  let win := isWin (number res) bet in
  let payout := if win then amount bet + amount bet * payoutMultiplier (bet_type bet) else 0 in
  {| o_bet := bet; o_won := win; o_payout := payout; o_net := payout - amount bet |}.

Definition calculateDetailedOutcomes (bets : list PlacedBet) (res : SpinResult)
  : Z * list BetOutcome :=
  fold_left
    (fun acc bet =>
       let o := betOutcome res bet in
       (fst acc + o_payout o, snd acc ++ [o]))
    bets (0, []).

(** [generateSpin], with the value of [Math.floor (Math.random () * 38)]
    passed in. *)
Definition generateSpin (rawSpin : Z) : SpinResult :=
  let spinNum := if rawSpin =? 37 then DoubleZero else Num rawSpin in
  let color :=
    match NUMBER_COLORS spinNum with Some c => c | None => green end in
  {| number := spinNum; color := color |}.

(** ** The simulation runner ([runSimulation]) *)

(** Everything a run depends on: the three arguments of [runSimulation],
    the random oracle, and the floating-point computation
    [Math.floor (amount * (tableMax / totalWager))] of the table-maximum
    scaling, whose rounding is left unspecified. *)
Record RunInput := mkInput {
  initialBankroll : Z;
  strategy : StrategyConfig;
  config : SimConfig;
  rng : Z -> Z;
  floorScaled : Z -> Z -> Z -> Z
}.

(** The closure variables that [recordStep] mutates. *)
Record RunState := mkState {
  st_bankroll : Z;
  st_steps : list SimulationStep;
  st_spinsConsumed : Z;
  st_wins : Z;
  st_losses : Z;
  st_maxDrawdown : Z;
  st_maxUpside : Z;
  st_currentWinStreak : Z;
  st_currentLossStreak : Z;
  st_longestWinStreak : Z;
  st_longestLossStreak : Z
}.

(** The traversal variables of the main loop. *)
Record Cursor := mkCursor {
  currentNode : StrategyNode;
  currentBaseBets : list PlacedBet;
  currentMultiplier : Z
}.

(** A loop either finishes, dereferences [undefined] (the [TypeError] that
    [steps[steps.length - 1].won] raises on an empty ledger), or exhausts
    its fuel. *)
Inductive Result (A : Type) := Ok (a : A) | TypeError | OutOfFuel.
Arguments Ok {A} a.
Arguments TypeError {A}.
Arguments OutOfFuel {A}.

Definition sumAmounts (bs : list PlacedBet) : Z :=
  fold_left (fun sum b => sum + amount b) bs 0.

Definition setAmount (b : PlacedBet) (a : Z) : PlacedBet :=
  {| bet_id := bet_id b; bet_type := bet_type b; numbers := numbers b;
     amount := a; label := label b |}.

(** [steps[steps.length - 1]] *)
Definition lastStep (steps : list SimulationStep) : option SimulationStep :=
  match rev steps with
  | [] => None
  | s :: _ => Some s
  end.

(** [node.bets || []] *)
Definition betsOrEmpty (n : StrategyNode) : list PlacedBet :=
  match node_bets n with Some bs => bs | None => [] end.

(** [node.bets && node.bets.length > 0] *)
Definition hasBets (n : StrategyNode) : bool :=
  match node_bets n with
  | Some bs => Z.of_nat (List.length bs) >? 0
  | None => false
  end.

(** [!node.bets]: only an absent list is falsy, an empty array is not. *)
Definition noBetsField (n : StrategyNode) : bool :=
  match node_bets n with Some _ => false | None => true end.

Definition isWaitAction (a : ActionType) : bool :=
  match a with WAITING | WAITING_FOR _ => true | _ => false end.

Section Runner.

Variable E : RunInput.

Let root := rootNode (strategy E).

Definition initialState : RunState :=
  {| st_bankroll := initialBankroll E; st_steps := []; st_spinsConsumed := 0;
     st_wins := 0; st_losses := 0; st_maxDrawdown := 0; st_maxUpside := 0;
     st_currentWinStreak := 0; st_currentLossStreak := 0;
     st_longestWinStreak := 0; st_longestLossStreak := 0 |}.

Definition initialCursor : Cursor :=
  {| currentNode := root; currentBaseBets := betsOrEmpty root;
     currentMultiplier := 1 |}.

(** The spin that [generateSpin ()] returns in state [st]. *)
Definition draw (st : RunState) : SpinResult :=
  generateSpin (rng E (st_spinsConsumed st)).

(** [recordStep]: returns its boolean together with the updated closure
    variables. *)
Definition recordStep (st : RunState) (res : SpinResult)
    (activeBets : list PlacedBet) (action : ActionType) (isWaitStep : bool)
  : bool * RunState :=
  let spinsConsumed := st_spinsConsumed st + 1 in
  let betsSnapshot := activeBets in
  let betTotal := sumAmounts betsSnapshot in
  if negb isWaitStep && (betTotal >? st_bankroll st) then
    (false,
     {| st_bankroll := st_bankroll st; st_steps := st_steps st;
        st_spinsConsumed := spinsConsumed;
        st_wins := st_wins st; st_losses := st_losses st;
        st_maxDrawdown := st_maxDrawdown st; st_maxUpside := st_maxUpside st;
        st_currentWinStreak := st_currentWinStreak st;
        st_currentLossStreak := st_currentLossStreak st;
        st_longestWinStreak := st_longestWinStreak st;
        st_longestLossStreak := st_longestLossStreak st |})
  else
    let po :=
      if isWaitStep then (0, []) else calculateDetailedOutcomes betsSnapshot res in
    let totalPayout := fst po in
    let net := totalPayout - betTotal in
    let bankroll := st_bankroll st + net in
    let wins := if negb isWaitStep && (net >? 0) then st_wins st + 1 else st_wins st in
    let losses :=
      if negb isWaitStep && negb (net >? 0) && (net <? 0)
      then st_losses st + 1 else st_losses st in
    let currentWinStreak :=
      if isWaitStep then st_currentWinStreak st
      else if net >? 0 then st_currentWinStreak st + 1 else 0 in
    let currentLossStreak :=
      if isWaitStep then st_currentLossStreak st
      else if net >? 0 then 0
      else if net <? 0 then st_currentLossStreak st + 1 else 0 in
    let longestWinStreak :=
      if negb isWaitStep && (currentWinStreak >? st_longestWinStreak st)
      then currentWinStreak else st_longestWinStreak st in
    let longestLossStreak :=
      if negb isWaitStep && (currentLossStreak >? st_longestLossStreak st)
      then currentLossStreak else st_longestLossStreak st in
    let totalNetChange := bankroll - initialBankroll E in
    let maxDrawdown :=
      if negb isWaitStep && (totalNetChange <? st_maxDrawdown st)
      then totalNetChange else st_maxDrawdown st in
    let maxUpside :=
      if negb isWaitStep && (totalNetChange >? st_maxUpside st)
      then totalNetChange else st_maxUpside st in
    (true,
     {| st_bankroll := bankroll;
        st_steps :=
          st_steps st ++
          [ {| spinIndex := spinsConsumed; result := res; bets := betsSnapshot;
               outcomes := snd po; betTotal := betTotal; payout := totalPayout;
               net := net; bankroll := bankroll; won := net >? 0;
               actionType := action |} ];
        st_spinsConsumed := spinsConsumed;
        st_wins := wins; st_losses := losses;
        st_maxDrawdown := maxDrawdown; st_maxUpside := maxUpside;
        st_currentWinStreak := currentWinStreak;
        st_currentLossStreak := currentLossStreak;
        st_longestWinStreak := longestWinStreak;
        st_longestLossStreak := longestLossStreak |}).

(** [for (k = 0; k < value; k++) { recordStep (generateSpin (), [], 'WAITING', true) }]
    with the trip count already computed. *)
Fixpoint waitSpins (n : nat) (st : RunState) : RunState :=
  match n with
  | O => st
  | S n' => waitSpins n' (snd (recordStep st (draw st) [] WAITING true))
  end.

(** The pre-simulation [wait_condition] loop; [k] is [200 - safety]. *)
Fixpoint waitCondition (k : nat) (cond : string) (st : RunState) : RunState :=
  match k with
  | O => st
  | S k' =>
      let res := draw st in
      let st' := snd (recordStep st res [] (WAITING_FOR (toUpperCase cond)) true) in
      let conditionMet :=
        (String.eqb cond "red" && match color res with red => true | _ => false end)
        || (String.eqb cond "black" && match color res with black => true | _ => false end) in
      if conditionMet then st' else waitCondition k' cond st'
  end.

(** [value] is truthy *)
Definition truthyZ (v : option Z) : option Z :=
  match v with
  | Some x => if x =? 0 then None else Some x
  | None => None
  end.

Definition truthyString (v : option string) : option string :=
  match v with
  | Some s => if String.eqb s "" then None else Some s
  | None => None
  end.

Definition preSimWait (st : RunState) : RunState :=
  match node_type root, truthyZ (value root), truthyString (condition root) with
  | wait_spins, Some v, _ => waitSpins (Z.to_nat v) st
  | wait_condition, _, Some c => waitCondition 200 c st
  | _, _, _ => st
  end.

(** [currentBaseBets.map (b => ({...b, amount: Math.floor (b.amount * currentMultiplier)}))] *)
Definition scaleBets (baseBets : list PlacedBet) (multiplier : Z) : list PlacedBet :=
  map (fun b => setAmount b (amount b * multiplier)) baseBets.

(** The proportional scale-down applied when the total exceeds the table
    maximum; returns the bets and their new total. *)
Definition capToTableMax (activeBets : list PlacedBet) : list PlacedBet * Z :=
  let totalWager := sumAmounts activeBets in
  if totalWager >? tableMax (config E) then
    let scaled :=
      map (fun b =>
             setAmount b (Z.max 1 (floorScaled E (amount b) (tableMax (config E)) totalWager)))
          activeBets in
    (scaled, sumAmounts scaled)
  else (activeBets, totalWager).

Definition resolveChild (ch : Child StrategyNode) : option StrategyNode :=
  match ch with
  | NoChild => None
  | RootRef => Some root
  | Sub n => Some n
  end.

Definition resetToRoot : Cursor :=
  {| currentNode := root; currentBaseBets := betsOrEmpty root; currentMultiplier := 1 |}.

(** [currentNode = nextNode] followed by the explicit-bets override. *)
Definition enterNode (nextNode : StrategyNode) (c : Cursor) : Cursor :=
  if hasBets nextNode then
    {| currentNode := nextNode; currentBaseBets := betsOrEmpty nextNode;
       currentMultiplier := 1 |}
  else
    {| currentNode := nextNode; currentBaseBets := currentBaseBets c;
       currentMultiplier := currentMultiplier c |}.

Definition withMultiplier (c : Cursor) (m : Z) : Cursor :=
  {| currentNode := currentNode c; currentBaseBets := currentBaseBets c;
     currentMultiplier := m |}.

(** The [switch (currentNode.type)] that follows a martingale or a
    repeat-until sequence. *)
Definition applyNodeModifier (c : Cursor) : Cursor :=
  let n := currentNode c in
  match node_type n with
  | double => if noBetsField n then withMultiplier c (currentMultiplier c * 2) else c
  | triple => if noBetsField n then withMultiplier c (currentMultiplier c * 3) else c
  | add_unit => if noBetsField n then withMultiplier c (currentMultiplier c + 1) else c
  | subtract_unit =>
      if noBetsField n then withMultiplier c (Z.max 1 (currentMultiplier c - 1)) else c
  | reset => resetToRoot
  | _ => c
  end.

(** The [switch (currentNode.postWaitAction)]. *)
Definition applyPostWaitAction (a : ProgressionType) (c : Cursor) : Cursor :=
  match a with
  | double => withMultiplier c (currentMultiplier c * 2)
  | triple => withMultiplier c (currentMultiplier c * 3)
  | add_unit => withMultiplier c (currentMultiplier c + 1)
  | subtract_unit => withMultiplier c (Z.max 1 (currentMultiplier c - 1))
  | reset =>
      {| currentNode := currentNode c; currentBaseBets := betsOrEmpty root;
         currentMultiplier := 1 |}
  | _ => c
  end.

(** Next-node selection after a martingale or repeat-until sequence. *)
Definition leaveLoopNode (next : Child StrategyNode) (c : Cursor) : Cursor :=
  match resolveChild next with
  | None => resetToRoot
  | Some n => applyNodeModifier (enterNode n c)
  end.

(** Next-node selection after a standard single spin; its [switch] has the
    additional [wait_spins] case, which consumes spins. *)
Definition leaveSpinNode (next : Child StrategyNode) (c : Cursor) (st : RunState)
  : Cursor * RunState :=
  match resolveChild next with
  | None => (resetToRoot, st)
  | Some n =>
      let c1 := enterNode n c in
      match node_type n with
      | wait_spins =>
          let st1 :=
            match truthyZ (value n) with
            | Some v => waitSpins (Z.to_nat v) st
            | None => st
            end in
          let c2 :=
            match postWaitAction n with
            | Some a => if negb (hasBets n) then applyPostWaitAction a c1 else c1
            | None => c1
            end in
          (c2, st1)
      | _ => (applyNodeModifier c1, st)
      end
  end.

(** Local variables of the martingale [while] loop. *)
Record MartingaleVars := mkMV {
  martingaleActive : bool;
  martingaleStepCount : Z;
  mv_multiplier : Z
}.

(** The progression [if/else if] chain of the martingale loop body. *)
Definition martingaleProgress (limitType : MartingaleLimitType) (limitValue : Z)
    (roundWin : bool) (currentMartingaleProfit : Z) (stepCount : Z) (multiplier : Z)
  : bool * Z :=
  match limitType with
  | until_bankrupt =>
      if roundWin then (false, multiplier) else (true, multiplier * 2)
  | profit_target =>
      if currentMartingaleProfit >=? limitValue then (false, multiplier)
      else if negb roundWin then (true, multiplier * 2) else (true, 1)
  | spin_count =>
      if stepCount >=? limitValue then (false, multiplier)
      else if negb roundWin then (true, multiplier * 2) else (true, multiplier)
  end.

Fixpoint martingaleLoop (fuel : nat) (limitType : MartingaleLimitType)
    (limitValue : Z) (baseBets : list PlacedBet) (sequenceStartBankroll : Z)
    (v : MartingaleVars) (st : RunState) : Result (MartingaleVars * RunState) :=
  match fuel with
  | O => OutOfFuel
  | S fuel' =>
      if martingaleActive v
         && (st_spinsConsumed st <? maxSpins (config E))
         && (st_bankroll st >? 0)
      then
        let activeBets := scaleBets baseBets (mv_multiplier v) in
        let totalWager := sumAmounts activeBets in
        if (totalWager >? tableMax (config E)) || (totalWager >? st_bankroll st) then
          Ok ({| martingaleActive := false;
                 martingaleStepCount := martingaleStepCount v;
                 mv_multiplier := mv_multiplier v |}, st)
        else
          let res := draw st in
          let r := recordStep st res activeBets (MARTINGALE_x (mv_multiplier v)) false in
          if negb (fst r) then Ok (v, snd r)
          else
            match lastStep (st_steps (snd r)) with
            | None => TypeError
            | Some last =>
                let roundWin := won last in
                let stepCount := martingaleStepCount v + 1 in
                let currentMartingaleProfit := st_bankroll (snd r) - sequenceStartBankroll in
                let p := martingaleProgress limitType limitValue roundWin
                           currentMartingaleProfit stepCount (mv_multiplier v) in
                let v' := {| martingaleActive := fst p;
                             martingaleStepCount := stepCount;
                             mv_multiplier := snd p |} in
                if snd p >? 10000 then Ok (v', snd r)
                else martingaleLoop fuel' limitType limitValue baseBets
                       sequenceStartBankroll v' (snd r)
            end
      else Ok (v, st)
  end.

(** Local variables of the repeat-until [while] loop. *)
Record RepeatVars := mkRV {
  loopActive : bool;
  loopSpins : Z;
  loopWins : Z
}.

(** The four exit tests of the repeat-until loop body. *)
Definition repeatExit (repeatType : RepeatUntilType) (repeatValue : Z)
    (spins winsSoFar bankrollNow seqStartBankroll : Z) : bool :=
  match repeatType with
  | ru_spins => spins >=? repeatValue
  | ru_wins => winsSoFar >=? repeatValue
  | ru_profit_target => bankrollNow - seqStartBankroll >=? repeatValue
  | ru_loss_limit => seqStartBankroll - bankrollNow >=? repeatValue
  end.

Fixpoint repeatLoop (fuel : nat) (repeatType : RepeatUntilType) (repeatValue : Z)
    (baseBets : list PlacedBet) (multiplier : Z) (seqStartBankroll : Z)
    (v : RepeatVars) (st : RunState) : Result (RepeatVars * RunState) :=
  match fuel with
  | O => OutOfFuel
  | S fuel' =>
      if loopActive v
         && (st_spinsConsumed st <? maxSpins (config E))
         && (st_bankroll st >? 0)
      then
        let capped := capToTableMax (scaleBets baseBets multiplier) in
        let activeBets := fst capped in
        let totalWager := snd capped in
        if totalWager >? st_bankroll st then
          Ok ({| loopActive := false; loopSpins := loopSpins v;
                 loopWins := loopWins v |}, st)
        else
          let res := draw st in
          let r := recordStep st res activeBets (REPEAT repeatType) false in
          match lastStep (st_steps (snd r)) with
          | None => TypeError
          | Some last =>
              let spins := loopSpins v + 1 in
              let winsSoFar := if won last then loopWins v + 1 else loopWins v in
              let v' :=
                {| loopActive :=
                     negb (repeatExit repeatType repeatValue spins winsSoFar
                             (st_bankroll (snd r)) seqStartBankroll);
                   loopSpins := spins; loopWins := winsSoFar |} in
              repeatLoop fuel' repeatType repeatValue baseBets multiplier
                seqStartBankroll v' (snd r)
          end
      else Ok (v, st)
  end.

(** The three [break] tests at the head of a main-loop iteration. *)
Definition haltCondition (st : RunState) : bool :=
  (st_bankroll st <=? stopLoss (strategy E))
  || ((takeProfit (strategy E) >? 0) && (st_bankroll st >=? takeProfit (strategy E)))
  || (st_bankroll st <=? 0).

(** [activeBets.length > 0 ? (steps.length === 0 ? 'START' : 'BET') : 'NO_BET'] *)
Definition spinAction (activeBets : list PlacedBet) (st : RunState) : ActionType :=
  if Z.of_nat (List.length activeBets) >? 0 then
    if Z.of_nat (List.length (st_steps st)) =? 0 then START else BET
  else NO_BET.

Fixpoint mainLoop (fuel : nat) (c : Cursor) (st : RunState)
  : Result (Cursor * RunState) :=
  match fuel with
  | O => OutOfFuel
  | S fuel' =>
      if negb (st_spinsConsumed st <? maxSpins (config E)) then Ok (c, st)
      else if haltCondition st then Ok (c, st)
      else
        match node_type (currentNode c) with
        | martingale =>
            let limitType :=
              match martingaleLimitType (currentNode c) with
              | Some t => t | None => until_bankrupt end in
            let limitValue :=
              match truthyZ (martingaleLimitValue (currentNode c)) with
              | Some x => x | None => 0 end in
            let sequenceStartBankroll := st_bankroll st in
            match martingaleLoop fuel' limitType limitValue (currentBaseBets c)
                    sequenceStartBankroll
                    {| martingaleActive := true; martingaleStepCount := 0;
                       mv_multiplier := currentMultiplier c |} st with
            | Ok (v, st1) =>
                let c1 := withMultiplier c (mv_multiplier v) in
                let sequenceWon := st_bankroll st1 >=? sequenceStartBankroll in
                let next :=
                  if sequenceWon then children_win (currentNode c)
                  else children_loss (currentNode c) in
                mainLoop fuel' (leaveLoopNode next c1) st1
            | TypeError => TypeError
            | OutOfFuel => OutOfFuel
            end
        | repeat_until =>
            let repeatType :=
              match repeatUntilType (currentNode c) with
              | Some t => t | None => ru_spins end in
            let repeatValue :=
              match truthyZ (repeatUntilValue (currentNode c)) with
              | Some x => x | None => 1 end in
            match repeatLoop fuel' repeatType repeatValue (currentBaseBets c)
                    (currentMultiplier c) (st_bankroll st)
                    {| loopActive := true; loopSpins := 0; loopWins := 0 |} st with
            | Ok (_, st1) =>
                mainLoop fuel' (leaveLoopNode (children_win (currentNode c)) c) st1
            | TypeError => TypeError
            | OutOfFuel => OutOfFuel
            end
        | _ =>
            let capped :=
              capToTableMax (scaleBets (currentBaseBets c) (currentMultiplier c)) in
            let activeBets := fst capped in
            let totalWager := snd capped in
            if totalWager >? st_bankroll st then Ok (c, st)
            else
              let res := draw st in
              let r := recordStep st res activeBets (spinAction activeBets st) false in
              match lastStep (st_steps (snd r)) with
              | None => TypeError
              | Some last =>
                  let roundWin := won last in
                  let next :=
                    if roundWin then children_win (currentNode c)
                    else children_loss (currentNode c) in
                  let cs := leaveSpinNode next c (snd r) in
                  mainLoop fuel' (fst cs) (snd cs)
              end
        end
  end.

(** [roi: initial > 0 ? ((bankroll - initial) / initial) * 100 : 0] *)
Definition roiOf (initial finalB : Z) : Q :=
  if initial >? 0
  then ((inject_Z (finalB - initial) / inject_Z initial) * inject_Z 100)%Q
  else 0%Q.

Definition finalStats (st : RunState) : SimulationStats :=
  {| s_initialBankroll := initialBankroll E;
     finalBankroll := st_bankroll st;
     totalSpins := Z.of_nat (List.length (st_steps st));
     wins := st_wins st;
     losses := st_losses st;
     maxDrawdown := st_maxDrawdown st;
     maxUpside := st_maxUpside st;
     longestWinStreak := st_longestWinStreak st;
     longestLossStreak := st_longestLossStreak st;
     roi := roiOf (initialBankroll E) (st_bankroll st);
     s_config := config E |}.

Definition runSimulation (fuel : nat)
  : Result (list SimulationStep * SimulationStats) :=
  match mainLoop fuel initialCursor (preSimWait initialState) with
  | Ok (_, st) => Ok (st_steps st, finalStats st)
  | TypeError => TypeError
  | OutOfFuel => OutOfFuel
  end.

End Runner.

(** ** Playback statistics ([displayedStats] of [App.tsx]) *)

Record PlaybackAcc := mkAcc {
  a_wins : Z;
  a_losses : Z;
  a_currentWinStreak : Z;
  a_currentLossStreak : Z;
  a_longestWinStreak : Z;
  a_longestLossStreak : Z;
  a_maxDrawdown : Z;
  a_maxUpside : Z;
  a_bankroll : Z
}.

(** The body of [displayedSteps.forEach]. *)
Definition playbackStep (initial : Z) (a : PlaybackAcc) (step : SimulationStep)
  : PlaybackAcc :=
  let winsNow := if won step then a_wins a + 1 else a_wins a in
  let lossesNow := if won step then a_losses a else a_losses a + 1 in
  let cws := if won step then a_currentWinStreak a + 1 else 0 in
  let cls := if won step then 0 else a_currentLossStreak a + 1 in
  let lws := if cws >? a_longestWinStreak a then cws else a_longestWinStreak a in
  let lls := if cls >? a_longestLossStreak a then cls else a_longestLossStreak a in
  let diff := bankroll step - initial in
  {| a_wins := winsNow; a_losses := lossesNow;
     a_currentWinStreak := cws; a_currentLossStreak := cls;
     a_longestWinStreak := lws; a_longestLossStreak := lls;
     a_maxDrawdown := if diff <? a_maxDrawdown a then diff else a_maxDrawdown a;
     a_maxUpside := if diff >? a_maxUpside a then diff else a_maxUpside a;
     a_bankroll := bankroll step |}.

Definition displayedStats
    (currentSim : option (list SimulationStep * SimulationStats))
    (playbackIndex : nat) : option SimulationStats :=
  match currentSim with
  | None => None
  | Some (steps, stats) =>
      if Nat.eqb playbackIndex 0 then
        Some {| s_initialBankroll := s_initialBankroll stats;
                finalBankroll := s_initialBankroll stats;
                totalSpins := 0; wins := 0; losses := 0;
                maxDrawdown := 0; maxUpside := 0;
                longestWinStreak := 0; longestLossStreak := 0;
                roi := 0%Q; s_config := s_config stats |}
      else if Nat.leb (List.length steps) playbackIndex then Some stats
      else
        let displayedSteps := firstn playbackIndex steps in
        let initial := s_initialBankroll stats in
        let a := fold_left (playbackStep initial) displayedSteps
                   {| a_wins := 0; a_losses := 0;
                      a_currentWinStreak := 0; a_currentLossStreak := 0;
                      a_longestWinStreak := 0; a_longestLossStreak := 0;
                      a_maxDrawdown := 0; a_maxUpside := 0;
                      a_bankroll := initial |} in
        Some {| s_initialBankroll := s_initialBankroll stats;
                finalBankroll := a_bankroll a;
                totalSpins := Z.of_nat (List.length displayedSteps);
                wins := a_wins a; losses := a_losses a;
                maxDrawdown := a_maxDrawdown a; maxUpside := a_maxUpside a;
                longestWinStreak := a_longestWinStreak a;
                longestLossStreak := a_longestLossStreak a;
                roi := roiOf initial (a_bankroll a);
                s_config := s_config stats |}
  end.

(** ** Ledger predicates used by the statements below *)

(** The bankroll in force just before the [i]-th ledger entry was made. *)
Definition bankrollBefore (initial : Z) (steps : list SimulationStep) (i : nat) : Z :=
  match i with
  | O => initial
  | S j => match nth_error steps j with Some p => bankroll p | None => initial end
  end.

(** The bankroll after the last entry of a ledger that started at [initial]. *)
Definition lastBankroll (initial : Z) (steps : list SimulationStep) : Z :=
  match lastStep steps with Some s => bankroll s | None => initial end.

(** [chain P prev steps]: [P] relates every entry to the bankroll recorded
    by the entry before it ([prev] for the first). *)
Fixpoint chain (P : Z -> SimulationStep -> Prop) (prev : Z)
    (steps : list SimulationStep) : Prop :=
  match steps with
  | [] => True
  | s :: rest => P prev s /\ chain P (bankroll s) rest
  end.

(** The label rules that [isWin] applies to a non-zero outcome. *)
Definition dozenByLabel (bet : PlacedBet) (resultVal : Z) : bool :=
  if label_is bet "1st 12" then (resultVal >=? 1) && (resultVal <=? 12)
  else if label_is bet "2nd 12" then (resultVal >=? 13) && (resultVal <=? 24)
  else if label_is bet "3rd 12" then (resultVal >=? 25) && (resultVal <=? 36)
  else false.

Definition columnByModulo (bet : PlacedBet) (resultVal : Z) : bool :=
  if label_is bet "2 to 1 (Bot)" then Z.rem resultVal 3 =? 1
  else if label_is bet "2 to 1 (Mid)" then Z.rem resultVal 3 =? 2
  else if label_is bet "2 to 1 (Top)" then
    negb (resultVal =? 0) && negb (resultVal =? 37) && (Z.rem resultVal 3 =? 0)
  else false.

Definition isZeroOrDoubleZero (p : Pocket) : bool :=
  (getResultValue p =? 0) || (getResultValue p =? 37).

(** ** Example inputs *)

(** The exact rational value of the scaling, floored. *)
Definition exactFloorScaled (amount tableMax totalWager : Z) : Z :=
  amount * tableMax / totalWager.

Definition straight17 (amt : Z) : PlacedBet :=
  {| bet_id := "b1"; bet_type := STRAIGHT; numbers := [17]; amount := amt;
     label := Some "17"%string |}.

Definition plainNode (id : string) (ty : ProgressionType)
    (bs : option (list PlacedBet)) (w l : Child StrategyNode) : StrategyNode :=
  {| node_id := id; node_type := ty; node_bets := bs; value := None;
     condition := None; postWaitAction := None;
     martingaleLimitType := None; martingaleLimitValue := None;
     repeatUntilType := None; repeatUntilValue := None;
     children_win := w; children_loss := l |}.

(** A first-dozen wager that carries its twelve numbers but no label. *)
Definition dozenUnlabelled : PlacedBet :=
  {| bet_id := "d1"; bet_type := DOZEN;
     numbers := [1; 2; 3; 4; 5; 6; 7; 8; 9; 10; 11; 12]; amount := 10;
     label := None |}.

Definition columnTop : PlacedBet :=
  {| bet_id := "c1"; bet_type := COLUMN;
     numbers := [3; 6; 9; 12; 15; 18; 21; 24; 27; 30; 33; 36]; amount := 10;
     label := Some "2 to 1 (Top)"%string |}.

(** ** The calls of [recordStep] made by a run *)

Definition isSpinAction (a : ActionType) : bool :=
  match a with START | BET | NO_BET => true | _ => false end.

Section Reach.

Variable E : RunInput.

(** The four kinds of place where [runSimulation] calls [recordStep], each
    with what the code has tested on the way to the call: the wait loops
    test nothing, the two inner loops test the spin budget, a positive
    bankroll and the affordability of the wager, the standard single spin
    comes after the full head-of-loop tests. *)
Inductive callSite (st : RunState) : list PlacedBet -> ActionType -> bool -> Prop :=
| call_wait (a : ActionType) :
    isWaitAction a = true -> callSite st [] a true
| call_martingale (activeBets : list PlacedBet) (m : Z) :
    st_spinsConsumed st < maxSpins (config E) ->
    0 < st_bankroll st ->
    sumAmounts activeBets <= st_bankroll st ->
    callSite st activeBets (MARTINGALE_x m) false
| call_repeat (activeBets : list PlacedBet) (t : RepeatUntilType) :
    st_spinsConsumed st < maxSpins (config E) ->
    0 < st_bankroll st ->
    sumAmounts activeBets <= st_bankroll st ->
    callSite st activeBets (REPEAT t) false
| call_spin (activeBets : list PlacedBet) :
    st_spinsConsumed st < maxSpins (config E) ->
    haltCondition E st = false ->
    sumAmounts activeBets <= st_bankroll st ->
    callSite st activeBets (spinAction activeBets st) false.

(** [reach st st']: [st'] is obtained from [st] by a sequence of such
    calls, each on a freshly drawn spin. *)
Inductive reach : RunState -> RunState -> Prop :=
| reach_refl (st : RunState) : reach st st
| reach_step (st st' : RunState) (activeBets : list PlacedBet)
    (a : ActionType) (w : bool) :
    reach st st' ->
    callSite st' activeBets a w ->
    reach st (snd (recordStep E st' (draw E st') activeBets a w)).

(** What the engine guarantees about a ledger entry, given the bankroll
    [prev] in force before it. *)
Definition stepOK (prev : Z) (s : SimulationStep) : Prop :=
  bankroll s = prev + net s
  /\ (isWaitAction (actionType s) = true -> net s = 0 /\ betTotal s = 0 /\ bets s = [])
  /\ (isWaitAction (actionType s) = false ->
      0 < prev /\ spinIndex s <= maxSpins (config E) /\ betTotal s <= prev)
  /\ (isSpinAction (actionType s) = true ->
      stopLoss (strategy E) < prev
      /\ (0 < takeProfit (strategy E) -> prev < takeProfit (strategy E))).

(** The ledger invariant of a run state. *)
Definition ledgerInv (st : RunState) : Prop :=
  chain stepOK (initialBankroll E) (st_steps st)
  /\ st_bankroll st = lastBankroll (initialBankroll E) (st_steps st).

End Reach.

(** ** Example runs *)

Definition ledgerOf (r : Result (list SimulationStep * SimulationStats))
  : list SimulationStep :=
  match r with Ok (steps, _) => steps | _ => [] end.

Definition statsOf (r : Result (list SimulationStep * SimulationStats))
  : option SimulationStats :=
  match r with Ok (_, stats) => Some stats | _ => None end.

(** Wait two spins, then bet 10 on 17 at every spin; 17 comes up on the
    fourth draw. *)
Definition demoRoot : StrategyNode :=
  {| node_id := "root"; node_type := wait_spins;
     node_bets := Some [straight17 10]; value := Some 2;
     condition := None; postWaitAction := None;
     martingaleLimitType := None; martingaleLimitValue := None;
     repeatUntilType := None; repeatUntilValue := None;
     children_win := RootRef; children_loss := NoChild |}.

Definition demoInput : RunInput :=
  {| initialBankroll := 100;
     strategy := {| rootNode := demoRoot; stopLoss := 0; takeProfit := 2000 |};
     config := {| maxSpins := 6; tableMin := 3; tableMax := 1000 |};
     rng := fun k => if k =? 3 then 17 else k;
     floorScaled := exactFloorScaled |}.

Definition demoSteps : list SimulationStep :=
  Eval vm_compute in ledgerOf (runSimulation demoInput 20).

Definition demoStats : SimulationStats :=
  Eval vm_compute in
    match statsOf (runSimulation demoInput 20) with
    | Some s => s
    | None => finalStats demoInput (initialState demoInput)
    end.

Definition demoStep3 : SimulationStep :=
  Eval vm_compute in nth 2 demoSteps (mkStep 0 (generateSpin 0) [] [] 0 0 0 0 false NO_BET).

(** A martingale on 17 with a stop-loss of 95 and a wheel that always
    shows 0. *)
Definition stopLossRoot : StrategyNode :=
  {| node_id := "root"; node_type := martingale;
     node_bets := Some [straight17 10]; value := None;
     condition := None; postWaitAction := None;
     martingaleLimitType := Some until_bankrupt; martingaleLimitValue := None;
     repeatUntilType := None; repeatUntilValue := None;
     children_win := NoChild; children_loss := NoChild |}.

Definition stopLossInput : RunInput :=
  {| initialBankroll := 100;
     strategy := {| rootNode := stopLossRoot; stopLoss := 95; takeProfit := 0 |};
     config := {| maxSpins := 50; tableMin := 3; tableMax := 1000 |};
     rng := fun _ => 0;
     floorScaled := exactFloorScaled |}.

(** Whether the pre-simulation wait phase of [runSimulation] draws spins
    for this root. *)
Definition preSimWaits (n : StrategyNode) : bool :=
  match node_type n with
  | wait_spins =>
      match truthyZ (value n) with Some v => 0 <? v | None => false end
  | wait_condition =>
      match truthyString (condition n) with Some _ => true | None => false end
  | _ => false
  end.

(** A ledger entry of a wait spin of a run that started at [initial] and
    has not bet yet. *)
Definition idleEntry (initial : Z) (s : SimulationStep) : Prop :=
  isWaitAction (actionType s) = true /\ bets s = [] /\ betTotal s = 0
  /\ payout s = 0 /\ net s = 0 /\ won s = false /\ bankroll s = initial.

(** The state of a run in which only wait spins have been recorded. *)
Definition idleState (E : RunInput) (st : RunState) : Prop :=
  st_bankroll st = initialBankroll E
  /\ Forall (idleEntry (initialBankroll E)) (st_steps st)
  /\ 0 <= st_spinsConsumed st
  /\ st_wins st = 0 /\ st_losses st = 0
  /\ st_maxDrawdown st = 0 /\ st_maxUpside st = 0
  /\ st_longestWinStreak st = 0 /\ st_longestLossStreak st = 0.

(** The demo strategy with a spin budget of zero. *)
Definition waitInput : RunInput :=
  {| initialBankroll := 100;
     strategy := {| rootNode := demoRoot; stopLoss := 0; takeProfit := 2000 |};
     config := {| maxSpins := 0; tableMin := 3; tableMax := 1000 |};
     rng := fun k => k;
     floorScaled := exactFloorScaled |}.

(** A root martingale on 17 whose win and loss children are both the root
    itself, a bankroll of 15 and a wheel that always shows 0. *)
Definition stallRoot : StrategyNode :=
  {| node_id := "root"; node_type := martingale;
     node_bets := Some [straight17 10]; value := None;
     condition := None; postWaitAction := None;
     martingaleLimitType := Some until_bankrupt; martingaleLimitValue := None;
     repeatUntilType := None; repeatUntilValue := None;
     children_win := RootRef; children_loss := RootRef |}.

Definition stallInput : RunInput :=
  {| initialBankroll := 15;
     strategy := {| rootNode := stallRoot; stopLoss := 0; takeProfit := 2000 |};
     config := {| maxSpins := 50; tableMin := 3; tableMax := 1000 |};
     rng := fun _ => 0;
     floorScaled := exactFloorScaled |}.

(** The state of that run after its single, losing spin. *)
Definition stallState : RunState :=
  Eval vm_compute in
    snd (recordStep stallInput (initialState stallInput)
           (draw stallInput (initialState stallInput))
           [straight17 10] (MARTINGALE_x 1) false).

(** ** The engine's statistics as a fold over the ledger

    [engineStep] is the statistics update of [recordStep], read off a
    ledger entry: the wait flag is recovered from the action tag, [net] and
    [bankroll] from the entry. *)

Definition emptyAcc (initial : Z) : PlaybackAcc :=
  {| a_wins := 0; a_losses := 0;
     a_currentWinStreak := 0; a_currentLossStreak := 0;
     a_longestWinStreak := 0; a_longestLossStreak := 0;
     a_maxDrawdown := 0; a_maxUpside := 0;
     a_bankroll := initial |}.

Definition engineStep (initial : Z) (a : PlaybackAcc) (s : SimulationStep)
  : PlaybackAcc :=
  let isWaitStep := isWaitAction (actionType s) in
  let n := net s in
  let cws :=
    if isWaitStep then a_currentWinStreak a
    else if n >? 0 then a_currentWinStreak a + 1 else 0 in
  let cls :=
    if isWaitStep then a_currentLossStreak a
    else if n >? 0 then 0
    else if n <? 0 then a_currentLossStreak a + 1 else 0 in
  let totalNetChange := bankroll s - initial in
  {| a_wins := if negb isWaitStep && (n >? 0) then a_wins a + 1 else a_wins a;
     a_losses :=
       if negb isWaitStep && negb (n >? 0) && (n <? 0)
       then a_losses a + 1 else a_losses a;
     a_currentWinStreak := cws;
     a_currentLossStreak := cls;
     a_longestWinStreak :=
       if negb isWaitStep && (cws >? a_longestWinStreak a)
       then cws else a_longestWinStreak a;
     a_longestLossStreak :=
       if negb isWaitStep && (cls >? a_longestLossStreak a)
       then cls else a_longestLossStreak a;
     a_maxDrawdown :=
       if negb isWaitStep && (totalNetChange <? a_maxDrawdown a)
       then totalNetChange else a_maxDrawdown a;
     a_maxUpside :=
       if negb isWaitStep && (totalNetChange >? a_maxUpside a)
       then totalNetChange else a_maxUpside a;
     a_bankroll := bankroll s |}.

Definition accStats (initial : Z) (cfg : SimConfig) (n : nat) (a : PlaybackAcc)
  : SimulationStats :=
  {| s_initialBankroll := initial;
     finalBankroll := a_bankroll a;
     totalSpins := Z.of_nat n;
     wins := a_wins a; losses := a_losses a;
     maxDrawdown := a_maxDrawdown a; maxUpside := a_maxUpside a;
     longestWinStreak := a_longestWinStreak a;
     longestLossStreak := a_longestLossStreak a;
     roi := roiOf initial (a_bankroll a);
     s_config := cfg |}.

(** The statistics the engine has accumulated once it has recorded exactly
    the entries [steps]. *)
Definition engineStats (initial : Z) (cfg : SimConfig) (steps : list SimulationStep)
  : SimulationStats :=
  accStats initial cfg (List.length steps)
    (fold_left (engineStep initial) steps (emptyAcc initial)).

(** The statistics counters of a run state. *)
Definition accOf (st : RunState) : PlaybackAcc :=
  {| a_wins := st_wins st; a_losses := st_losses st;
     a_currentWinStreak := st_currentWinStreak st;
     a_currentLossStreak := st_currentLossStreak st;
     a_longestWinStreak := st_longestWinStreak st;
     a_longestLossStreak := st_longestLossStreak st;
     a_maxDrawdown := st_maxDrawdown st; a_maxUpside := st_maxUpside st;
     a_bankroll := st_bankroll st |}.

(** A node that waits for red, used below both as a loss child and as a
    root. *)
Definition waitForRed (w l : Child StrategyNode) (bs : option (list PlacedBet))
  : StrategyNode :=
  {| node_id := "wait-red"; node_type := wait_condition;
     node_bets := bs; value := None;
     condition := Some "red"%string; postWaitAction := None;
     martingaleLimitType := None; martingaleLimitValue := None;
     repeatUntilType := None; repeatUntilValue := None;
     children_win := w; children_loss := l |}.

(** Bet 10 on 17; after a loss, wait for red before betting again.  The
    wheel shows 0, 2, 4, 1, 6, ... *)
Definition interiorWaitRoot : StrategyNode :=
  plainNode "root" start_immediately (Some [straight17 10])
    RootRef (Sub (waitForRed RootRef RootRef None)).

Definition wheel0241 (k : Z) : Z :=
  if k =? 0 then 0 else if k =? 1 then 2 else if k =? 2 then 4
  else if k =? 3 then 1 else 6.

Definition interiorWaitInput : RunInput :=
  {| initialBankroll := 100;
     strategy := {| rootNode := interiorWaitRoot; stopLoss := 0; takeProfit := 2000 |};
     config := {| maxSpins := 4; tableMin := 3; tableMax := 1000 |};
     rng := wheel0241;
     floorScaled := exactFloorScaled |}.

(** The same wait node as the root of the strategy. *)
Definition rootWaitInput : RunInput :=
  {| initialBankroll := 100;
     strategy := {| rootNode := waitForRed NoChild NoChild (Some [straight17 10]);
                    stopLoss := 0; takeProfit := 2000 |};
     config := {| maxSpins := 4; tableMin := 3; tableMax := 1000 |};
     rng := wheel0241;
     floorScaled := exactFloorScaled |}.

(** ** One visit of a spin-count martingale, read off the ledger

    [spinCountVisit limit m cnt visit mEnd]: the entries [visit] were made
    by a martingale visit that had drawn [cnt] spins and held multiplier [m]
    when the first of them was drawn; each entry is tagged with the
    multiplier in force, the multiplier is doubled after a losing spin that
    leaves the count below [limit] and kept otherwise, and [mEnd] is the
    multiplier the visit ends with. *)
Fixpoint spinCountVisit (limit m cnt : Z) (visit : list SimulationStep)
    (mEnd : Z) : Prop :=
  match visit with
  | [] => mEnd = m
  | s :: rest =>
      actionType s = MARTINGALE_x m
      /\ spinCountVisit limit
           (if (cnt + 1 <? limit) && negb (won s) then m * 2 else m)
           (cnt + 1) rest mEnd
  end.

(** Martingale on 17 limited to three spins, followed on a lost sequence by
    a same-bet node; the wheel always shows 0. *)
Definition spinCountRoot : StrategyNode :=
  {| node_id := "root"; node_type := martingale;
     node_bets := Some [straight17 10]; value := None;
     condition := None; postWaitAction := None;
     martingaleLimitType := Some spin_count; martingaleLimitValue := Some 3;
     repeatUntilType := None; repeatUntilValue := None;
     children_win := RootRef;
     children_loss := Sub (plainNode "same" same_bet None RootRef RootRef) |}.

Definition spinCountInput : RunInput :=
  {| initialBankroll := 1000;
     strategy := {| rootNode := spinCountRoot; stopLoss := 0; takeProfit := 0 |};
     config := {| maxSpins := 4; tableMin := 3; tableMax := 1000 |};
     rng := fun _ => 0;
     floorScaled := exactFloorScaled |}.

Definition spinCountStart : MartingaleVars :=
  {| martingaleActive := true; martingaleStepCount := 0; mv_multiplier := 1 |}.

(** The strategy the application starts with: a root with an empty wager
    list and no children, under the default limits. *)
Definition defaultInput : RunInput :=
  {| initialBankroll := 1000;
     strategy := {| rootNode := plainNode "root" start_immediately (Some []) NoChild NoChild;
                    stopLoss := 0; takeProfit := 2000 |};
     config := {| maxSpins := 50; tableMin := 3; tableMax := 1000 |};
     rng := fun k => k mod 38;
     floorScaled := exactFloorScaled |}.

(** The ledger entry of a spin on which nothing is wagered. *)
Definition noBetEntry (E : RunInput) (st : RunState) : SimulationStep :=
  {| spinIndex := st_spinsConsumed st + 1; result := draw E st;
     bets := []; outcomes := []; betTotal := 0; payout := 0; net := 0;
     bankroll := st_bankroll st; won := false; actionType := NO_BET |}.

Definition isNoBet (s : SimulationStep) : bool :=
  match actionType s with NO_BET => true | _ => false end.

(** ** Strategies without loop nodes *)

(** No node of the tree below [n] is a martingale or a repeat-until node. *)
Fixpoint singleSpinOnly (n : StrategyNode) : Prop :=
  match n with
  | mkNode _ ty _ _ _ _ _ _ _ _ w l =>
      ty <> martingale /\ ty <> repeat_until
      /\ match w with Sub m => singleSpinOnly m | _ => True end
      /\ match l with Sub m => singleSpinOnly m | _ => True end
  end.

(** [n] consecutive NO_BET spins from state [st]. *)
Fixpoint noBetSpins (E : RunInput) (n : nat) (st : RunState) : RunState :=
  match n with
  | O => st
  | S n' => noBetSpins E n' (snd (recordStep E st (draw E st) [] NO_BET false))
  end.

(** ** Strategies without wagers *)

(** No node of the tree below [n] carries a wager ([bets] absent or empty)
    and none is a martingale or a repeat-until node: whenever a node of such
    a tree executes, the active base wager list is empty. *)
Fixpoint noWagerTree (n : StrategyNode) : Prop :=
  match n with
  | mkNode _ ty bs _ _ _ _ _ _ _ w l =>
      ty <> martingale /\ ty <> repeat_until
      /\ (bs = None \/ bs = Some [])
      /\ match w with Sub m => noWagerTree m | _ => True end
      /\ match l with Sub m => noWagerTree m | _ => True end
  end.

(** The ledger entry of a spin made with an empty wager list in a run that
    started at [initialBankroll E] and has not moved from it. *)
Definition noBetSpin (E : RunInput) (s : SimulationStep) : Prop :=
  actionType s = NO_BET /\ bets s = [] /\ outcomes s = [] /\ betTotal s = 0
  /\ payout s = 0 /\ net s = 0 /\ won s = false
  /\ bankroll s = initialBankroll E
  /\ spinIndex s <= maxSpins (config E).

Definition idleOrNoBet (E : RunInput) (s : SimulationStep) : Prop :=
  idleEntry (initialBankroll E) s \/ noBetSpin E s.

(** The traversal state of a strategy without wagers. *)
Definition emptyHanded (c : Cursor) : Prop :=
  currentBaseBets c = [] /\ noWagerTree (currentNode c).

(** The run state of a strategy without wagers. *)
Definition unmoved (E : RunInput) (st : RunState) : Prop :=
  st_bankroll st = initialBankroll E
  /\ st_spinsConsumed st = Z.of_nat (List.length (st_steps st))
  /\ Forall (idleOrNoBet E) (st_steps st).

(** Whether a node of the tree below [n] is a wait node. *)
Fixpoint hasWaitNode (n : StrategyNode) : bool :=
  match n with
  | mkNode _ ty _ _ _ _ _ _ _ _ w l =>
      match ty with wait_spins | wait_condition => true | _ => false end
      || match w with Sub m => hasWaitNode m | _ => false end
      || match l with Sub m => hasWaitNode m | _ => false end
  end.

(** ** The ledger entry pushed by [recordStep]

    [entryOf st res bs a w] is the object literal that [recordStep] pushes
    when it is called in state [st] and does not take its early return. *)
Definition entryOf (st : RunState) (res : SpinResult) (bs : list PlacedBet)
    (a : ActionType) (w : bool) : SimulationStep :=
  let po := if w then (0, []) else calculateDetailedOutcomes bs res in
  {| spinIndex := st_spinsConsumed st + 1; result := res; bets := bs;
     outcomes := snd po; betTotal := sumAmounts bs; payout := fst po;
     net := fst po - sumAmounts bs;
     bankroll := st_bankroll st + (fst po - sumAmounts bs);
     won := fst po - sumAmounts bs >? 0; actionType := a |}.

(** What one ledger entry says about itself. *)
Definition entryConsistent (s : SimulationStep) : Prop :=
  net s = payout s - betTotal s
  /\ won s = (net s >? 0)
  /\ betTotal s = sumAmounts (bets s)
  /\ (if isWaitAction (actionType s)
      then bets s = [] /\ outcomes s = [] /\ payout s = 0
      else (payout s, outcomes s) = calculateDetailedOutcomes (bets s) (result s)).

(** Counting ledger entries. *)
Definition countIf (p : SimulationStep -> bool) (steps : list SimulationStep) : Z :=
  Z.of_nat (List.length (filter p steps)).

Definition isBettingWin (s : SimulationStep) : bool :=
  negb (isWaitAction (actionType s)) && (net s >? 0).

Definition isBettingLoss (s : SimulationStep) : bool :=
  negb (isWaitAction (actionType s)) && (net s <? 0).

(** The statistics invariant of a run state. *)
Definition statsInv (E : RunInput) (st : RunState) : Prop :=
  st_maxDrawdown st <= 0 <= st_maxUpside st
  /\ st_maxDrawdown st <= st_bankroll st - initialBankroll E <= st_maxUpside st
  /\ 0 <= st_currentWinStreak st <= st_longestWinStreak st
  /\ st_longestWinStreak st <= st_wins st
  /\ 0 <= st_currentLossStreak st <= st_longestLossStreak st
  /\ st_longestLossStreak st <= st_losses st
  /\ st_wins st + st_losses st <= Z.of_nat (List.length (st_steps st))
  /\ (st_currentWinStreak st = 0 \/ st_currentLossStreak st = 0).

(** The spin-index invariant of a run state: the entries are numbered
    1, 2, ... and each holds the draw made at its position. *)
Definition numbered (E : RunInput) (steps : list SimulationStep) : Prop :=
  forall (i : nat) (s : SimulationStep),
    nth_error steps i = Some s ->
    spinIndex s = Z.of_nat i + 1 /\ result s = generateSpin (rng E (Z.of_nat i)).

(** ** Wagers with non-negative amounts *)

Definition nonnegBets (bs : list PlacedBet) : Prop :=
  Forall (fun b => 0 <= amount b) bs.

(** Every wager list in the tree below [n] has non-negative amounts. *)
Fixpoint treeNonneg (n : StrategyNode) : Prop :=
  match n with
  | mkNode _ _ bs _ _ _ _ _ _ _ w l =>
      nonnegBets (match bs with Some x => x | None => [] end)
      /\ match w with Sub m => treeNonneg m | _ => True end
      /\ match l with Sub m => treeNonneg m | _ => True end
  end.

Section Wagers.

Variable E : RunInput.

(** What holds of the wagers passed to [recordStep]: a martingale wager
    has passed the table-maximum test, and when the tree holds no negative
    amount neither do the wagers placed. *)
Definition wagerOK (bs : list PlacedBet) (a : ActionType) : Prop :=
  (treeNonneg (rootNode (strategy E)) -> nonnegBets bs)
  /\ (forall m, a = MARTINGALE_x m -> sumAmounts bs <= tableMax (config E)).

Inductive reachW : RunState -> RunState -> Prop :=
| reachW_refl (st : RunState) : reachW st st
| reachW_step (st st' : RunState) (activeBets : list PlacedBet)
    (a : ActionType) (w : bool) :
    reachW st st' ->
    callSite E st' activeBets a w ->
    wagerOK activeBets a ->
    reachW st (snd (recordStep E st' (draw E st') activeBets a w)).

(** The traversal variables hold a non-negative wager template, a
    multiplier of at least 1 and a node of a non-negative tree. *)
Definition cursorOK (c : Cursor) : Prop :=
  treeNonneg (rootNode (strategy E)) ->
  nonnegBets (currentBaseBets c) /\ 1 <= currentMultiplier c
  /\ treeNonneg (currentNode c).

(** The ledger side of [wagerOK]. *)
Definition entryWagerOK (s : SimulationStep) : Prop :=
  (treeNonneg (rootNode (strategy E)) -> nonnegBets (bets s))
  /\ (forall m, actionType s = MARTINGALE_x m -> betTotal s <= tableMax (config E)).

End Wagers.

(** ** The wait-for-condition phase *)

(** The two tests that set [conditionMet] in the pre-simulation loop. *)
Definition conditionMet (cond : string) (res : SpinResult) : bool :=
  (String.eqb cond "red" && match color res with red => true | _ => false end)
  || (String.eqb cond "black" && match color res with black => true | _ => false end).

(** A run of wait-for-condition entries: zero wager, and the condition is
    not met on any entry but the last. *)
Fixpoint waitRun (cond : string) (added : list SimulationStep) : Prop :=
  match added with
  | [] => True
  | s :: rest =>
      actionType s = WAITING_FOR (toUpperCase cond)
      /\ betTotal s = 0 /\ net s = 0
      /\ (rest <> [] -> conditionMet cond (result s) = false)
      /\ waitRun cond rest
  end.

(** The martingale run of the strategy with the spin-count limit. *)
Definition martSteps : list SimulationStep :=
  Eval vm_compute in ledgerOf (runSimulation spinCountInput 20).

Definition martStats : SimulationStats :=
  Eval vm_compute in
    match statsOf (runSimulation spinCountInput 20) with
    | Some s => s
    | None => finalStats spinCountInput (initialState spinCountInput)
    end.

Definition martStep2 : SimulationStep :=
  Eval vm_compute in nth 1 martSteps (mkStep 0 (generateSpin 0) [] [] 0 0 0 0 false NO_BET).

(** The wait-for-red root of [rootWaitInput] with a wheel that never shows
    red or black, and with a condition the engine does not know. *)
Definition greenWheelInput (cond : string) : RunInput :=
  {| initialBankroll := 100;
     strategy := {| rootNode :=
                      {| node_id := "root"; node_type := wait_condition;
                         node_bets := Some [straight17 10]; value := None;
                         condition := Some cond; postWaitAction := None;
                         martingaleLimitType := None; martingaleLimitValue := None;
                         repeatUntilType := None; repeatUntilValue := None;
                         children_win := NoChild; children_loss := NoChild |};
                    stopLoss := 0; takeProfit := 2000 |};
     config := {| maxSpins := 4; tableMin := 3; tableMax := 1000 |};
     rng := wheel0241;
     floorScaled := exactFloorScaled |}.

(** ** Visits of the two loop nodes, read off the ledger *)

(** An until-bankrupt martingale visit that starts with multiplier [m] on
    the wager template [base]: every entry wagers the template times the
    multiplier in force, the multiplier doubles from one entry to the
    next, and no entry but the last is a winning spin. *)
Fixpoint doublingRun (base : list PlacedBet) (m : Z)
    (visit : list SimulationStep) : Prop :=
  match visit with
  | [] => True
  | s :: rest =>
      actionType s = MARTINGALE_x m
      /\ bets s = scaleBets base m
      /\ (rest <> [] -> won s = false)
      /\ doublingRun base (m * 2) rest
  end.

Definition untilBankruptStart (m : Z) : MartingaleVars :=
  {| martingaleActive := true; martingaleStepCount := 0; mv_multiplier := m |}.

Definition repeatStart : RepeatVars :=
  {| loopActive := true; loopSpins := 0; loopWins := 0 |}.

(** ** The wagers the betting table can place ([components/RouletteTable])

    Each clickable spot of the table calls
    [handleBet (type, numbers, label)], which places a wager with the
    selected chip as its amount.  A [Spot] is one such triple;
    [tableSpots] lists the spots in the order the component renders them. *)

From Stdlib Require Import DecimalString.

Record Spot := mkSpot {
  spot_type : BetType;
  spot_numbers : list Z;
  spot_label : string
}.

(** [num.toString ()] *)
Definition numToString (n : Z) : string := NilZero.string_of_int (Z.to_int n).

(** The wager [handleBet] hands to [onPlaceBet], completed with the id the
    modal gives it. *)
Definition spotWager (id : string) (chip : Z) (s : Spot) : PlacedBet :=
  {| bet_id := id; bet_type := spot_type s; numbers := spot_numbers s;
     amount := chip; label := Some (spot_label s) |}.

(** [renderZeros] *)
Definition zeroSpots : list Spot :=
  [ mkSpot STRAIGHT [0] "0"; mkSpot SPLIT [0; 37] "Split";
    mkSpot STRAIGHT [37] "00"; mkSpot BASKET [0; 37; 1; 2; 3] "Basket" ].

(** [renderNumberColumn (colIndex)] *)
Definition numberColumnSpots (colIndex : Z) : list Spot :=
  let topNum := 3 + colIndex * 3 in
  let midNum := 2 + colIndex * 3 in
  let botNum := 1 + colIndex * 3 in
  let nums := [topNum; midNum; botNum] in
  [mkSpot STREET nums "Street"]
  ++ (if colIndex <? 11
      then [mkSpot LINE (nums ++ [topNum + 3; midNum + 3; botNum + 3]) "Line"]
      else [])
  ++ flat_map
       (fun idx =>
          let num := nth idx nums 0 in
          let below := nth (S idx) nums 0 in
          [mkSpot STRAIGHT [num] (numToString num)]
          ++ (if Nat.ltb idx 2 then [mkSpot SPLIT [num; below] "Split"] else [])
          ++ (if colIndex <? 11 then [mkSpot SPLIT [num; num + 3] "Split"] else [])
          ++ (if Nat.ltb idx 2 && (colIndex <? 11)
              then [mkSpot CORNER [num; below; num + 3; below + 3] "Corner"]
              else []))
       [0%nat; 1%nat; 2%nat].

(** [Array.from ({length: n}, (_, i) => f i)] *)
Definition arrayFrom (n : nat) (f : Z -> Z) : list Z :=
  map (fun i => f (Z.of_nat i)) (seq 0 n).

(** [renderOutsideBets] *)
Definition outsideSpots : list Spot :=
  map (fun p : string * nat =>
         let start := Z.of_nat (snd p) * 12 + 1 in
         mkSpot DOZEN (arrayFrom 12 (fun i => start + i)) (fst p))
      [("1st 12"%string, 0%nat); ("2nd 12"%string, 1%nat); ("3rd 12"%string, 2%nat)]
  ++ [ mkSpot HIGH_LOW (arrayFrom 18 (fun i => i + 1)) "1-18";
       mkSpot EVEN_ODD [] "Even";
       mkSpot RED_BLACK [] "Red";
       mkSpot RED_BLACK [] "Black";
       mkSpot EVEN_ODD [] "Odd";
       mkSpot HIGH_LOW (arrayFrom 18 (fun i => i + 19)) "19-36" ].

(** [renderTwoToOnes] *)
Definition twoToOneSpots : list Spot :=
  [ mkSpot COLUMN (arrayFrom 12 (fun i => 3 + i * 3)) "2 to 1 (Top)";
    mkSpot COLUMN (arrayFrom 12 (fun i => 2 + i * 3)) "2 to 1 (Mid)";
    mkSpot COLUMN (arrayFrom 12 (fun i => 1 + i * 3)) "2 to 1 (Bot)" ].

Definition tableSpots : list Spot :=
  zeroSpots
  ++ flat_map numberColumnSpots (arrayFrom 12 (fun i => i))
  ++ outsideSpots
  ++ twoToOneSpots.

(** The 38 values [Math.floor (Math.random () * 38)] can take. *)
Definition rawSpins : list Z := arrayFrom 38 (fun i => i).

(** The net of one wager summed over the 38 pockets. *)
Definition netOverWheel (bet : PlacedBet) : Z :=
  fold_right (fun raw acc => o_net (betOutcome (generateSpin raw) bet) + acc) 0 rawSpins.

(** On how many of the 38 pockets the wager wins. *)
Definition winningPockets (bet : PlacedBet) : Z :=
  Z.of_nat (List.length (filter (fun raw => isWin (number (generateSpin raw)) bet) rawSpins)).

(** ** The payout estimate of the strategy builder
    ([components/StrategyFlowBuilder], [calculateEstimatedOutcomes]) *)

(** The hit test of the estimator for outcome [resultVal] (37 stands for the
    double zero). *)
Definition estimatorHit (resultVal : Z) (bet : PlacedBet) : bool :=
  let isZeroOrDoubleZero := (resultVal =? 0) || (resultVal =? 37) in
  match bet_type bet with
  | BASKET => includes [0; 37; 1; 2; 3] resultVal
  | RED_BLACK =>
      if isZeroOrDoubleZero then false
      else
        opt_string_eqb
          (option_map color_name
             (NUMBER_COLORS (if resultVal =? 37 then DoubleZero else Num resultVal)))
          (option_map toLowerCase (label bet))
  | EVEN_ODD =>
      if isZeroOrDoubleZero then false
      else
        let isEven := Z.rem resultVal 2 =? 0 in
        (label_is bet "Even" && isEven) || (label_is bet "Odd" && negb isEven)
  | HIGH_LOW =>
      if isZeroOrDoubleZero then false
      else
        let hit1 := if label_is bet "1-18" && (resultVal <=? 18) then true else false in
        if label_is bet "19-36" && (resultVal >=? 19) then true else hit1
  | DOZEN =>
      if isZeroOrDoubleZero then false
      else if label_is bet "1st 12" && (resultVal <=? 12) then true
      else if label_is bet "2nd 12" && (resultVal >=? 13) && (resultVal <=? 24) then true
      else if label_is bet "3rd 12" && (resultVal >=? 25) then true
      else false
  | COLUMN =>
      if isZeroOrDoubleZero then false
      else if Z.of_nat (List.length (numbers bet)) >? 0
      then includes (numbers bet) resultVal
      else if label_is bet "2 to 1 (Bot)" && (Z.rem resultVal 3 =? 1) then true
      else if label_is bet "2 to 1 (Mid)" && (Z.rem resultVal 3 =? 2) then true
      else if label_is bet "2 to 1 (Top)" && negb (resultVal =? 0)
              && negb (resultVal =? 37) && (Z.rem resultVal 3 =? 0) then true
      else false
  | _ => if includes (numbers bet) resultVal then true else false
  end.

(** The estimator's own [switch] on the bet type. *)
Definition estimatorRatio (t : BetType) : Z :=
  match t with
  | STRAIGHT => 35
  | SPLIT => 17
  | STREET => 11
  | CORNER => 8
  | BASKET => 6
  | LINE => 5
  | COLUMN => 2
  | DOZEN => 2
  | _ => 1
  end.

(** [currentSpinPayout] for one outcome. *)
Definition estimatedSpinPayout (bets : list PlacedBet) (multiplier resultVal : Z) : Z :=
  fold_left
    (fun acc bet =>
       if estimatorHit resultVal bet
       then acc + (amount bet * multiplier
                   + amount bet * multiplier * estimatorRatio (bet_type bet))
       else acc)
    bets 0.

Record Estimate := mkEstimate {
  winDelta : Z;
  lossDelta : Z;
  totalWager : Z
}.

Definition calculateEstimatedOutcomes (bets : list PlacedBet) (multiplier : Z)
  : Estimate :=
  let totalWager := fold_left (fun s b => s + amount b * multiplier) bets 0 in
  let maxGrossPayout :=
    fold_left
      (fun mx i =>
         let currentSpinPayout := estimatedSpinPayout bets multiplier i in
         if currentSpinPayout >? mx then currentSpinPayout else mx)
      rawSpins 0 in
  {| winDelta := maxGrossPayout - totalWager;
     lossDelta := - totalWager;
     totalWager := totalWager |}.

(** The net of one engine spin on the wagers [bets] scaled by
    [multiplier], as [recordStep] computes it. *)
Definition spinNet (bets : list PlacedBet) (multiplier raw : Z) : Z :=
  fst (calculateDetailedOutcomes (scaleBets bets multiplier) (generateSpin raw))
  - sumAmounts (scaleBets bets multiplier).

(** ** The chip stacks of the betting table ([RouletteTable.getChipStack]) *)

(** [a === b] on the string values of the [BetType] enum. *)
Definition BetType_eqb (a b : BetType) : bool :=
  match a, b with
  | STRAIGHT, STRAIGHT | SPLIT, SPLIT | STREET, STREET | CORNER, CORNER
  | BASKET, BASKET | LINE, LINE | COLUMN, COLUMN | DOZEN, DOZEN
  | RED_BLACK, RED_BLACK | EVEN_ODD, EVEN_ODD | HIGH_LOW, HIGH_LOW
  | TRIO, TRIO => true
  | _, _ => false
  end.

(** [[...l].sort ((x, y) => x - y)]: on integers the result is the
    ascending arrangement of [l], whichever algorithm the host uses. *)
Fixpoint insertAscending (x : Z) (l : list Z) : list Z :=
  match l with
  | [] => [x]
  | y :: l' => if x <=? y then x :: l else y :: insertAscending x l'
  end.

Definition sortAscending (l : list Z) : list Z := fold_right insertAscending [] l.

(** [a.every ((val, index) => val === b[index])], from position [index]. *)
Fixpoint everyAt (a b : list Z) (index : nat) : bool :=
  match a with
  | [] => true
  | val :: a' =>
      match nth_error b index with
      | Some v => val =? v
      | None => false
      end && everyAt a' b (S index)
  end.

(** The truth value of an optional string argument. *)
Definition truthy (s : option string) : bool :=
  match s with
  | Some (String _ _) => true
  | _ => false
  end.

(** The filter of [getChipStack]. *)
Definition stackFilter (type : BetType) (nums : list Z) (lbl : option string)
    (b : PlacedBet) : bool :=
  if negb (BetType_eqb (bet_type b) type) then false
  else if truthy lbl && negb (opt_string_eqb (label b) lbl) then false
  else if negb (Nat.eqb (List.length (numbers b)) (List.length nums)) then false
  else everyAt (sortAscending (numbers b)) (sortAscending nums) 0.

(** What [getChipStack] renders: the chips drawn, the total of the badge
    and whether the badge is shown. *)
Record ChipStack := mkChipStack {
  visibleBets : list PlacedBet;
  stackTotal : Z;
  showsTotal : bool
}.

Definition getChipStack (placedBets : list PlacedBet) (type : BetType)
    (nums : list Z) (lbl : option string) : option ChipStack :=
  let bets := filter (stackFilter type nums lbl) placedBets in
  if Nat.eqb (List.length bets) 0 then None
  else
    Some {| visibleBets := skipn (List.length bets - 10) bets;
            stackTotal := sumAmounts bets;
            showsTotal := Nat.ltb 1 (List.length bets) |}.

(** The stack a spot of the table renders. *)
Definition spotStack (placedBets : list PlacedBet) (s : Spot) : option ChipStack :=
  getChipStack placedBets (spot_type s) (spot_numbers s) (Some (spot_label s)).

(** ** The wager editor ([components/TableModal]) *)

Inductive ChipValue := ONE | FIVE | TEN | TWENTY_FIVE | FIFTY | ONE_HUNDRED.

Definition chipAmount (c : ChipValue) : Z :=
  match c with
  | ONE => 1
  | FIVE => 5
  | TEN => 10
  | TWENTY_FIVE => 25
  | FIFTY => 50
  | ONE_HUNDRED => 100
  end.

Record ModalState := mkModal {
  tempBets : list PlacedBet;
  selectedChip : ChipValue
}.

(** [handlePlaceBet]; [id] is the random id the new wager gets. *)
Definition handlePlaceBet (startBankroll : Z) (tempBets : list PlacedBet)
    (id : string) (type : BetType) (nums : list Z) (amt : Z) (lbl : option string)
  : list PlacedBet :=
  let currentTotal := sumAmounts tempBets in
  if startBankroll - currentTotal <? amt then tempBets
  else
    tempBets ++ [{| bet_id := id; bet_type := type; numbers := nums;
                    amount := amt; label := lbl |}].

(** What the user can do in the open editor: click a spot of the table
    ([handleBet]), pick a chip, undo, clear. *)
Inductive TableEvent :=
| ClickSpot (s : Spot) (id : string)
| SelectChip (c : ChipValue)
| Undo
| Clear.

Definition modalStep (startBankroll : Z) (st : ModalState) (ev : TableEvent)
  : ModalState :=
  match ev with
  | ClickSpot s id =>
      {| tempBets :=
           handlePlaceBet startBankroll (tempBets st) id (spot_type s)
             (spot_numbers s) (chipAmount (selectedChip st)) (Some (spot_label s));
         selectedChip := selectedChip st |}
  | SelectChip c => {| tempBets := tempBets st; selectedChip := c |}
  | Undo => {| tempBets := removelast (tempBets st); selectedChip := selectedChip st |}
  | Clear => {| tempBets := []; selectedChip := selectedChip st |}
  end.

(** The editor opened on [initialBets]. *)
Definition openModal (initialBets : list PlacedBet) : ModalState :=
  {| tempBets := initialBets; selectedChip := FIVE |}.

Definition modalRun (startBankroll : Z) (initialBets : list PlacedBet)
    (events : list TableEvent) : ModalState :=
  fold_left (modalStep startBankroll) events (openModal initialBets).

(** ** Running a batch of simulations ([App.executeSimulationLogic]) *)

Definition SimResult : Type := list SimulationStep * SimulationStats.

(** The same run input drawing from the wheel [r]. *)
Definition withRng (E : RunInput) (r : Z -> Z) : RunInput :=
  {| initialBankroll := initialBankroll E; strategy := strategy E;
     config := config E; rng := r; floorScaled := floorScaled E |}.

(** The [for] loop: the runs share one stream of draws, so each run starts
    at the draw ([offset]) the run before it stopped at; a run consumes one
    draw for each entry of its ledger. *)
Fixpoint runAll (E : RunInput) (fuel : nat) (numSimulations : nat) (offset : Z)
  : Result (list SimResult) :=
  match numSimulations with
  | O => Ok []
  | S n =>
      match runSimulation (withRng E (fun i => rng E (offset + i))) fuel with
      | Ok r =>
          match runAll E fuel n (offset + Z.of_nat (List.length (fst r))) with
          | Ok rest => Ok (r :: rest)
          | TypeError => TypeError
          | OutOfFuel => OutOfFuel
          end
      | TypeError => TypeError
      | OutOfFuel => OutOfFuel
      end
  end.

(** [allResults.sort ((a, b) => a.stats.finalBankroll - b.stats.finalBankroll)];
    the sort is stable. *)
Fixpoint insertResult (r : SimResult) (l : list SimResult) : list SimResult :=
  match l with
  | [] => [r]
  | y :: l' =>
      if finalBankroll (snd r) <=? finalBankroll (snd y) then r :: l
      else y :: insertResult r l'
  end.

Definition sortResults (l : list SimResult) : list SimResult :=
  fold_right insertResult [] l.

(** Returns [allSimResults] and [currentResultIndex]. *)
Definition executeSimulationLogic (E : RunInput) (fuel : nat) (numSimulations : nat)
  : Result (list SimResult * nat) :=
  match runAll E fuel numSimulations 0 with
  | Ok allResults =>
      let sorted := sortResults allResults in
      Ok (sorted, Nat.div (List.length sorted) 2)
  | TypeError => TypeError
  | OutOfFuel => OutOfFuel
  end.

(** Whether the [j]-th spot of the table stacks a chip placed on the
    [i]-th exactly when [i = j]. *)
Definition spotsApart (i j : nat) : bool :=
  match nth_error tableSpots i, nth_error tableSpots j with
  | Some s, Some s' =>
      Bool.eqb
        (stackFilter (spot_type s') (spot_numbers s') (Some (spot_label s'))
           (spotWager EmptyString 0 s))
        (Nat.eqb i j)
  | _, _ => true
  end.

(** The total a spot's badge would show, 0 for a spot without chips. *)
Definition stackTotalAt (placedBets : list PlacedBet) (s : Spot) : Z :=
  match spotStack placedBets s with
  | Some st => stackTotal st
  | None => 0
  end.

(** The order [sort] puts the results in. *)
Definition byFinalBankroll (a b : SimResult) : Prop :=
  finalBankroll (snd a) <= finalBankroll (snd b).

(** Three runs of [demoInput] on one stream of draws. *)
Definition demoBatch : list SimResult :=
  Eval vm_compute in
    match executeSimulationLogic demoInput 20 3 with
    | Ok (results, _) => results
    | _ => []
    end.

(** ** Nodes made in the strategy builder and their preview *)

(** The node [App.handleCreateChild] adds to the tree when an action of
    type [type] is picked on an open branch:
    [StrategyFlowBuilder.handleActionSelect] passes the type, the label, the
    position and the loop defaults as [initialData], and no wagers, so the
    node gets [bets: []]. *)
Definition createdNode (id : string) (type : ProgressionType) : StrategyNode :=
  {| node_id := id; node_type := type; node_bets := Some [];
     value := None; condition := None; postWaitAction := None;
     martingaleLimitType :=
       match type with martingale => Some spin_count | _ => None end;
     martingaleLimitValue :=
       match type with martingale => Some 5 | _ => None end;
     repeatUntilType :=
       match type with repeat_until => Some ru_spins | _ => None end;
     repeatUntilValue :=
       match type with repeat_until => Some 10 | _ => None end;
     children_win := NoChild; children_loss := NoChild |}.

(** The wagers and the multiplier [StrategyFlowBuilder]'s [traverse] gives a
    node, from those of its parent ([incomingBets], [incomingMultiplier]). *)
Definition traverseEntry (rootNode node : StrategyNode)
    (incomingBets : list PlacedBet) (incomingMultiplier : Z)
  : list PlacedBet * Z :=
  let rootBets :=
    match node_bets rootNode with Some bs => bs | None => incomingBets end in
  if hasBets node then (betsOrEmpty node, 1)
  else
    match node_type node, node_bets node with
    | start_immediately, Some bs => (bs, 1)
    | _, _ =>
        match node_type node with
        | double => (incomingBets, incomingMultiplier * 2)
        | triple => (incomingBets, incomingMultiplier * 3)
        | add_unit => (incomingBets, incomingMultiplier + 1)
        | subtract_unit => (incomingBets, Z.max 1 (incomingMultiplier - 1))
        | martingale => (incomingBets, 1)
        | reset => (rootBets, 1)
        | wait_spins | wait_condition =>
            match postWaitAction node with
            | Some double => (incomingBets, incomingMultiplier * 2)
            | Some triple => (incomingBets, incomingMultiplier * 3)
            | Some add_unit => (incomingBets, incomingMultiplier + 1)
            | Some subtract_unit => (incomingBets, Z.max 1 (incomingMultiplier - 1))
            | Some reset => (rootBets, 1)
            | _ => (incomingBets, incomingMultiplier)
            end
        | _ => (incomingBets, incomingMultiplier)
        end
    end.

(** [activeBetAmount] of the rendered node. *)
Definition activeBetAmount (rootNode node : StrategyNode)
    (incomingBets : list PlacedBet) (incomingMultiplier : Z) : Z :=
  let e := traverseEntry rootNode node incomingBets incomingMultiplier in
  totalWager (calculateEstimatedOutcomes (fst e) (snd e)).

(** The four node types that change the multiplier. *)
Definition isModifier (t : ProgressionType) : bool :=
  match t with
  | double | triple | add_unit | subtract_unit => true
  | _ => false
  end.

(** The change each of them stands for. *)
Definition modified (t : ProgressionType) (m : Z) : Z :=
  match t with
  | double => m * 2
  | triple => m * 3
  | add_unit => m + 1
  | subtract_unit => Z.max 1 (m - 1)
  | _ => m
  end.

(** The wager the engine's next single spin places from cursor [c]. *)
Definition nextWager (E : RunInput) (c : Cursor) : list PlacedBet :=
  fst (capToTableMax E (scaleBets (currentBaseBets c) (currentMultiplier c))).

(** ** Strategies made of menu nodes *)

(** A sub-tree as the action menu leaves it: every node has the empty bets
    list it was created with and no post-wait action, and none is a
    martingale or repeat-until node. *)
Fixpoint menuMade (n : StrategyNode) : Prop :=
  match n with
  | mkNode _ ty bs _ _ pw _ _ _ _ w l =>
      bs = Some [] /\ pw = None /\ ty <> martingale /\ ty <> repeat_until
      /\ match w with Sub m => menuMade m | _ => True end
      /\ match l with Sub m => menuMade m | _ => True end
  end.

(** A strategy whose root holds the wagers and whose other nodes are all
    menu-made. *)
Definition menuStrategy (root : StrategyNode) : Prop :=
  node_bets root <> None /\ postWaitAction root = None
  /\ node_type root <> martingale /\ node_type root <> repeat_until
  /\ match children_win root with Sub m => menuMade m | _ => True end
  /\ match children_loss root with Sub m => menuMade m | _ => True end.

(** The traversal state such a strategy never leaves. *)
Definition atRootWager (E : RunInput) (c : Cursor) : Prop :=
  currentBaseBets c = betsOrEmpty (rootNode (strategy E))
  /\ currentMultiplier c = 1
  /\ (currentNode c = rootNode (strategy E) \/ menuMade (currentNode c)).

(** The root's wagers as a spin places them. *)
Definition rootWager (E : RunInput) : list PlacedBet :=
  fst (capToTableMax E (betsOrEmpty (rootNode (strategy E)))).

Definition waitOrRootWager (E : RunInput) (s : SimulationStep) : Prop :=
  isWaitAction (actionType s) = true \/ bets s = rootWager E.

(** 10 on 17 at the root, a menu-made double node after a loss and a
    menu-made triple node after that one; the wheel always shows 0. *)
Definition menuInput : RunInput :=
  {| initialBankroll := 100;
     strategy :=
       {| rootNode :=
            plainNode "root" start_immediately (Some [straight17 10]) NoChild
              (Sub {| node_id := "d"; node_type := double; node_bets := Some [];
                      value := None; condition := None; postWaitAction := None;
                      martingaleLimitType := None; martingaleLimitValue := None;
                      repeatUntilType := None; repeatUntilValue := None;
                      children_win := NoChild;
                      children_loss := Sub (createdNode "t" triple) |});
          stopLoss := 0; takeProfit := 2000 |};
     config := {| maxSpins := 3; tableMin := 3; tableMax := 1000 |};
     rng := fun _ => 0;
     floorScaled := exactFloorScaled |}.

Definition menuSteps : list SimulationStep :=
  Eval vm_compute in ledgerOf (runSimulation menuInput 10).

Definition menuStats : SimulationStats :=
  Eval vm_compute in
    match statsOf (runSimulation menuInput 10) with
    | Some s => s
    | None => finalStats menuInput (initialState menuInput)
    end.

Definition menuStep2 : SimulationStep :=
  Eval vm_compute in nth 1 menuSteps (mkStep 0 (generateSpin 0) [] [] 0 0 0 0 false NO_BET).

(** A menu-made wait node: two spins, then double. *)
Definition waitTwoThenDouble : StrategyNode :=
  {| node_id := "w"; node_type := wait_spins; node_bets := Some [];
     value := Some 2; condition := None; postWaitAction := Some double;
     martingaleLimitType := None; martingaleLimitValue := None;
     repeatUntilType := None; repeatUntilValue := None;
     children_win := NoChild; children_loss := NoChild |}.

(** * Properties *)

(** ** Bet resolver *)

Lemma calculateDetailedOutcomes_fold (res : SpinResult) (bs : list PlacedBet)
    (acc : Z * list BetOutcome) :
  fold_left
    (fun acc bet =>
       let o := betOutcome res bet in (fst acc + o_payout o, snd acc ++ [o]))
    bs acc
  = (fst acc + fold_right (fun b s => o_payout (betOutcome res b) + s) 0 bs,
     snd acc ++ map (betOutcome res) bs).
Proof.
  revert acc; induction bs as [|b bs IH]; intros [tp outs]; simpl.
  - now rewrite Z.add_0_r, app_nil_r.
  - rewrite IH; simpl. f_equal; [lia|].
    now rewrite <- app_assoc.
Qed.

Lemma calculateDetailedOutcomes_map (res : SpinResult) (bs : list PlacedBet) :
  calculateDetailedOutcomes bs res
  = (fold_right (fun b s => o_payout (betOutcome res b) + s) 0 bs,
     map (betOutcome res) bs).
Proof.
  unfold calculateDetailedOutcomes. now rewrite calculateDetailedOutcomes_fold.
Qed.

Lemma betOutcome_entry (res : SpinResult) (bet : PlacedBet) :
  betOutcome res bet
  = {| o_bet := bet;
       o_won := isWin (number res) bet;
       o_payout :=
         if isWin (number res) bet
         then amount bet + amount bet * payoutMultiplier (bet_type bet)
         else 0;
       o_net :=
         if isWin (number res) bet
         then amount bet * payoutMultiplier (bet_type bet)
         else - amount bet |}.
Proof.
  unfold betOutcome. destruct (isWin (number res) bet); f_equal; lia.
Qed.

(** C1. For every list of placed wagers and every outcome the resolver
    returns one entry per wager, in order: the wager itself, whether it
    won, its gross payout, which is stake + stake * ratio on a win and 0 on
    a loss, and its net, which is stake * ratio on a win and minus the stake
    on a loss; the total it returns is the sum of the gross payouts.  The
    ratios are 35, 17, 11, 8, 6, 5, 2, 2, 1, 1, 1, all arithmetic is on
    integers, and a 5 STRAIGHT on 17 pays 180 (net +175) when 17 is spun
    and nets -5 on a miss. *)
Theorem C1_resolver_payout :
  (forall (res : SpinResult) (bs : list PlacedBet),
      calculateDetailedOutcomes bs res
      = (fold_right
           (fun bet total =>
              (if isWin (number res) bet
               then amount bet + amount bet * payoutMultiplier (bet_type bet)
               else 0) + total)
           0 bs,
         map (fun bet =>
                {| o_bet := bet;
                   o_won := isWin (number res) bet;
                   o_payout :=
                     if isWin (number res) bet
                     then amount bet + amount bet * payoutMultiplier (bet_type bet)
                     else 0;
                   o_net :=
                     if isWin (number res) bet
                     then amount bet * payoutMultiplier (bet_type bet)
                     else - amount bet |})
             bs))
  /\ (forall (res : SpinResult) (bet : PlacedBet),
        calculateDetailedOutcomes [bet] res
        = (o_payout (betOutcome res bet), [betOutcome res bet])
        /\ o_won (betOutcome res bet) = isWin (number res) bet
        /\ o_payout (betOutcome res bet)
           = (if isWin (number res) bet
              then amount bet + amount bet * payoutMultiplier (bet_type bet)
              else 0)
        /\ o_net (betOutcome res bet)
           = (if isWin (number res) bet
              then amount bet * payoutMultiplier (bet_type bet)
              else - amount bet))
  /\ map payoutMultiplier
       [STRAIGHT; SPLIT; STREET; CORNER; BASKET; LINE; COLUMN; DOZEN;
        RED_BLACK; EVEN_ODD; HIGH_LOW]
     = [35; 17; 11; 8; 6; 5; 2; 2; 1; 1; 1]
  /\ calculateDetailedOutcomes [straight17 5] (generateSpin 17)
     = (180, [ {| o_bet := straight17 5; o_won := true;
                  o_payout := 180; o_net := 175 |} ])
  /\ calculateDetailedOutcomes [straight17 5] (generateSpin 18)
     = (0, [ {| o_bet := straight17 5; o_won := false;
                o_payout := 0; o_net := -5 |} ]).
Proof.
  split; [|split; [|repeat split; reflexivity]].
  - intros res bs. rewrite calculateDetailedOutcomes_map. apply f_equal2.
    + induction bs as [|b bs IH]; cbn [fold_right]; [reflexivity|].
      rewrite IH, betOutcome_entry. reflexivity.
    + apply map_ext. intros bet. apply betOutcome_entry.
  - intros res bet. rewrite calculateDetailedOutcomes_map. simpl.
    rewrite Z.add_0_r. repeat split.
    destruct (isWin (number res) bet); lia.
Qed.

(** C7 fails for DOZEN: a dozen wager whose explicit number set contains the
    outcome still loses, because DOZEN is resolved from the label alone. *)
Lemma C7_dozen_ignores_numbers :
  bet_type dozenUnlabelled = DOZEN
  /\ isZeroOrDoubleZero (Num 5) = false
  /\ numbers dozenUnlabelled <> []
  /\ includes (numbers dozenUnlabelled) (getResultValue (Num 5)) = true
  /\ isWin (Num 5) dozenUnlabelled = false.
Proof. repeat split; try reflexivity. discriminate. Qed.

(** C7 (amended). A DOZEN or COLUMN wager loses on 0 and double-zero.
    Otherwise a COLUMN wager with a non-empty number set wins exactly when
    the normalized outcome is in the set and, with an empty set, follows the
    modulo-3 rule of its label; a DOZEN wager is decided by the range named
    by its label, whatever its number set holds. *)
Theorem C7_dozen_column (p : Pocket) (bet : PlacedBet)
    (Hty : bet_type bet = DOZEN \/ bet_type bet = COLUMN) :
  isWin p bet
  = if isZeroOrDoubleZero p then false
    else match bet_type bet with
         | DOZEN => dozenByLabel bet (getResultValue p)
         | _ =>
             match numbers bet with
             | [] => columnByModulo bet (getResultValue p)
             | _ :: _ => includes (numbers bet) (getResultValue p)
             end
         end.
Proof.
  unfold isWin, isZeroOrDoubleZero, dozenByLabel, columnByModulo.
  destruct Hty as [-> | ->]; [reflexivity|].
  destruct ((getResultValue p =? 0) || (getResultValue p =? 37)); [reflexivity|].
  destruct (numbers bet) as [|x l]; [reflexivity|].
  replace (Z.of_nat (List.length (x :: l)) >? 0) with true; [reflexivity|].
  symmetry; apply Z.gtb_lt; simpl List.length; lia.
Qed.

Lemma C7_dozen_column_witness :
  isWin (Num 9) columnTop = true /\ isWin DoubleZero columnTop = false.
Proof.
  split.
  - rewrite (C7_dozen_column (Num 9) columnTop (or_intror eq_refl)). reflexivity.
  - rewrite (C7_dozen_column DoubleZero columnTop (or_intror eq_refl)). reflexivity.
Defined.

(** ** The simulation loop as a sequence of [recordStep] calls *)

Section ReachFacts.

Variable E : RunInput.

Lemma reach_trans (a b c : RunState) :
  reach E a b -> reach E b c -> reach E a c.
Proof.
  intros Hab Hbc; induction Hbc.
  - exact Hab.
  - econstructor; eauto.
Qed.

Lemma reach_one (st : RunState) (bs : list PlacedBet) (a : ActionType) (w : bool) :
  callSite E st bs a w ->
  reach E st (snd (recordStep E st (draw E st) bs a w)).
Proof. intros H; eapply reach_step; [apply reach_refl | exact H]. Qed.

Lemma waitSpins_reach (n : nat) : forall st, reach E st (waitSpins E n st).
Proof.
  induction n as [|n IH]; intros st; cbn [waitSpins].
  - apply reach_refl.
  - eapply reach_trans; [|apply IH].
    apply reach_one. now constructor.
Qed.

Lemma waitCondition_reach (k : nat) (cond : string) :
  forall st, reach E st (waitCondition E k cond st).
Proof.
  induction k as [|k IH]; intros st; cbn [waitCondition].
  - apply reach_refl.
  - set (st1 := snd (recordStep E st (draw E st) [] (WAITING_FOR (toUpperCase cond)) true)).
    assert (H1 : reach E st st1) by (apply reach_one; now constructor).
    cbv zeta.
    match goal with |- reach _ _ (if ?b then _ else _) => destruct b end.
    + exact H1.
    + eapply reach_trans; [exact H1 | apply IH].
Qed.

Lemma preSimWait_reach (st : RunState) : reach E st (preSimWait E st).
Proof.
  unfold preSimWait.
  destruct (node_type (rootNode (strategy E)));
    destruct (truthyZ (value (rootNode (strategy E))));
    destruct (truthyString (condition (rootNode (strategy E))));
    try apply reach_refl; try apply waitSpins_reach; apply waitCondition_reach.
Qed.

Lemma martingaleLoop_reach (fuel : nat) (lt : MartingaleLimitType) (lv : Z)
    (base : list PlacedBet) (start : Z) :
  forall v st v' st',
    martingaleLoop E fuel lt lv base start v st = Ok (v', st') -> reach E st st'.
Proof.
  induction fuel as [|fuel IH]; intros v st v' st' H; cbn [martingaleLoop] in H;
    [discriminate|].
  destruct (martingaleActive v && (st_spinsConsumed st <? maxSpins (config E))
            && (st_bankroll st >? 0)) eqn:G.
  2:{ inversion H; subst; apply reach_refl. }
  apply andb_prop in G as [G G3]. apply andb_prop in G as [_ G2].
  apply Z.ltb_lt in G2. apply Z.gtb_lt in G3.
  cbv zeta in H.
  destruct ((sumAmounts (scaleBets base (mv_multiplier v)) >? tableMax (config E))
            || (sumAmounts (scaleBets base (mv_multiplier v)) >? st_bankroll st)) eqn:T.
  { inversion H; subst; apply reach_refl. }
  apply orb_false_elim in T as [_ T2].
  assert (Hc : callSite E st (scaleBets base (mv_multiplier v))
                 (MARTINGALE_x (mv_multiplier v)) false).
  { constructor; try lia; rewrite Z.gtb_ltb in T2; apply Z.ltb_ge in T2; lia. }
  pose proof (reach_one _ _ _ _ Hc) as H1.
  destruct (negb (fst (recordStep E st (draw E st) (scaleBets base (mv_multiplier v))
                         (MARTINGALE_x (mv_multiplier v)) false))).
  { inversion H; subst; exact H1. }
  destruct (lastStep _); [|discriminate].
  match type of H with (if ?b then _ else _) = _ => destruct b end.
  - inversion H; subst; exact H1.
  - eapply reach_trans; [exact H1 | eapply IH; exact H].
Qed.

Lemma sumAmounts_capToTableMax (l : list PlacedBet) :
  snd (capToTableMax E l) = sumAmounts (fst (capToTableMax E l)).
Proof.
  unfold capToTableMax. cbv zeta.
  destruct (sumAmounts l >? tableMax (config E)); reflexivity.
Qed.

Lemma repeatLoop_reach (fuel : nat) (rt : RepeatUntilType) (rv : Z)
    (base : list PlacedBet) (m start : Z) :
  forall v st v' st',
    repeatLoop E fuel rt rv base m start v st = Ok (v', st') -> reach E st st'.
Proof.
  induction fuel as [|fuel IH]; intros v st v' st' H; cbn [repeatLoop] in H;
    [discriminate|].
  destruct (loopActive v && (st_spinsConsumed st <? maxSpins (config E))
            && (st_bankroll st >? 0)) eqn:G.
  2:{ inversion H; subst; apply reach_refl. }
  apply andb_prop in G as [G G3]. apply andb_prop in G as [_ G2].
  apply Z.ltb_lt in G2. apply Z.gtb_lt in G3.
  cbv zeta in H.
  destruct (snd (capToTableMax E (scaleBets base m)) >? st_bankroll st) eqn:T.
  { inversion H; subst; apply reach_refl. }
  assert (Hc : callSite E st (fst (capToTableMax E (scaleBets base m))) (REPEAT rt) false).
  { constructor; try lia; rewrite Z.gtb_ltb in T; apply Z.ltb_ge in T;
      rewrite <- sumAmounts_capToTableMax; lia. }
  pose proof (reach_one _ _ _ _ Hc) as H1.
  destruct (lastStep _); [|discriminate].
  eapply reach_trans; [exact H1 | eapply IH; exact H].
Qed.

Lemma leaveSpinNode_reach (next : Child StrategyNode) (c : Cursor) (st : RunState) :
  reach E st (snd (leaveSpinNode E next c st)).
Proof.
  unfold leaveSpinNode.
  destruct (resolveChild E next) as [n|]; [|apply reach_refl].
  destruct (node_type n); try apply reach_refl.
  cbn [snd]. destruct (truthyZ (value n)); [apply waitSpins_reach | apply reach_refl].
Qed.

Lemma mainLoop_reach (fuel : nat) :
  forall c st c' st',
    mainLoop E fuel c st = Ok (c', st') -> reach E st st'.
Proof.
  induction fuel as [|fuel IH]; intros c st c' st' H; cbn [mainLoop] in H;
    [discriminate|].
  destruct (negb (st_spinsConsumed st <? maxSpins (config E))) eqn:G1.
  { inversion H; subst; apply reach_refl. }
  apply negb_false_iff, Z.ltb_lt in G1.
  destruct (haltCondition E st) eqn:G2.
  { inversion H; subst; apply reach_refl. }
  assert (Hspin : forall
    (H : (let capped := capToTableMax E (scaleBets (currentBaseBets c) (currentMultiplier c)) in
          let activeBets := fst capped in
          let totalWager := snd capped in
          if totalWager >? st_bankroll st then Ok (c, st)
          else
            let res := draw E st in
            let r := recordStep E st res activeBets (spinAction activeBets st) false in
            match lastStep (st_steps (snd r)) with
            | None => TypeError
            | Some last =>
                let roundWin := won last in
                let next := if roundWin then children_win (currentNode c)
                            else children_loss (currentNode c) in
                let cs := leaveSpinNode E next c (snd r) in
                mainLoop E fuel (fst cs) (snd cs)
            end) = Ok (c', st')), reach E st st').
  { clear H. intros H. cbv zeta in H.
    destruct (snd (capToTableMax E (scaleBets (currentBaseBets c) (currentMultiplier c)))
              >? st_bankroll st) eqn:T.
    { inversion H; subst; apply reach_refl. }
    assert (Hc : callSite E st
                   (fst (capToTableMax E (scaleBets (currentBaseBets c) (currentMultiplier c))))
                   (spinAction (fst (capToTableMax E (scaleBets (currentBaseBets c)
                                                         (currentMultiplier c)))) st) false).
    { constructor; try assumption; rewrite Z.gtb_ltb in T; apply Z.ltb_ge in T;
        rewrite <- sumAmounts_capToTableMax; lia. }
    pose proof (reach_one _ _ _ _ Hc) as H1.
    destruct (lastStep _); [|discriminate].
    eapply reach_trans; [exact H1|].
    eapply reach_trans; [apply leaveSpinNode_reach | eapply IH; exact H]. }
  destruct (node_type (currentNode c)); try (apply Hspin; exact H); clear Hspin.
  - cbv zeta in H.
    destruct (martingaleLoop E fuel _ _ _ _ _ st) as [[v st1]| |] eqn:M;
      try discriminate.
    apply martingaleLoop_reach in M.
    eapply reach_trans; [exact M | eapply IH; exact H].
  - cbv zeta in H.
    destruct (repeatLoop E fuel _ _ _ _ _ _ st) as [[v st1]| |] eqn:M;
      try discriminate.
    apply repeatLoop_reach in M.
    eapply reach_trans; [exact M | eapply IH; exact H].
Qed.

Lemma runSimulation_reach (fuel : nat) (steps : list SimulationStep)
    (stats : SimulationStats) :
  runSimulation E fuel = Ok (steps, stats) ->
  exists st, reach E (initialState E) st
             /\ steps = st_steps st /\ stats = finalStats E st.
Proof.
  unfold runSimulation.
  destruct (mainLoop E fuel (initialCursor E) (preSimWait E (initialState E)))
    as [[c st]| |] eqn:M; try discriminate.
  intros H; inversion H; subst. exists st. repeat split.
  eapply reach_trans; [apply preSimWait_reach | eapply mainLoop_reach; exact M].
Qed.

End ReachFacts.

(** ** Ledger invariants *)

Lemma lastStep_snoc (l : list SimulationStep) (e : SimulationStep) :
  lastStep (l ++ [e]) = Some e.
Proof. unfold lastStep. now rewrite rev_app_distr. Qed.

Lemma lastBankroll_snoc (init : Z) (l : list SimulationStep) (e : SimulationStep) :
  lastBankroll init (l ++ [e]) = bankroll e.
Proof. unfold lastBankroll. now rewrite lastStep_snoc. Qed.

Lemma lastBankroll_cons (init : Z) (s : SimulationStep) (l : list SimulationStep) :
  lastBankroll init (s :: l) = lastBankroll (bankroll s) l.
Proof.
  unfold lastBankroll, lastStep. cbn [rev].
  destruct (rev l) as [|x r] eqn:R; reflexivity.
Qed.

Lemma chain_snoc (P : Z -> SimulationStep -> Prop) (l : list SimulationStep) :
  forall (init : Z) (e : SimulationStep),
    chain P init l -> P (lastBankroll init l) e -> chain P init (l ++ [e]).
Proof.
  induction l as [|s l IH]; intros init e Hc Hp; cbn [app chain] in *.
  - split; [exact Hp | exact I].
  - destruct Hc as [Hs Hc]. split; [exact Hs|].
    apply IH; [exact Hc|]. rewrite lastBankroll_cons in Hp. exact Hp.
Qed.

Lemma chain_nth (P : Z -> SimulationStep -> Prop) (l : list SimulationStep) :
  forall (init : Z) (i : nat) (s : SimulationStep),
    chain P init l -> nth_error l i = Some s -> P (bankrollBefore init l i) s.
Proof.
  induction l as [|s0 l IH]; intros init i s Hc Hn.
  - destruct i; discriminate.
  - destruct Hc as [H0 Hc]. destruct i as [|j]; cbn in Hn.
    + inversion Hn; subst. exact H0.
    + specialize (IH (bankroll s0) j s Hc Hn).
      destruct j as [|k]; [exact IH|].
      assert (Hlt : (S k < List.length l)%nat)
        by (apply nth_error_Some; rewrite Hn; discriminate).
      cbn [bankrollBefore nth_error] in *.
      destruct (nth_error l k) eqn:Hk; [exact IH|].
      exfalso. apply nth_error_None in Hk. lia.
Qed.

Section LedgerFacts.

Variable E : RunInput.

Lemma spinAction_kind (bs : list PlacedBet) (st : RunState) :
  isWaitAction (spinAction bs st) = false /\ isSpinAction (spinAction bs st) = true.
Proof.
  unfold spinAction.
  destruct (Z.of_nat (List.length bs) >? 0);
    [destruct (Z.of_nat (List.length (st_steps st)) =? 0)|]; split; reflexivity.
Qed.

Lemma haltCondition_false (st : RunState) :
  haltCondition E st = false ->
  stopLoss (strategy E) < st_bankroll st
  /\ (0 < takeProfit (strategy E) -> st_bankroll st < takeProfit (strategy E))
  /\ 0 < st_bankroll st.
Proof.
  unfold haltCondition. intros H.
  apply orb_false_elim in H as [H H3]. apply orb_false_elim in H as [H1 H2].
  apply Z.leb_gt in H1, H3. repeat split; try assumption.
  intros Htp. apply andb_false_iff in H2 as [H2|H2].
  - rewrite Z.gtb_ltb in H2. apply Z.ltb_ge in H2. lia.
  - rewrite Z.geb_leb in H2. apply Z.leb_gt in H2. lia.
Qed.

Lemma callSite_affordable (st : RunState) (bs : list PlacedBet)
    (a : ActionType) (w : bool) :
  callSite E st bs a w ->
  negb w && (sumAmounts bs >? st_bankroll st) = false.
Proof.
  intros H; inversion H; subst; cbn [negb andb]; try reflexivity;
    rewrite Z.gtb_ltb; apply Z.ltb_ge; assumption.
Qed.

(** A call of [recordStep] made by the run appends exactly one entry. *)
Lemma recordStep_entry (st : RunState) (bs : list PlacedBet)
    (a : ActionType) (w : bool) :
  callSite E st bs a w ->
  exists e,
    recordStep E st (draw E st) bs a w
    = (true, snd (recordStep E st (draw E st) bs a w))
    /\ st_steps (snd (recordStep E st (draw E st) bs a w)) = st_steps st ++ [e]
    /\ st_bankroll (snd (recordStep E st (draw E st) bs a w)) = bankroll e
    /\ st_spinsConsumed (snd (recordStep E st (draw E st) bs a w))
       = st_spinsConsumed st + 1
    /\ actionType e = a
    /\ spinIndex e = st_spinsConsumed st + 1
    /\ result e = draw E st
    /\ bets e = bs
    /\ betTotal e = sumAmounts bs
    /\ won e = (net e >? 0)
    /\ stepOK E (st_bankroll st) e.
Proof.
  intros Hc. pose proof (callSite_affordable _ _ _ _ Hc) as Ha.
  unfold recordStep. cbv zeta. rewrite Ha. cbn [fst snd].
  eexists. repeat (split; [reflexivity|]).
  unfold stepOK; cbn [bankroll net betTotal spinIndex actionType bets].
  inversion Hc; subst.
  - cbn [fst sumAmounts fold_left]. repeat split; try lia; try congruence.
    all: destruct a; discriminate.
  - repeat split; try discriminate; try lia.
  - repeat split; try discriminate; try lia.
  - destruct (spinAction_kind bs st) as [Hw Hs].
    destruct (haltCondition_false _ H0) as (H3 & H4 & H5).
    repeat split; try congruence; try lia; try assumption.
Qed.

Lemma reach_ledgerInv (st st' : RunState) :
  reach E st st' -> ledgerInv E st -> ledgerInv E st'.
Proof.
  induction 1 as [|st st' bs a w Hr IH Hc]; intros Hi; [exact Hi|].
  specialize (IH Hi). destruct IH as [Hch Hb].
  destruct (recordStep_entry _ _ _ _ Hc)
    as (e & _ & Hs & Hbk & _ & _ & _ & _ & _ & _ & _ & Hok).
  unfold ledgerInv. rewrite Hs, Hbk, lastBankroll_snoc. split; [|reflexivity].
  apply chain_snoc; [exact Hch|]. now rewrite <- Hb.
Qed.

Lemma run_ledger_chain (fuel : nat) (steps : list SimulationStep)
    (stats : SimulationStats) :
  runSimulation E fuel = Ok (steps, stats) ->
  chain (stepOK E) (initialBankroll E) steps
  /\ finalBankroll stats = lastBankroll (initialBankroll E) steps.
Proof.
  intros H. apply runSimulation_reach in H as (st & Hr & -> & ->).
  apply reach_ledgerInv in Hr.
  - exact Hr.
  - split; [exact I | reflexivity].
Qed.

End LedgerFacts.

(** C2. In every ledger returned by [runSimulation], each entry's bankroll
    is the bankroll of the entry before it (the initial bankroll for the
    first entry) plus the entry's net; wait entries are ledger entries like
    the others. *)
Theorem C2_ledger_bankroll (E : RunInput) (fuel : nat)
    (steps : list SimulationStep) (stats : SimulationStats)
    (Hrun : runSimulation E fuel = Ok (steps, stats))
    (i : nat) (s : SimulationStep) (Hi : nth_error steps i = Some s) :
  bankroll s = bankrollBefore (initialBankroll E) steps i + net s.
Proof.
  destruct (run_ledger_chain E fuel steps stats Hrun) as [Hch _].
  exact (proj1 (chain_nth _ _ _ _ _ Hch Hi)).
Qed.

Lemma C2_ledger_bankroll_witness :
  runSimulation demoInput 20 = Ok (demoSteps, demoStats)
  /\ nth_error demoSteps 2 = Some demoStep3
  /\ isWaitAction (actionType demoStep3) = false
  /\ bankroll demoStep3
     = bankrollBefore (initialBankroll demoInput) demoSteps 2 + net demoStep3.
Proof.
  split; [vm_compute; reflexivity|].
  split; [reflexivity|].
  split; [reflexivity|].
  apply (C2_ledger_bankroll demoInput 20 demoSteps demoStats);
    vm_compute; reflexivity.
Defined.




(** ** Runs that never enter the betting loop *)

Section IdleFacts.

Variable E : RunInput.

Lemma recordStep_wait_idle (st : RunState) (res : SpinResult) (a : ActionType) :
  isWaitAction a = true -> idleState E st ->
  idleState E (snd (recordStep E st res [] a true)).
Proof.
  intros Ha (Hb & Hs & Hn & Hrest).
  unfold recordStep, idleState. cbn.
  rewrite Z.add_0_r. repeat split; try tauto; try lia.
  apply Forall_app; split; [exact Hs|].
  constructor; [|constructor].
  unfold idleEntry; cbn. repeat split; try assumption; lia.
Qed.

Lemma waitSpins_idle (n : nat) :
  forall st, idleState E st -> idleState E (waitSpins E n st).
Proof.
  induction n as [|n IH]; intros st H; cbn [waitSpins]; [exact H|].
  apply IH, recordStep_wait_idle; [reflexivity | exact H].
Qed.

Lemma waitCondition_idle (k : nat) (cond : string) :
  forall st, idleState E st -> idleState E (waitCondition E k cond st).
Proof.
  induction k as [|k IH]; intros st H; cbn [waitCondition]; [exact H|].
  cbv zeta.
  pose proof (recordStep_wait_idle st (draw E st) (WAITING_FOR (toUpperCase cond))
                eq_refl H) as H1.
  match goal with |- idleState _ (if ?b then _ else _) => destruct b end;
    [exact H1 | apply IH, H1].
Qed.

Lemma initialState_idle : idleState E (initialState E).
Proof. unfold idleState, initialState; cbn. repeat split; try lia. constructor. Qed.

Lemma preSimWait_idle : idleState E (preSimWait E (initialState E)).
Proof.
  unfold preSimWait.
  destruct (node_type (rootNode (strategy E)));
    destruct (truthyZ (value (rootNode (strategy E))));
    destruct (truthyString (condition (rootNode (strategy E))));
    first [ apply initialState_idle
          | apply waitSpins_idle, initialState_idle
          | apply waitCondition_idle, initialState_idle ].
Qed.

Lemma preSimWait_none :
  preSimWaits (rootNode (strategy E)) = false ->
  preSimWait E (initialState E) = initialState E.
Proof.
  unfold preSimWaits, preSimWait.
  destruct (node_type (rootNode (strategy E))); try reflexivity.
  - destruct (truthyZ (value (rootNode (strategy E)))) as [v|]; [|reflexivity].
    intros H. apply Z.ltb_ge in H.
    destruct v; try lia; reflexivity.
  - destruct (truthyZ (value (rootNode (strategy E))));
      destruct (truthyString (condition (rootNode (strategy E))));
      try reflexivity; discriminate.
Qed.

End IdleFacts.

Lemma roiOf_same (i : Z) : (roiOf i i == 0)%Q.
Proof.
  unfold roiOf. destruct (i >? 0); [|reflexivity].
  rewrite Z.sub_diag. unfold Qdiv. change (inject_Z 0) with 0%Q. ring.
Qed.

(** C6 fails on a waiting root: with a spin budget of zero the two
    pre-simulation wait spins are still drawn and recorded. *)
Lemma C6_wait_root_fills_ledger :
  maxSpins (config waitInput) = 0
  /\ map (fun s => (spinIndex s, actionType s, net s, bankroll s))
       (ledgerOf (runSimulation waitInput 1))
     = [(1, WAITING, 0, 100); (2, WAITING, 0, 100)]
  /\ option_map totalSpins (statsOf (runSimulation waitInput 1)) = Some 2.
Proof. repeat split; vm_compute; reflexivity. Qed.

(** C6 (amended). With [maxSpins = 0], or with a stop-loss at or above the
    initial bankroll, [runSimulation] returns without placing a wager: the
    ledger holds only the wait entries of the pre-simulation wait phase
    (zero wager, net 0, bankroll unchanged), it is empty when the root is
    not a wait node that draws spins, and the statistics report the initial
    bankroll as final bankroll, no win, no loss, zero extrema and ROI 0,
    [totalSpins] counting the wait entries. *)
Theorem C6_no_betting_run (E : RunInput) (fuel : nat)
    (Hidle : maxSpins (config E) = 0
             \/ initialBankroll E <= stopLoss (strategy E)) :
  exists steps stats,
    runSimulation E (S fuel) = Ok (steps, stats)
    /\ Forall (idleEntry (initialBankroll E)) steps
    /\ (preSimWaits (rootNode (strategy E)) = false -> steps = [])
    /\ finalBankroll stats = initialBankroll E
    /\ totalSpins stats = Z.of_nat (List.length steps)
    /\ wins stats = 0 /\ losses stats = 0
    /\ maxDrawdown stats = 0 /\ maxUpside stats = 0
    /\ (roi stats == 0)%Q.
Proof.
  pose proof (preSimWait_idle E) as Hi.
  set (w := preSimWait E (initialState E)) in *.
  exists (st_steps w), (finalStats E w).
  destruct Hi as (Hb & Hs & Hn & Hw & Hl & Hd & Hu & _).
  assert (Hrun : mainLoop E (S fuel) (initialCursor E) w = Ok (initialCursor E, w)).
  { cbn [mainLoop].
    destruct (negb (st_spinsConsumed w <? maxSpins (config E))) eqn:G; [reflexivity|].
    apply negb_false_iff, Z.ltb_lt in G.
    destruct Hidle as [H0|Hsl]; [lia|].
    unfold haltCondition.
    replace (st_bankroll w <=? stopLoss (strategy E)) with true; [reflexivity|].
    symmetry; apply Z.leb_le; lia. }
  unfold runSimulation. fold w. rewrite Hrun.
  split; [reflexivity|]. split; [exact Hs|].
  split. { intros Hp. unfold w. now rewrite (preSimWait_none E Hp). }
  cbn. repeat split; try assumption.
  rewrite Hb. apply roiOf_same.
Qed.

Lemma C6_no_betting_run_witness :
  maxSpins (config waitInput) = 0
  /\ exists steps stats,
       runSimulation waitInput 1 = Ok (steps, stats)
       /\ finalBankroll stats = 100
       /\ wins stats = 0 /\ losses stats = 0.
Proof.
  split; [reflexivity|].
  destruct (C6_no_betting_run waitInput 0 (or_introl eq_refl))
    as (steps & stats & Hrun & _ & _ & Hf & _ & Hw & Hl & _).
  exists steps, stats. repeat split; assumption.
Defined.

(** ** A self-looping martingale root that never halts *)

Lemma stall_first_visit (f : nat) :
  martingaleLoop stallInput (S (S f)) until_bankrupt 0 [straight17 10] 15
    {| martingaleActive := true; martingaleStepCount := 0; mv_multiplier := 1 |}
    (initialState stallInput)
  = Ok ({| martingaleActive := false; martingaleStepCount := 1; mv_multiplier := 2 |},
        stallState).
Proof. reflexivity. Qed.

Lemma stall_forever (f : nat) :
  mainLoop stallInput f (initialCursor stallInput) stallState = OutOfFuel.
Proof.
  induction f as [|f IH]; [reflexivity|].
  destruct f as [|f']; [reflexivity|].
  exact IH.
Qed.

(** C3 (code defect). The root below is a martingale whose [onWin] child is
    the root itself.  After one losing spin the bankroll (5) no longer
    covers the base wager (10); no halt condition holds (bankroll above 0
    and above the stop-loss, take-profit not reached, 1 of 50 spins used),
    yet every further visit of the martingale leaves its inner loop without
    drawing a spin and re-enters the root: the run returns for no amount of
    fuel. *)
Theorem C3_self_loop_martingale_stalls :
  children_win (rootNode (strategy stallInput)) = RootRef
  /\ haltCondition stallInput stallState = false
  /\ st_spinsConsumed stallState < maxSpins (config stallInput)
  /\ forall fuel : nat, runSimulation stallInput fuel = OutOfFuel.
Proof.
  repeat split.
  intros [|[|[|f]]]; try reflexivity.
  unfold runSimulation.
  replace (mainLoop stallInput (S (S (S f))) (initialCursor stallInput)
             (preSimWait stallInput (initialState stallInput)))
    with (mainLoop stallInput (S (S f)) (initialCursor stallInput) stallState)
    by reflexivity.
  now rewrite stall_forever.
Qed.

(** ** Engine statistics and playback statistics *)

Section StatsFacts.

Variable E : RunInput.

Lemma callSite_wait_flag (st : RunState) (bs : list PlacedBet)
    (a : ActionType) (w : bool) :
  callSite E st bs a w -> isWaitAction a = w.
Proof.
  intros H; inversion H; subst; try reflexivity; try assumption.
  apply spinAction_kind.
Qed.

Lemma recordStep_engineStep (st : RunState) (bs : list PlacedBet)
    (a : ActionType) (w : bool) :
  callSite E st bs a w ->
  exists e,
    st_steps (snd (recordStep E st (draw E st) bs a w)) = st_steps st ++ [e]
    /\ accOf (snd (recordStep E st (draw E st) bs a w))
       = engineStep (initialBankroll E) (accOf st) e.
Proof.
  intros Hc. pose proof (callSite_affordable E _ _ _ _ Hc) as Ha.
  pose proof (callSite_wait_flag _ _ _ _ Hc) as Hw.
  unfold recordStep. cbv zeta. rewrite Ha. cbn [fst snd].
  eexists. split; [reflexivity|].
  unfold engineStep, accOf; cbn. rewrite Hw. reflexivity.
Qed.

Lemma reach_engine_fold (st st' : RunState) :
  reach E st st' ->
  accOf st = fold_left (engineStep (initialBankroll E)) (st_steps st)
               (emptyAcc (initialBankroll E)) ->
  accOf st' = fold_left (engineStep (initialBankroll E)) (st_steps st')
                (emptyAcc (initialBankroll E)).
Proof.
  induction 1 as [|st st' bs a w Hr IH Hc]; intros Hi; [exact Hi|].
  specialize (IH Hi).
  destruct (recordStep_engineStep _ _ _ _ Hc) as (e & Hs & Ha).
  rewrite Hs, Ha, fold_left_app, <- IH. reflexivity.
Qed.

(** The statistics a run returns are the engine fold of its ledger. *)
Lemma run_stats_engine_fold (fuel : nat) (steps : list SimulationStep)
    (stats : SimulationStats) :
  runSimulation E fuel = Ok (steps, stats) ->
  stats = engineStats (initialBankroll E) (config E) steps.
Proof.
  intros H. apply runSimulation_reach in H as (st & Hr & -> & ->).
  apply reach_engine_fold in Hr; [|reflexivity].
  unfold engineStats, accStats, finalStats. rewrite <- Hr. reflexivity.
Qed.

End StatsFacts.

(** On an entry that is a decided betting spin the two folds take the same
    step. *)
Lemma playbackStep_decided (initial : Z) (a : PlaybackAcc) (s : SimulationStep) :
  isWaitAction (actionType s) = false -> net s <> 0 -> won s = (net s >? 0) ->
  playbackStep initial a s = engineStep initial a s.
Proof.
  intros Hw Hn Hwon. unfold playbackStep, engineStep. rewrite Hw, Hwon.
  cbn [negb andb].
  destruct (net s >? 0) eqn:Hp; cbn [negb andb].
  - reflexivity.
  - assert (Hlt : (net s <? 0) = true).
    { apply Z.ltb_lt. rewrite Z.gtb_ltb in Hp. apply Z.ltb_ge in Hp. lia. }
    rewrite Hlt. reflexivity.
Qed.

Lemma playback_fold_decided (initial : Z) (l : list SimulationStep) :
  forall a,
    Forall (fun s => isWaitAction (actionType s) = false /\ net s <> 0
                     /\ won s = (net s >? 0)) l ->
    fold_left (playbackStep initial) l a = fold_left (engineStep initial) l a.
Proof.
  induction l as [|s l IH]; intros a H; [reflexivity|].
  inversion H as [|? ? (Hw & Hn & Hwon) Hl]; subst. cbn [fold_left].
  rewrite playbackStep_decided by assumption. now apply IH.
Qed.

(** On a proper prefix made of decided betting spins only, the playback
    statistics are the engine's. *)
Lemma displayedStats_decided_prefix (steps : list SimulationStep)
    (stats : SimulationStats) (k : nat) :
  (0 < k < List.length steps)%nat ->
  Forall (fun s => isWaitAction (actionType s) = false /\ net s <> 0
                   /\ won s = (net s >? 0)) (firstn k steps) ->
  displayedStats (Some (steps, stats)) k
  = Some (engineStats (s_initialBankroll stats) (s_config stats) (firstn k steps)).
Proof.
  intros [Hk Hl] Hd. unfold displayedStats.
  destruct (Nat.eqb_spec k 0) as [->|_]; [lia|].
  destruct (Nat.leb_spec (List.length steps) k) as [Hle|_]; [lia|].
  cbv zeta. unfold engineStats, accStats.
  rewrite <- (playback_fold_decided _ _ (emptyAcc (s_initialBankroll stats)) Hd).
  reflexivity.
Qed.

(** C5 (code defect). In the ledger of the demo run the first entry is a
    wait spin (net 0).  The engine, having recorded that entry alone, counts
    no loss and no loss streak; the playback fold over the same one-entry
    prefix reports one loss and a longest loss streak of 1.  The same
    happens on the prefix of length 2; on the full ledger the playback
    returns the engine's own statistics, so the displayed loss count drops
    back when the playback reaches the end. *)
Theorem C5_playback_counts_idle_entries_as_losses :
  runSimulation demoInput 20 = Ok (demoSteps, demoStats)
  /\ demoStats = engineStats (initialBankroll demoInput) (config demoInput) demoSteps
  /\ map (fun s => (actionType s, net s)) (firstn 1 demoSteps) = [(WAITING, 0)]
  /\ (let engine := engineStats (initialBankroll demoInput) (config demoInput)
                      (firstn 1 demoSteps) in
      (wins engine, losses engine, longestLossStreak engine) = (0, 0, 0))
  /\ option_map (fun d => (wins d, losses d, longestLossStreak d))
       (displayedStats (Some (demoSteps, demoStats)) 1) = Some (0, 1, 1)
  /\ option_map (fun d => (wins d, losses d, longestLossStreak d))
       (displayedStats (Some (demoSteps, demoStats)) 2) = Some (0, 2, 2)
  /\ option_map (fun d => (wins d, losses d, longestLossStreak d))
       (displayedStats (Some (demoSteps, demoStats)) (List.length demoSteps))
     = Some (1, 1, 1).
Proof.
  assert (Hrun : runSimulation demoInput 20 = Ok (demoSteps, demoStats))
    by (vm_compute; reflexivity).
  split; [exact Hrun|].
  split; [exact (run_stats_engine_fold demoInput 20 _ _ Hrun)|].
  repeat split; vm_compute; reflexivity.
Qed.

(** ** Wait nodes reached as children *)

(** Entering a [wait_condition] child draws no spin: the [switch] that
    follows a standard spin has a [wait_spins] case only. *)
Lemma leaveSpinNode_wait_condition (E : RunInput) (n : StrategyNode)
    (c : Cursor) (st : RunState) :
  node_type n = wait_condition ->
  leaveSpinNode E (Sub n) c st = (enterNode n c, st).
Proof.
  intros H. unfold leaveSpinNode. cbn [resolveChild]. rewrite H.
  unfold applyNodeModifier. cbn [currentNode].
  replace (currentNode (enterNode n c)) with n
    by (unfold enterNode; destruct (hasBets n); reflexivity).
  rewrite H. reflexivity.
Qed.

(** C8 (code defect). As a root, the wait-for-red node consumes wait spins
    (tagged WAITING_FOR_RED, zero wager) until red shows.  Reached as the
    loss child of the root, the same node consumes none: the cursor moves
    onto it without a draw, and the next spins (black 2, black 4) are
    ordinary wagers of 10 placed while no red has appeared. *)
Theorem C8_interior_wait_condition_does_not_wait :
  map (fun s => (spinIndex s, color (result s), actionType s, betTotal s))
    (ledgerOf (runSimulation rootWaitInput 20))
  = [(1, green, WAITING_FOR "RED", 0); (2, black, WAITING_FOR "RED", 0);
     (3, black, WAITING_FOR "RED", 0); (4, red, WAITING_FOR "RED", 0)]
  /\ (let st1 := snd (recordStep interiorWaitInput (initialState interiorWaitInput)
                        (draw interiorWaitInput (initialState interiorWaitInput))
                        [straight17 10] START false) in
      let after := leaveSpinNode interiorWaitInput
                     (children_loss (rootNode (strategy interiorWaitInput)))
                     (initialCursor interiorWaitInput) st1 in
      node_type (currentNode (fst after)) = wait_condition
      /\ condition (currentNode (fst after)) = Some "red"%string
      /\ st_spinsConsumed (snd after) = 1)
  /\ map (fun s => (spinIndex s, color (result s), actionType s, betTotal s))
       (ledgerOf (runSimulation interiorWaitInput 20))
     = [(1, green, START, 10); (2, black, BET, 10);
        (3, black, BET, 10); (4, red, BET, 10)]
  /\ existsb (fun s => isWaitAction (actionType s))
       (ledgerOf (runSimulation interiorWaitInput 20)) = false.
Proof. repeat split; vm_compute; reflexivity. Qed.

(** ** The spin-count martingale *)

Section MartingaleFacts.

Variable E : RunInput.

Lemma martingaleLoop_inactive (fuel : nat) (lt : MartingaleLimitType) (lv : Z)
    (base : list PlacedBet) (start : Z) (v : MartingaleVars) (st : RunState)
    (r : MartingaleVars * RunState) :
  martingaleActive v = false ->
  martingaleLoop E fuel lt lv base start v st = Ok r -> r = (v, st).
Proof.
  intros Hv. destruct fuel as [|fuel]; cbn [martingaleLoop]; [discriminate|].
  rewrite Hv. cbn [andb]. congruence.
Qed.

Lemma martingaleProgress_spin_count (limit : Z) (roundWin : bool)
    (profit cnt m : Z) :
  martingaleProgress spin_count limit roundWin profit cnt m
  = (cnt <? limit, if (cnt <? limit) && negb roundWin then m * 2 else m).
Proof.
  unfold martingaleProgress. rewrite Z.geb_leb.
  destruct (Z.leb_spec limit cnt), (Z.ltb_spec cnt limit); try lia;
    destruct roundWin; reflexivity.
Qed.

Lemma spin_count_visit_gen (limit : Z) (base : list PlacedBet) (start : Z)
    (fuel : nat) :
  forall v st v' st',
    martingaleLoop E fuel spin_count limit base start v st = Ok (v', st') ->
    martingaleActive v = true ->
    exists visit,
      st_steps st' = st_steps st ++ visit
      /\ Z.of_nat (List.length visit) <= Z.max 1 (limit - martingaleStepCount v)
      /\ spinCountVisit limit (mv_multiplier v) (martingaleStepCount v) visit
           (mv_multiplier v').
Proof.
  induction fuel as [|fuel IH]; intros v st v' st' H Hact;
    cbn [martingaleLoop] in H; [discriminate|].
  rewrite Hact in H. cbn [andb] in H.
  destruct ((st_spinsConsumed st <? maxSpins (config E)) && (st_bankroll st >? 0)) eqn:G.
  2:{ inversion H; subst. exists []. rewrite app_nil_r. cbn. repeat split; lia. }
  apply andb_prop in G as [G2 G3]. apply Z.ltb_lt in G2. apply Z.gtb_lt in G3.
  cbv zeta in H.
  destruct ((sumAmounts (scaleBets base (mv_multiplier v)) >? tableMax (config E))
            || (sumAmounts (scaleBets base (mv_multiplier v)) >? st_bankroll st)) eqn:T.
  { inversion H; subst. exists []. rewrite app_nil_r. cbn. repeat split; lia. }
  apply orb_false_elim in T as [_ T2].
  assert (Hc : callSite E st (scaleBets base (mv_multiplier v))
                 (MARTINGALE_x (mv_multiplier v)) false).
  { constructor; try lia; rewrite Z.gtb_ltb in T2; apply Z.ltb_ge in T2; lia. }
  destruct (recordStep_entry E _ _ _ _ Hc)
    as (e & Hr & Hs & _ & _ & Ha & _).
  rewrite Hr in H. cbn [fst snd negb] in H.
  rewrite Hs, lastStep_snoc in H.
  rewrite martingaleProgress_spin_count in H. cbn [fst snd] in H.
  set (m1 := if (martingaleStepCount v + 1 <? limit) && negb (won e)
             then mv_multiplier v * 2 else mv_multiplier v) in *.
  destruct (m1 >? 10000).
  { inversion H; subst. exists [e]. split; [exact Hs|].
    cbn. repeat split; try lia; assumption. }
  destruct (martingaleStepCount v + 1 <? limit) eqn:L.
  - apply Z.ltb_lt in L.
    apply IH in H; [|reflexivity].
    destruct H as (visit & Hv1 & Hv2 & Hv3). cbn in Hv2, Hv3.
    exists (e :: visit). split.
    { rewrite Hv1, Hs, <- app_assoc. reflexivity. }
    split.
    { cbn [List.length]. lia. }
    cbn [spinCountVisit]. split; [exact Ha|].
    assert (L' : (martingaleStepCount v + 1 <? limit) = true) by (apply Z.ltb_lt; lia).
    rewrite L'. exact Hv3.
  - apply martingaleLoop_inactive in H; [|reflexivity].
    inversion H; subst. exists [e]. split; [exact Hs|].
    cbn. rewrite L. repeat split; try lia; try assumption; reflexivity.
Qed.

(** A spin-count visit returns as soon as the fuel exceeds the number of
    spins it may still draw. *)
Lemma spin_count_visit_returns (limit : Z) (base : list PlacedBet) (start : Z)
    (fuel : nat) :
  forall v st,
    martingaleActive v = true ->
    Z.max 1 (limit - martingaleStepCount v) < Z.of_nat fuel ->
    exists r, martingaleLoop E fuel spin_count limit base start v st = Ok r.
Proof.
  induction fuel as [|fuel IH]; intros v st Hact Hf; [lia|].
  cbn [martingaleLoop]. rewrite Hact. cbn [andb].
  destruct ((st_spinsConsumed st <? maxSpins (config E)) && (st_bankroll st >? 0)) eqn:G;
    [|eexists; reflexivity].
  apply andb_prop in G as [G2 G3]. apply Z.ltb_lt in G2. apply Z.gtb_lt in G3.
  cbv zeta.
  destruct ((sumAmounts (scaleBets base (mv_multiplier v)) >? tableMax (config E))
            || (sumAmounts (scaleBets base (mv_multiplier v)) >? st_bankroll st)) eqn:T;
    [eexists; reflexivity|].
  apply orb_false_elim in T as [_ T2].
  assert (Hc : callSite E st (scaleBets base (mv_multiplier v))
                 (MARTINGALE_x (mv_multiplier v)) false).
  { constructor; try lia; rewrite Z.gtb_ltb in T2; apply Z.ltb_ge in T2; lia. }
  destruct (recordStep_entry E _ _ _ _ Hc) as (e & Hr & Hs & _).
  rewrite Hr. cbn [fst snd negb]. rewrite Hs, lastStep_snoc.
  rewrite martingaleProgress_spin_count. cbn [fst snd].
  match goal with |- exists r, (if ?b then _ else _) = _ => destruct b end;
    [eexists; reflexivity|].
  destruct (martingaleStepCount v + 1 <? limit) eqn:L.
  - apply Z.ltb_lt in L. apply IH; [reflexivity|]. cbn. lia.
  - destruct fuel as [|fuel']; [lia|].
    cbn [martingaleLoop martingaleActive andb]. eexists; reflexivity.
Qed.

Lemma leaveLoopNode_own_bets (next : Child StrategyNode) (n : StrategyNode)
    (c : Cursor) :
  resolveChild E next = Some n -> hasBets n = true ->
  currentMultiplier (leaveLoopNode E next c) = 1
  /\ (node_type n <> reset ->
      currentNode (leaveLoopNode E next c) = n
      /\ currentBaseBets (leaveLoopNode E next c) = betsOrEmpty n)
  /\ (node_type n = reset ->
      currentNode (leaveLoopNode E next c) = rootNode (strategy E)
      /\ currentBaseBets (leaveLoopNode E next c)
         = betsOrEmpty (rootNode (strategy E))).
Proof.
  intros Hn Hb. unfold leaveLoopNode. rewrite Hn.
  unfold enterNode. rewrite Hb. unfold applyNodeModifier.
  cbn [currentNode currentMultiplier].
  assert (Hnb : noBetsField n = false).
  { unfold hasBets in Hb. unfold noBetsField.
    destruct (node_bets n); [reflexivity | discriminate]. }
  rewrite Hnb.
  destruct (node_type n); cbn; repeat split; try reflexivity; try congruence;
    intros; discriminate.
Qed.

End MartingaleFacts.

(** C9 fails on the spin that reaches the limit: after three losing spins
    the multiplier is 4, not 8, and the same-bet node that follows wagers
    40. *)
Lemma C9_no_doubling_after_limit_spin :
  map (fun s => (actionType s, betTotal s, won s))
    (ledgerOf (runSimulation spinCountInput 20))
  = [(MARTINGALE_x 1, 10, false); (MARTINGALE_x 2, 20, false);
     (MARTINGALE_x 4, 40, false); (BET, 40, false)]
  /\ match martingaleLoop spinCountInput 20 spin_count 3 [straight17 10] 1000
             spinCountStart (initialState spinCountInput) with
     | Ok (v, _) => Some (martingaleStepCount v, mv_multiplier v)
     | _ => None
     end = Some (3, 4).
Proof. split; vm_compute; reflexivity. Qed.

(** C9 (amended). A visit of a martingale node limited to 3 spins returns
    (four loop iterations of fuel suffice) after drawing at most 3 spins,
    whatever the bankroll.  Each of them is made with the
    multiplier then in force; the multiplier is doubled after a losing spin
    unless that spin is the third, which ends the visit with the multiplier
    unchanged, and is never changed after a winning spin.  If the node
    entered next carries a non-empty wager list, the multiplier becomes 1
    and that list becomes the base wagers, except when that node is a reset
    node, which reloads the root and its wagers. *)
Theorem C9_spin_count_visit (E : RunInput) (fuel : nat) (base : list PlacedBet)
    (start m : Z) (st : RunState) (Hfuel : (4 <= fuel)%nat) :
  (exists v' st' visit,
      martingaleLoop E fuel spin_count 3 base start
        {| martingaleActive := true; martingaleStepCount := 0;
           mv_multiplier := m |} st
      = Ok (v', st')
      /\ st_steps st' = st_steps st ++ visit
      /\ (List.length visit <= 3)%nat
      /\ spinCountVisit 3 m 0 visit (mv_multiplier v'))
  /\ forall (next : Child StrategyNode) (n : StrategyNode) (c : Cursor),
      resolveChild E next = Some n -> hasBets n = true ->
      currentMultiplier (leaveLoopNode E next c) = 1
      /\ (node_type n <> reset ->
          currentNode (leaveLoopNode E next c) = n
          /\ currentBaseBets (leaveLoopNode E next c) = betsOrEmpty n)
      /\ (node_type n = reset ->
          currentNode (leaveLoopNode E next c) = rootNode (strategy E)
          /\ currentBaseBets (leaveLoopNode E next c)
             = betsOrEmpty (rootNode (strategy E))).
Proof.
  split.
  - destruct (spin_count_visit_returns E 3 base start fuel
                {| martingaleActive := true; martingaleStepCount := 0;
                   mv_multiplier := m |} st eq_refl) as [[v' st'] Hret].
    { cbn. lia. }
    destruct (spin_count_visit_gen E 3 base start fuel _ _ _ _ Hret eq_refl)
      as (visit & H1 & H2 & H3).
    exists v', st', visit. cbn in H2, H3. repeat split; try assumption. lia.
  - intros next n c. apply leaveLoopNode_own_bets.
Qed.

Lemma C9_spin_count_visit_witness :
  (4 <= 20)%nat
  /\ exists v' st' visit,
       martingaleLoop spinCountInput 20 spin_count 3 [straight17 10] 1000
         spinCountStart (initialState spinCountInput) = Ok (v', st')
       /\ st_steps st' = st_steps (initialState spinCountInput) ++ visit
       /\ (List.length visit <= 3)%nat
       /\ spinCountVisit 3 1 0 visit (mv_multiplier v').
Proof.
  split; [lia|].
  exact (proj1 (C9_spin_count_visit spinCountInput 20 [straight17 10] 1000 1
                  (initialState spinCountInput) ltac:(lia))).
Defined.

(** ** Spinning with an empty wager list *)

Lemma capToTableMax_nil (E : RunInput) : capToTableMax E [] = ([], 0).
Proof.
  unfold capToTableMax. cbn.
  destruct (0 >? tableMax (config E)); reflexivity.
Qed.

Lemma recordStep_no_bet (E : RunInput) (st : RunState) :
  0 < st_bankroll st ->
  fst (recordStep E st (draw E st) [] NO_BET false) = true
  /\ st_steps (snd (recordStep E st (draw E st) [] NO_BET false))
     = st_steps st ++ [noBetEntry E st]
  /\ st_bankroll (snd (recordStep E st (draw E st) [] NO_BET false)) = st_bankroll st
  /\ st_spinsConsumed (snd (recordStep E st (draw E st) [] NO_BET false))
     = st_spinsConsumed st + 1.
Proof.
  intros Hpos. unfold recordStep. cbn.
  assert (Hb : (0 >? st_bankroll st) = false)
    by (rewrite Z.gtb_ltb; apply Z.ltb_ge; lia).
  rewrite Hb. cbn. unfold noBetEntry. rewrite Z.add_0_r. repeat split.
Qed.

(** When a single-spin node executes with an empty base wager list
    (the head-of-loop tests having passed), the iteration raises no error:
    it draws a spin, appends exactly one entry with betTotal 0, payout 0,
    net 0, won = false and tag NO_BET, leaves the bankroll unchanged, and
    the run goes on from the loss child of the node. *)
Lemma empty_wager_iteration (E : RunInput) (fuel : nat) (c : Cursor)
    (st : RunState)
    (Hempty : currentBaseBets c = [])
    (Hkind : node_type (currentNode c) <> martingale
             /\ node_type (currentNode c) <> repeat_until)
    (Hbudget : st_spinsConsumed st < maxSpins (config E))
    (Hgo : haltCondition E st = false) :
  let st1 := snd (recordStep E st (draw E st) [] NO_BET false) in
  let next := leaveSpinNode E (children_loss (currentNode c)) c st1 in
  st_steps st1 = st_steps st ++ [noBetEntry E st]
  /\ st_bankroll st1 = st_bankroll st
  /\ st_spinsConsumed st1 = st_spinsConsumed st + 1
  /\ mainLoop E (S fuel) c st = mainLoop E fuel (fst next) (snd next).
Proof.
  destruct (haltCondition_false E st Hgo) as (_ & _ & Hpos).
  destruct (recordStep_no_bet E st Hpos) as (Hf & Hs & Hb & Hn).
  cbv zeta. repeat split; try assumption.
  cbn [mainLoop].
  assert (G : negb (st_spinsConsumed st <? maxSpins (config E)) = false)
    by (apply negb_false_iff, Z.ltb_lt; exact Hbudget).
  rewrite G, Hgo, Hempty. cbn [scaleBets map]. rewrite capToTableMax_nil.
  cbn [fst snd].
  assert (Hb0 : (0 >? st_bankroll st) = false)
    by (rewrite Z.gtb_ltb; apply Z.ltb_ge; lia).
  rewrite Hb0. change (spinAction [] st) with NO_BET.
  rewrite Hs, lastStep_snoc. cbn [won noBetEntry].
  destruct Hkind as [Hm Hr].
  destruct (node_type (currentNode c)); try reflexivity; congruence.
Qed.

(** The default strategy, run to the end: fifty NO_BET spins, the bankroll
    untouched. *)
Example default_strategy_run :
  List.length (ledgerOf (runSimulation defaultInput 60)) = 50%nat
  /\ forallb (fun s => isNoBet s && (bankroll s =? 1000) && (net s =? 0))
       (ledgerOf (runSimulation defaultInput 60)) = true
  /\ option_map finalBankroll (statsOf (runSimulation defaultInput 60)) = Some 1000.
Proof. repeat split; vm_compute; reflexivity. Qed.

(** ** The ledger is never empty where the code reads its last entry *)

Section NoTypeError.

Variable E : RunInput.

Lemma martingaleLoop_no_TypeError (fuel : nat) (lt : MartingaleLimitType) (lv : Z)
    (base : list PlacedBet) (start : Z) :
  forall v st, martingaleLoop E fuel lt lv base start v st <> TypeError.
Proof.
  induction fuel as [|fuel IH]; intros v st; cbn [martingaleLoop]; [discriminate|].
  destruct (martingaleActive v && (st_spinsConsumed st <? maxSpins (config E))
            && (st_bankroll st >? 0)) eqn:G; [|discriminate].
  apply andb_prop in G as [G G3]. apply andb_prop in G as [_ G2].
  apply Z.ltb_lt in G2. apply Z.gtb_lt in G3.
  cbv zeta.
  destruct ((sumAmounts (scaleBets base (mv_multiplier v)) >? tableMax (config E))
            || (sumAmounts (scaleBets base (mv_multiplier v)) >? st_bankroll st)) eqn:T;
    [discriminate|].
  apply orb_false_elim in T as [_ T2].
  assert (Hc : callSite E st (scaleBets base (mv_multiplier v))
                 (MARTINGALE_x (mv_multiplier v)) false).
  { constructor; try lia; rewrite Z.gtb_ltb in T2; apply Z.ltb_ge in T2; lia. }
  destruct (recordStep_entry E _ _ _ _ Hc) as (e & Hr & Hs & _).
  rewrite Hr. cbn [fst snd negb]. rewrite Hs, lastStep_snoc.
  match goal with |- (if ?b then _ else _) <> _ => destruct b end;
    [discriminate | apply IH].
Qed.

Lemma repeatLoop_no_TypeError (fuel : nat) (rt : RepeatUntilType) (rv : Z)
    (base : list PlacedBet) (m start : Z) :
  forall v st, repeatLoop E fuel rt rv base m start v st <> TypeError.
Proof.
  induction fuel as [|fuel IH]; intros v st; cbn [repeatLoop]; [discriminate|].
  destruct (loopActive v && (st_spinsConsumed st <? maxSpins (config E))
            && (st_bankroll st >? 0)) eqn:G; [|discriminate].
  apply andb_prop in G as [G G3]. apply andb_prop in G as [_ G2].
  apply Z.ltb_lt in G2. apply Z.gtb_lt in G3.
  cbv zeta.
  destruct (snd (capToTableMax E (scaleBets base m)) >? st_bankroll st) eqn:T;
    [discriminate|].
  assert (Hc : callSite E st (fst (capToTableMax E (scaleBets base m))) (REPEAT rt) false).
  { constructor; try lia; rewrite Z.gtb_ltb in T; apply Z.ltb_ge in T;
      rewrite <- sumAmounts_capToTableMax; lia. }
  destruct (recordStep_entry E _ _ _ _ Hc) as (e & _ & Hs & _).
  rewrite Hs, lastStep_snoc. apply IH.
Qed.

Lemma mainLoop_no_TypeError (fuel : nat) :
  forall c st, mainLoop E fuel c st <> TypeError.
Proof.
  induction fuel as [|fuel IH]; intros c st; cbn [mainLoop]; [discriminate|].
  destruct (negb (st_spinsConsumed st <? maxSpins (config E))) eqn:G1; [discriminate|].
  apply negb_false_iff, Z.ltb_lt in G1.
  destruct (haltCondition E st) eqn:G2; [discriminate|].
  assert (Hspin :
    (let capped := capToTableMax E (scaleBets (currentBaseBets c) (currentMultiplier c)) in
     let activeBets := fst capped in
     let totalWager := snd capped in
     if totalWager >? st_bankroll st then Ok (c, st)
     else
       let res := draw E st in
       let r := recordStep E st res activeBets (spinAction activeBets st) false in
       match lastStep (st_steps (snd r)) with
       | None => TypeError
       | Some last =>
           let roundWin := won last in
           let next := if roundWin then children_win (currentNode c)
                       else children_loss (currentNode c) in
           let cs := leaveSpinNode E next c (snd r) in
           mainLoop E fuel (fst cs) (snd cs)
       end) <> TypeError).
  { cbv zeta.
    destruct (snd (capToTableMax E (scaleBets (currentBaseBets c) (currentMultiplier c)))
              >? st_bankroll st) eqn:T; [discriminate|].
    assert (Hc : callSite E st
                   (fst (capToTableMax E (scaleBets (currentBaseBets c) (currentMultiplier c))))
                   (spinAction (fst (capToTableMax E (scaleBets (currentBaseBets c)
                                                         (currentMultiplier c)))) st) false).
    { constructor; try assumption; rewrite Z.gtb_ltb in T; apply Z.ltb_ge in T;
        rewrite <- sumAmounts_capToTableMax; lia. }
    destruct (recordStep_entry E _ _ _ _ Hc) as (e & _ & Hs & _).
    rewrite Hs, lastStep_snoc. apply IH. }
  destruct (node_type (currentNode c)); try exact Hspin; clear Hspin; cbv zeta.
  - destruct (martingaleLoop E fuel _ _ _ _ _ st) as [[v st1]| |] eqn:M;
      [apply IH | | discriminate].
    exfalso; exact (martingaleLoop_no_TypeError _ _ _ _ _ _ _ M).
  - destruct (repeatLoop E fuel _ _ _ _ _ _ st) as [[v st1]| |] eqn:M;
      [apply IH | | discriminate].
    exfalso; exact (repeatLoop_no_TypeError _ _ _ _ _ _ _ _ M).
Qed.

(** [runSimulation] never dereferences a missing ledger entry. *)
Lemma runSimulation_no_TypeError (fuel : nat) : runSimulation E fuel <> TypeError.
Proof.
  unfold runSimulation.
  destruct (mainLoop E fuel (initialCursor E) (preSimWait E (initialState E)))
    as [[c st]| |] eqn:M; try discriminate.
  exfalso; exact (mainLoop_no_TypeError _ _ _ M).
Qed.

End NoTypeError.

(** ** Termination of strategies made of single-spin nodes *)

Section Termination.

Variable E : RunInput.

Lemma reach_spins_mono (st st' : RunState) :
  reach E st st' -> st_spinsConsumed st <= st_spinsConsumed st'.
Proof.
  induction 1 as [|st st' bs a w Hr IH Hc]; [lia|].
  destruct (recordStep_entry E _ _ _ _ Hc) as (e & _ & _ & _ & Hn & _).
  lia.
Qed.

Lemma singleSpinOnly_type (n : StrategyNode) :
  singleSpinOnly n ->
  node_type n <> martingale /\ node_type n <> repeat_until.
Proof. destruct n; cbn; tauto. Qed.

Lemma singleSpinOnly_child (n m : StrategyNode) :
  singleSpinOnly n ->
  children_win n = Sub m \/ children_loss n = Sub m ->
  singleSpinOnly m.
Proof.
  destruct n; cbn. intros (_ & _ & Hw & Hl) [H|H]; subst; assumption.
Qed.

Lemma leaveSpinNode_singleSpinOnly (c : Cursor) (st : RunState) (roundWin : bool) :
  singleSpinOnly (rootNode (strategy E)) ->
  singleSpinOnly (currentNode c) ->
  singleSpinOnly
    (currentNode
       (fst (leaveSpinNode E
               (if roundWin then children_win (currentNode c)
                else children_loss (currentNode c)) c st))).
Proof.
  intros Hroot Hc.
  set (next := if roundWin then children_win (currentNode c)
               else children_loss (currentNode c)).
  assert (Hnext : forall n, resolveChild E next = Some n -> singleSpinOnly n).
  { intros n Hn. unfold resolveChild in Hn.
    destruct next as [| |m] eqn:Hx; inversion Hn; subst; [exact Hroot|].
    apply (singleSpinOnly_child (currentNode c)); [exact Hc|].
    unfold next in Hx. destruct roundWin; [left | right]; exact Hx. }
  unfold leaveSpinNode.
  destruct (resolveChild E next) as [n|]; [|exact Hroot].
  specialize (Hnext n eq_refl).
  assert (He : forall c0, currentNode (enterNode n c0) = n)
    by (intros c0; unfold enterNode; destruct (hasBets n); reflexivity).
  destruct (node_type n) eqn:Hty; cbn [fst];
    unfold applyNodeModifier; rewrite ?He, ?Hty;
    try (destruct (noBetsField n)); cbn [currentNode withMultiplier];
    rewrite ?He; try assumption.
  all: destruct (postWaitAction n) as [a|]; [|rewrite He; exact Hnext].
  all: destruct (negb (hasBets n)); [|rewrite He; exact Hnext].
  all: destruct a; cbn [applyPostWaitAction withMultiplier currentNode];
    rewrite He; exact Hnext.
Qed.

(** A strategy without loop nodes always returns: every iteration of the
    main loop either stops or consumes at least one spin of the budget. *)
Lemma mainLoop_single_spin_returns (fuel : nat) :
  forall c st,
    singleSpinOnly (rootNode (strategy E)) ->
    singleSpinOnly (currentNode c) ->
    Z.max 0 (maxSpins (config E) - st_spinsConsumed st) < Z.of_nat fuel ->
    exists r, mainLoop E fuel c st = Ok r.
Proof.
  induction fuel as [|fuel IH]; intros c st Hroot Hc Hf; [lia|].
  cbn [mainLoop].
  destruct (negb (st_spinsConsumed st <? maxSpins (config E))) eqn:G1;
    [eexists; reflexivity|].
  apply negb_false_iff, Z.ltb_lt in G1.
  destruct (haltCondition E st) eqn:G2; [eexists; reflexivity|].
  assert (Hspin : exists r,
    (let capped := capToTableMax E (scaleBets (currentBaseBets c) (currentMultiplier c)) in
     let activeBets := fst capped in
     let totalWager := snd capped in
     if totalWager >? st_bankroll st then Ok (c, st)
     else
       let res := draw E st in
       let r := recordStep E st res activeBets (spinAction activeBets st) false in
       match lastStep (st_steps (snd r)) with
       | None => TypeError
       | Some last =>
           let roundWin := won last in
           let next := if roundWin then children_win (currentNode c)
                       else children_loss (currentNode c) in
           let cs := leaveSpinNode E next c (snd r) in
           mainLoop E fuel (fst cs) (snd cs)
       end) = Ok r).
  { cbv zeta.
    destruct (snd (capToTableMax E (scaleBets (currentBaseBets c) (currentMultiplier c)))
              >? st_bankroll st) eqn:T; [eexists; reflexivity|].
    assert (Hcall : callSite E st
                      (fst (capToTableMax E (scaleBets (currentBaseBets c) (currentMultiplier c))))
                      (spinAction (fst (capToTableMax E (scaleBets (currentBaseBets c)
                                                            (currentMultiplier c)))) st) false).
    { constructor; try assumption; rewrite Z.gtb_ltb in T; apply Z.ltb_ge in T;
        rewrite <- sumAmounts_capToTableMax; lia. }
    destruct (recordStep_entry E _ _ _ _ Hcall) as (e & _ & Hs & _ & Hn & _).
    rewrite Hs, lastStep_snoc.
    apply IH; [exact Hroot | apply leaveSpinNode_singleSpinOnly; assumption |].
    match goal with
    | |- context [leaveSpinNode E ?nx c ?s1] =>
        pose proof (reach_spins_mono _ _ (leaveSpinNode_reach E nx c s1)) as Hm
    end.
    lia. }
  destruct (singleSpinOnly_type _ Hc) as [Hm Hr].
  destruct (node_type (currentNode c)); try exact Hspin; congruence.
Qed.

(** With a fuel above the spin budget, [runSimulation] returns a ledger
    and statistics for every strategy without loop nodes. *)
Lemma runSimulation_single_spin_returns (fuel : nat) :
  singleSpinOnly (rootNode (strategy E)) ->
  Z.max 0 (maxSpins (config E)) < Z.of_nat fuel ->
  exists steps stats, runSimulation E fuel = Ok (steps, stats).
Proof.
  intros Hroot Hf.
  destruct (mainLoop_single_spin_returns fuel (initialCursor E)
              (preSimWait E (initialState E)) Hroot Hroot) as [[c st] Hr].
  { pose proof (reach_spins_mono _ _ (preSimWait_reach E (initialState E))) as Hm.
    cbn in Hm. lia. }
  unfold runSimulation. rewrite Hr. eexists; eexists; reflexivity.
Qed.

End Termination.

(** ** A childless root without wagers spins the whole budget away *)

Section NoBetRun.

Variable E : RunInput.

Hypothesis Hempty : betsOrEmpty (rootNode (strategy E)) = [].
Hypothesis Hkind : singleSpinOnly (rootNode (strategy E)).
Hypothesis Hloss : children_loss (rootNode (strategy E)) = NoChild.

Lemma noBetSpins_props (n : nat) :
  forall st,
    0 < st_bankroll st ->
    exists added,
      st_steps (noBetSpins E n st) = st_steps st ++ added
      /\ List.length added = n
      /\ Forall (fun s => actionType s = NO_BET /\ betTotal s = 0 /\ payout s = 0
                          /\ net s = 0 /\ won s = false
                          /\ bankroll s = st_bankroll st) added
      /\ st_bankroll (noBetSpins E n st) = st_bankroll st
      /\ st_spinsConsumed (noBetSpins E n st) = st_spinsConsumed st + Z.of_nat n.
Proof.
  induction n as [|n IH]; intros st Hpos; cbn [noBetSpins].
  - exists []. rewrite app_nil_r. repeat split; try lia. constructor.
  - destruct (recordStep_no_bet E st Hpos) as (_ & Hs & Hb & Hn).
    destruct (IH (snd (recordStep E st (draw E st) [] NO_BET false)))
      as (added & H1 & H2 & H3 & H4 & H5); [lia|].
    exists (noBetEntry E st :: added).
    rewrite H1, Hs, <- app_assoc, H4, H5, Hb, Hn. cbn [app List.length].
    repeat split; try lia.
    constructor; [cbn; repeat split; reflexivity|].
    rewrite Hb in H3. exact H3.
Qed.

Lemma mainLoop_no_bet_root (n : nat) :
  forall st,
    st_spinsConsumed st + Z.of_nat n = maxSpins (config E) ->
    haltCondition E st = false ->
    mainLoop E (S n) (initialCursor E) st
    = Ok (initialCursor E, noBetSpins E n st).
Proof.
  induction n as [|n IH]; intros st Hn Hgo; cbn [mainLoop noBetSpins].
  - replace (st_spinsConsumed st <? maxSpins (config E)) with false; [reflexivity|].
    symmetry; apply Z.ltb_ge; lia.
  - destruct (haltCondition_false E st Hgo) as (_ & _ & Hpos).
    destruct (recordStep_no_bet E st Hpos) as (_ & Hs & Hb & Hc).
    assert (G : negb (st_spinsConsumed st <? maxSpins (config E)) = false)
      by (apply negb_false_iff, Z.ltb_lt; lia).
    rewrite G, Hgo. cbn [initialCursor currentBaseBets currentMultiplier currentNode].
    rewrite Hempty. cbn [scaleBets map]. rewrite capToTableMax_nil. cbn [fst snd].
    assert (Hb0 : (0 >? st_bankroll st) = false)
      by (rewrite Z.gtb_ltb; apply Z.ltb_ge; lia).
    rewrite Hb0. change (spinAction [] st) with NO_BET.
    rewrite Hs, lastStep_snoc. cbn [won noBetEntry]. rewrite Hloss.
    assert (Hnext : mainLoop E (S n) (initialCursor E)
                      (snd (recordStep E st (draw E st) [] NO_BET false))
                    = Ok (initialCursor E,
                          noBetSpins E n (snd (recordStep E st (draw E st) [] NO_BET false)))).
    { apply IH; [lia|]. unfold haltCondition in *. rewrite Hb. exact Hgo. }
    destruct (singleSpinOnly_type _ Hkind) as [Hm Hr].
    destruct (node_type (rootNode (strategy E))); try exact Hnext; congruence.
Qed.

(** The run of such a strategy: as many NO_BET entries as the budget
    allows, the bankroll untouched. *)
Lemma no_bet_root_run :
  preSimWaits (rootNode (strategy E)) = false ->
  haltCondition E (initialState E) = false ->
  0 <= maxSpins (config E) ->
  exists steps stats,
    runSimulation E (S (Z.to_nat (maxSpins (config E)))) = Ok (steps, stats)
    /\ Z.of_nat (List.length steps) = maxSpins (config E)
    /\ Forall (fun s => actionType s = NO_BET /\ betTotal s = 0 /\ payout s = 0
                        /\ net s = 0 /\ won s = false
                        /\ bankroll s = initialBankroll E) steps
    /\ finalBankroll stats = initialBankroll E.
Proof.
  intros Hw Hgo Hmax. unfold runSimulation.
  rewrite (preSimWait_none E Hw).
  rewrite (mainLoop_no_bet_root (Z.to_nat (maxSpins (config E))) (initialState E));
    [|cbn; lia | exact Hgo].
  destruct (haltCondition_false E _ Hgo) as (_ & _ & Hpos).
  destruct (noBetSpins_props (Z.to_nat (maxSpins (config E))) (initialState E) Hpos)
    as (added & H1 & H2 & H3 & H4 & _).
  eexists; eexists. split; [reflexivity|].
  cbn [st_steps initialState app] in H1. rewrite H1.
  cbn [finalStats finalBankroll]. rewrite H4, H2.
  repeat split; try (cbn; lia). exact H3.
Qed.

End NoBetRun.

(** * Further properties of the engine *)

(** ** Every recorded spin, entry by entry *)

Section EntryFacts.

Variable E : RunInput.

(** At a call site of the run, [recordStep] succeeds, pushes [entryOf] and
    updates the statistics by [engineStep]. *)
Lemma recordStep_pushes (st : RunState) (bs : list PlacedBet)
    (a : ActionType) (w : bool) :
  callSite E st bs a w ->
  st_steps (snd (recordStep E st (draw E st) bs a w))
  = st_steps st ++ [entryOf st (draw E st) bs a w]
  /\ st_bankroll (snd (recordStep E st (draw E st) bs a w))
     = bankroll (entryOf st (draw E st) bs a w)
  /\ st_spinsConsumed (snd (recordStep E st (draw E st) bs a w))
     = st_spinsConsumed st + 1
  /\ accOf (snd (recordStep E st (draw E st) bs a w))
     = engineStep (initialBankroll E) (accOf st) (entryOf st (draw E st) bs a w)
  /\ isWaitAction a = w.
Proof.
  intros Hc. pose proof (callSite_affordable E _ _ _ _ Hc) as Ha.
  pose proof (callSite_wait_flag E _ _ _ _ Hc) as Hw.
  unfold recordStep. cbv zeta. rewrite Ha. cbn [fst snd].
  repeat split; try reflexivity; try assumption.
  unfold engineStep, accOf, entryOf; cbn. rewrite Hw. reflexivity.
Qed.

Lemma entryOf_consistent (st : RunState) (bs : list PlacedBet)
    (a : ActionType) (w : bool) :
  callSite E st bs a w -> entryConsistent (entryOf st (draw E st) bs a w).
Proof.
  intros Hc. pose proof (callSite_wait_flag E _ _ _ _ Hc) as Hw.
  unfold entryConsistent, entryOf.
  cbn [net payout betTotal won bets outcomes actionType result]. rewrite Hw.
  repeat split.
  inversion Hc; subst; cbn [fst snd]; try (repeat split; reflexivity);
    now destruct (calculateDetailedOutcomes _ _).
Qed.

Lemma reach_entries_consistent (st st' : RunState) :
  reach E st st' ->
  Forall entryConsistent (st_steps st) -> Forall entryConsistent (st_steps st').
Proof.
  induction 1 as [|st st' bs a w Hr IH Hc]; intros Hi; [exact Hi|].
  destruct (recordStep_pushes _ _ _ _ Hc) as (Hs & _).
  rewrite Hs. apply Forall_app; split; [apply IH, Hi|].
  constructor; [|constructor]. now apply entryOf_consistent.
Qed.

Lemma reach_numbered (st st' : RunState) :
  reach E st st' ->
  st_spinsConsumed st = Z.of_nat (List.length (st_steps st)) /\ numbered E (st_steps st) ->
  st_spinsConsumed st' = Z.of_nat (List.length (st_steps st'))
  /\ numbered E (st_steps st').
Proof.
  induction 1 as [|st st' bs a w Hr IH Hc]; intros Hi; [exact Hi|].
  destruct (IH Hi) as [Hn Hnum].
  destruct (recordStep_pushes _ _ _ _ Hc) as (Hs & _ & Hsp & _).
  rewrite Hs, Hsp, length_app. cbn [List.length]. split; [lia|].
  intros i s Hi'.
  destruct (Nat.lt_ge_cases i (List.length (st_steps st'))) as [Hlt|Hge].
  - rewrite nth_error_app1 in Hi' by exact Hlt. now apply Hnum.
  - rewrite nth_error_app2 in Hi' by exact Hge.
    destruct (i - List.length (st_steps st'))%nat as [|k] eqn:Hk; cbn in Hi';
      [|destruct k; discriminate].
    inversion Hi'; subst s. assert (i = List.length (st_steps st')) by lia. subst i.
    unfold entryOf, draw; cbn. rewrite Hn. split; [lia | reflexivity].
Qed.

Lemma reach_statsInv (st st' : RunState) :
  reach E st st' -> statsInv E st -> statsInv E st'.
Proof.
  induction 1 as [|st st' bs a w Hr IH Hc]; intros Hi; [exact Hi|].
  specialize (IH Hi).
  destruct (recordStep_pushes _ _ _ _ Hc) as (Hs & Hb & _ & Hacc & Hw).
  destruct (recordStep_entry E _ _ _ _ Hc) as (e & _ & Hs' & _ & _ & _ & _ & _ & _ & _ & _ & Hok).
  rewrite Hs in Hs'. apply app_inj_tail in Hs' as [_ He]. rewrite <- He in Hok.
  destruct Hok as (Hbk & Hwait & _).
  set (e0 := entryOf st' (draw E st') bs a w) in *.
  assert (Ha : actionType e0 = a) by reflexivity.
  unfold statsInv in *.
  set (r := snd (recordStep E st' (draw E st') bs a w)) in *.
  assert (F : forall f : PlaybackAcc -> Z, f (accOf r) = f (engineStep (initialBankroll E) (accOf st') e0))
    by (intros f; now rewrite Hacc).
  pose proof (F a_wins) as F1. pose proof (F a_losses) as F2.
  pose proof (F a_currentWinStreak) as F3. pose proof (F a_currentLossStreak) as F4.
  pose proof (F a_longestWinStreak) as F5. pose proof (F a_longestLossStreak) as F6.
  pose proof (F a_maxDrawdown) as F7. pose proof (F a_maxUpside) as F8.
  cbn [accOf engineStep a_wins a_losses a_currentWinStreak a_currentLossStreak
         a_longestWinStreak a_longestLossStreak a_maxDrawdown a_maxUpside] in F1, F2, F3, F4, F5, F6, F7, F8.
  rewrite F1, F2, F3, F4, F5, F6, F7, F8, Hs, Hb, length_app. cbn [List.length].
  rewrite Ha, Hw. clear F F1 F2 F3 F4 F5 F6 F7 F8.
  destruct IH as (I1 & I2 & I3 & I4 & I5 & I6 & I7 & I8).
  destruct w; cbn [negb andb].
  - assert (Hn0 : net e0 = 0) by (apply Hwait; rewrite Ha; exact Hw).
    repeat split; try lia.
  - destruct (Z.gtb_spec (net e0) 0) as [Hp|Hp]; cbn [negb andb];
      [|destruct (Z.ltb_spec (net e0) 0) as [Hq|Hq]];
      repeat match goal with
             | |- context [?x >? ?y] => destruct (Z.gtb_spec x y)
             | |- context [?x <? ?y] => destruct (Z.ltb_spec x y)
             end; repeat split; try lia.
Qed.

End EntryFacts.

Lemma run_state_facts (E : RunInput) (fuel : nat) (steps : list SimulationStep)
    (stats : SimulationStats) :
  runSimulation E fuel = Ok (steps, stats) ->
  numbered E steps /\ Forall entryConsistent steps
  /\ exists st, steps = st_steps st /\ stats = finalStats E st /\ statsInv E st.
Proof.
  intros H. apply runSimulation_reach in H as (st & Hr & -> & ->).
  pose proof (reach_numbered E _ _ Hr) as Hn.
  pose proof (reach_entries_consistent E _ _ Hr) as Hc.
  pose proof (reach_statsInv E _ _ Hr) as Hs.
  split; [apply Hn; split; [reflexivity | intros [|i] s Hi; discriminate]|].
  split; [apply Hc; constructor|].
  exists st. split; [reflexivity|]. split; [reflexivity|]. apply Hs.
  clear. unfold statsInv, initialState; cbn. repeat split; try lia.
Qed.

(** X1. The entries of a returned ledger are numbered 1, 2, 3, ... in
    order, and the i-th entry holds the i-th draw of the wheel: no spin that
    was drawn is missing from the ledger and none is recorded twice. *)
Theorem X1_ledger_numbering (E : RunInput) (fuel : nat)
    (steps : list SimulationStep) (stats : SimulationStats)
    (Hrun : runSimulation E fuel = Ok (steps, stats))
    (i : nat) (s : SimulationStep) (Hi : nth_error steps i = Some s) :
  spinIndex s = Z.of_nat i + 1
  /\ result s = generateSpin (rng E (Z.of_nat i))
  /\ totalSpins stats = Z.of_nat (List.length steps).
Proof.
  destruct (run_state_facts E fuel steps stats Hrun) as (Hn & _ & st & -> & -> & _).
  destruct (Hn i s Hi) as [H1 H2]. repeat split; assumption.
Qed.

Lemma X1_ledger_numbering_witness :
  runSimulation demoInput 20 = Ok (demoSteps, demoStats)
  /\ nth_error demoSteps 2 = Some demoStep3
  /\ spinIndex demoStep3 = 3.
Proof.
  assert (Hrun : runSimulation demoInput 20 = Ok (demoSteps, demoStats))
    by (vm_compute; reflexivity).
  assert (Hi : nth_error demoSteps 2 = Some demoStep3) by reflexivity.
  split; [exact Hrun|]. split; [exact Hi|].
  exact (proj1 (X1_ledger_numbering demoInput 20 demoSteps demoStats Hrun 2 demoStep3 Hi)).
Defined.

(** X2. Every entry of a returned ledger is self-consistent: its net is
    payout minus betTotal, [won] is true exactly when the net is positive,
    betTotal is the sum of the recorded wagers, and payout and per-wager
    outcomes are what the resolver gives for the recorded wagers on the
    recorded outcome (no wagers, no outcomes and payout 0 on a wait
    entry). *)
Theorem X2_ledger_entries_consistent (E : RunInput) (fuel : nat)
    (steps : list SimulationStep) (stats : SimulationStats)
    (Hrun : runSimulation E fuel = Ok (steps, stats))
    (s : SimulationStep) (Hin : In s steps) :
  entryConsistent s.
Proof.
  destruct (run_state_facts E fuel steps stats Hrun) as (_ & Hc & _).
  rewrite Forall_forall in Hc. now apply Hc.
Qed.

Lemma X2_ledger_entries_consistent_witness :
  runSimulation demoInput 20 = Ok (demoSteps, demoStats)
  /\ In demoStep3 demoSteps
  /\ entryConsistent demoStep3.
Proof.
  assert (Hrun : runSimulation demoInput 20 = Ok (demoSteps, demoStats))
    by (vm_compute; reflexivity).
  assert (Hin : In demoStep3 demoSteps) by (right; right; left; reflexivity).
  split; [exact Hrun|]. split; [exact Hin|].
  exact (X2_ledger_entries_consistent demoInput 20 demoSteps demoStats Hrun demoStep3 Hin).
Defined.

(** X3. A betting entry (any entry that is not a wait spin) always lies
    within the first [maxSpins] positions of the ledger: wait spins can
    push the ledger past the budget, wagers never can. *)
Theorem X3_betting_within_budget (E : RunInput) (fuel : nat)
    (steps : list SimulationStep) (stats : SimulationStats)
    (Hrun : runSimulation E fuel = Ok (steps, stats))
    (i : nat) (s : SimulationStep) (Hi : nth_error steps i = Some s)
    (Hbet : isWaitAction (actionType s) = false) :
  Z.of_nat i < maxSpins (config E).
Proof.
  destruct (run_state_facts E fuel steps stats Hrun) as (Hn & _).
  destruct (run_ledger_chain E fuel steps stats Hrun) as [Hch _].
  destruct (chain_nth _ _ _ _ _ Hch Hi) as (_ & _ & Hb & _).
  destruct (Hb Hbet) as (_ & Hidx & _).
  destruct (Hn i s Hi) as [Hsp _]. lia.
Qed.

Lemma X3_betting_within_budget_witness :
  runSimulation demoInput 20 = Ok (demoSteps, demoStats)
  /\ nth_error demoSteps 2 = Some demoStep3
  /\ isWaitAction (actionType demoStep3) = false
  /\ Z.of_nat 2 < maxSpins (config demoInput).
Proof.
  assert (Hrun : runSimulation demoInput 20 = Ok (demoSteps, demoStats))
    by (vm_compute; reflexivity).
  assert (Hi : nth_error demoSteps 2 = Some demoStep3) by reflexivity.
  assert (Hb : isWaitAction (actionType demoStep3) = false) by reflexivity.
  split; [exact Hrun|]. split; [exact Hi|]. split; [exact Hb|].
  exact (X3_betting_within_budget demoInput 20 demoSteps demoStats Hrun 2 demoStep3 Hi Hb).
Defined.

(** X4. No wager is recorded that the bankroll did not cover: the betTotal
    of every betting entry is at most the bankroll in force before it. *)
Theorem X4_wager_covered_by_bankroll (E : RunInput) (fuel : nat)
    (steps : list SimulationStep) (stats : SimulationStats)
    (Hrun : runSimulation E fuel = Ok (steps, stats))
    (i : nat) (s : SimulationStep) (Hi : nth_error steps i = Some s)
    (Hbet : isWaitAction (actionType s) = false) :
  betTotal s <= bankrollBefore (initialBankroll E) steps i.
Proof.
  destruct (run_ledger_chain E fuel steps stats Hrun) as [Hch _].
  destruct (chain_nth _ _ _ _ _ Hch Hi) as (_ & _ & Hb & _).
  now destruct (Hb Hbet) as (_ & _ & H).
Qed.

Lemma X4_wager_covered_by_bankroll_witness :
  runSimulation demoInput 20 = Ok (demoSteps, demoStats)
  /\ nth_error demoSteps 2 = Some demoStep3
  /\ isWaitAction (actionType demoStep3) = false
  /\ betTotal demoStep3 <= bankrollBefore (initialBankroll demoInput) demoSteps 2.
Proof.
  assert (Hrun : runSimulation demoInput 20 = Ok (demoSteps, demoStats))
    by (vm_compute; reflexivity).
  assert (Hi : nth_error demoSteps 2 = Some demoStep3) by reflexivity.
  assert (Hb : isWaitAction (actionType demoStep3) = false) by reflexivity.
  split; [exact Hrun|]. split; [exact Hi|]. split; [exact Hb|].
  exact (X4_wager_covered_by_bankroll demoInput 20 demoSteps demoStats Hrun 2 demoStep3 Hi Hb).
Defined.

(** X5. The statistics of a returned run are coherent: the drawdown is at
    most 0 and the upside at least 0, the final net change lies between
    them, each longest streak is non-negative and at most the matching
    count, and wins plus losses never exceed the number of entries. *)
Theorem X5_stats_bounds (E : RunInput) (fuel : nat)
    (steps : list SimulationStep) (stats : SimulationStats)
    (Hrun : runSimulation E fuel = Ok (steps, stats)) :
  maxDrawdown stats <= 0 <= maxUpside stats
  /\ maxDrawdown stats <= finalBankroll stats - initialBankroll E <= maxUpside stats
  /\ 0 <= longestWinStreak stats <= wins stats
  /\ 0 <= longestLossStreak stats <= losses stats
  /\ wins stats + losses stats <= totalSpins stats.
Proof.
  destruct (run_state_facts E fuel steps stats Hrun) as (_ & _ & st & -> & -> & Hs).
  unfold statsInv in Hs. cbn. lia.
Qed.

Lemma X5_stats_bounds_witness :
  runSimulation demoInput 20 = Ok (demoSteps, demoStats)
  /\ maxDrawdown demoStats <= 0 <= maxUpside demoStats
  /\ wins demoStats + losses demoStats <= totalSpins demoStats.
Proof.
  assert (Hrun : runSimulation demoInput 20 = Ok (demoSteps, demoStats))
    by (vm_compute; reflexivity).
  pose proof (X5_stats_bounds demoInput 20 demoSteps demoStats Hrun) as H.
  split; [exact Hrun|]. split; [exact (proj1 H)|].
  exact (proj2 (proj2 (proj2 (proj2 H)))).
Defined.

Lemma engine_fold_counts (initial : Z) (l : list SimulationStep) :
  forall a,
    a_wins (fold_left (engineStep initial) l a) = a_wins a + countIf isBettingWin l
    /\ a_losses (fold_left (engineStep initial) l a) = a_losses a + countIf isBettingLoss l.
Proof.
  unfold countIf.
  induction l as [|s l IH]; intros a; cbn [fold_left filter List.length]; [lia|].
  destruct (IH (engineStep initial a s)) as [H1 H2]. rewrite H1, H2.
  unfold engineStep. cbn [a_wins a_losses].
  unfold isBettingWin at 2, isBettingLoss at 2.
  destruct (isWaitAction (actionType s)); cbn [negb andb]; [lia|].
  destruct (Z.gtb_spec (net s) 0), (Z.ltb_spec (net s) 0); cbn [negb andb List.length];
    lia.
Qed.

(** X6. The win count of a returned run is the number of betting entries
    with a positive net, and the loss count the number of betting entries
    with a negative net; wait entries and pushes (net 0) enter neither. *)
Theorem X6_wins_losses_count (E : RunInput) (fuel : nat)
    (steps : list SimulationStep) (stats : SimulationStats)
    (Hrun : runSimulation E fuel = Ok (steps, stats)) :
  wins stats = countIf isBettingWin steps
  /\ losses stats = countIf isBettingLoss steps.
Proof.
  rewrite (run_stats_engine_fold E fuel steps stats Hrun).
  unfold engineStats, accStats. cbn [wins losses].
  destruct (engine_fold_counts (initialBankroll E) steps (emptyAcc (initialBankroll E)))
    as [H1 H2].
  rewrite H1, H2. cbn. split; lia.
Qed.

Lemma X6_wins_losses_count_witness :
  runSimulation demoInput 20 = Ok (demoSteps, demoStats)
  /\ wins demoStats = countIf isBettingWin demoSteps
  /\ losses demoStats = countIf isBettingLoss demoSteps.
Proof.
  assert (Hrun : runSimulation demoInput 20 = Ok (demoSteps, demoStats))
    by (vm_compute; reflexivity).
  split; [exact Hrun|].
  exact (X6_wins_losses_count demoInput 20 demoSteps demoStats Hrun).
Defined.

(** ** What is wagered: table maximum and non-negative bankroll *)

Section WagerFacts.

Variable E : RunInput.

Lemma reachW_trans (a b c : RunState) :
  reachW E a b -> reachW E b c -> reachW E a c.
Proof.
  intros Hab Hbc; induction Hbc; [exact Hab | econstructor; eauto].
Qed.

Lemma reachW_one (st : RunState) (bs : list PlacedBet) (a : ActionType) (w : bool) :
  callSite E st bs a w -> wagerOK E bs a ->
  reachW E st (snd (recordStep E st (draw E st) bs a w)).
Proof. intros H1 H2; eapply reachW_step; [apply reachW_refl | exact H1 | exact H2]. Qed.

Lemma reachW_reach (st st' : RunState) : reachW E st st' -> reach E st st'.
Proof. induction 1; [apply reach_refl | econstructor; eauto]. Qed.

Lemma wagerOK_wait (a : ActionType) : isWaitAction a = true -> wagerOK E [] a.
Proof.
  intros Ha; split; [intros _; constructor|].
  intros m ->; discriminate.
Qed.

Lemma waitSpins_reachW (n : nat) : forall st, reachW E st (waitSpins E n st).
Proof.
  induction n as [|n IH]; intros st; cbn [waitSpins]; [apply reachW_refl|].
  eapply reachW_trans; [|apply IH].
  apply reachW_one; [now constructor | now apply wagerOK_wait].
Qed.

Lemma waitCondition_reachW (k : nat) (cond : string) :
  forall st, reachW E st (waitCondition E k cond st).
Proof.
  induction k as [|k IH]; intros st; cbn [waitCondition]; [apply reachW_refl|].
  assert (H1 : reachW E st
                 (snd (recordStep E st (draw E st) [] (WAITING_FOR (toUpperCase cond)) true)))
    by (apply reachW_one; [now constructor | now apply wagerOK_wait]).
  cbv zeta.
  match goal with |- reachW _ _ (if ?b then _ else _) => destruct b end;
    [exact H1 | eapply reachW_trans; [exact H1 | apply IH]].
Qed.

Lemma preSimWait_reachW (st : RunState) : reachW E st (preSimWait E st).
Proof.
  unfold preSimWait.
  destruct (node_type (rootNode (strategy E)));
    destruct (truthyZ (value (rootNode (strategy E))));
    destruct (truthyString (condition (rootNode (strategy E))));
    try apply reachW_refl; try apply waitSpins_reachW; apply waitCondition_reachW.
Qed.

Lemma sumAmounts_acc (bs : list PlacedBet) :
  forall z, fold_left (fun sum b => sum + amount b) bs z = z + sumAmounts bs.
Proof.
  unfold sumAmounts.
  induction bs as [|b bs IH]; intros z; cbn [fold_left]; [lia|].
  rewrite IH, (IH (0 + amount b)). lia.
Qed.

Lemma nonnegBets_scale (bs : list PlacedBet) (m : Z) :
  nonnegBets bs -> 0 <= m -> nonnegBets (scaleBets bs m).
Proof.
  intros H Hm. unfold nonnegBets, scaleBets in *. rewrite Forall_map.
  eapply Forall_impl; [|exact H]. intros b Hb; unfold setAmount; cbn [amount] in *.
  apply Z.mul_nonneg_nonneg; assumption.
Qed.

Lemma nonnegBets_cap (bs : list PlacedBet) :
  nonnegBets bs -> nonnegBets (fst (capToTableMax E bs)).
Proof.
  intros H. unfold capToTableMax. cbv zeta.
  destruct (sumAmounts bs >? tableMax (config E)); cbn [fst]; [|exact H].
  unfold nonnegBets. rewrite Forall_map. apply Forall_forall.
  intros b _; unfold setAmount; cbn [amount]. lia.
Qed.

Lemma martingaleProgress_mult (lt : MartingaleLimitType) (lv : Z) (rw : bool)
    (p cnt m : Z) :
  1 <= m -> 1 <= snd (martingaleProgress lt lv rw p cnt m).
Proof.
  intros Hm. unfold martingaleProgress.
  destruct lt; repeat match goal with |- context [if ?b then _ else _] => destruct b end;
    cbn [snd]; lia.
Qed.

Lemma martingaleLoop_reachW (fuel : nat) (lt : MartingaleLimitType) (lv : Z)
    (base : list PlacedBet) (start : Z) :
  forall v st v' st',
    martingaleLoop E fuel lt lv base start v st = Ok (v', st') ->
    (treeNonneg (rootNode (strategy E)) -> nonnegBets base /\ 1 <= mv_multiplier v) ->
    reachW E st st'
    /\ (treeNonneg (rootNode (strategy E)) -> 1 <= mv_multiplier v').
Proof.
  induction fuel as [|fuel IH]; intros v st v' st' H Hinv; cbn [martingaleLoop] in H;
    [discriminate|].
  destruct (martingaleActive v && (st_spinsConsumed st <? maxSpins (config E))
            && (st_bankroll st >? 0)) eqn:G.
  2:{ inversion H; subst; split; [apply reachW_refl | intros T; apply Hinv, T]. }
  apply andb_prop in G as [G G3]. apply andb_prop in G as [_ G2].
  apply Z.ltb_lt in G2. apply Z.gtb_lt in G3.
  cbv zeta in H.
  destruct ((sumAmounts (scaleBets base (mv_multiplier v)) >? tableMax (config E))
            || (sumAmounts (scaleBets base (mv_multiplier v)) >? st_bankroll st)) eqn:T.
  { inversion H; subst; split; [apply reachW_refl | intros T'; apply Hinv, T']. }
  apply orb_false_elim in T as [T1 T2].
  rewrite Z.gtb_ltb in T1, T2. apply Z.ltb_ge in T1, T2.
  assert (Hc : callSite E st (scaleBets base (mv_multiplier v))
                 (MARTINGALE_x (mv_multiplier v)) false)
    by (constructor; lia).
  assert (Hw : wagerOK E (scaleBets base (mv_multiplier v))
                 (MARTINGALE_x (mv_multiplier v))).
  { split; [|intros m _; exact T1].
    intros Ht. destruct (Hinv Ht). apply nonnegBets_scale; [assumption | lia]. }
  pose proof (reachW_one _ _ _ _ Hc Hw) as H1.
  destruct (negb (fst (recordStep E st (draw E st) (scaleBets base (mv_multiplier v))
                         (MARTINGALE_x (mv_multiplier v)) false))).
  { inversion H; subst; split; [exact H1 | intros T'; apply Hinv, T']. }
  destruct (lastStep _) as [last|]; [|discriminate].
  assert (Hm : treeNonneg (rootNode (strategy E)) ->
               1 <= snd (martingaleProgress lt lv (won last)
                           (st_bankroll (snd (recordStep E st (draw E st)
                              (scaleBets base (mv_multiplier v))
                              (MARTINGALE_x (mv_multiplier v)) false)) - start)
                           (martingaleStepCount v + 1) (mv_multiplier v)))
    by (intros Ht; apply martingaleProgress_mult, Hinv, Ht).
  match type of H with (if ?b then _ else _) = _ => destruct b end.
  - inversion H; subst; split; [exact H1 | exact Hm].
  - apply IH in H.
    + destruct H as [H2 H3]. split; [eapply reachW_trans; eassumption | exact H3].
    + intros Ht; cbn [mv_multiplier]. split; [apply Hinv, Ht | apply Hm, Ht].
Qed.

Lemma repeatLoop_reachW (fuel : nat) (rt : RepeatUntilType) (rv : Z)
    (base : list PlacedBet) (m start : Z) :
  forall v st v' st',
    repeatLoop E fuel rt rv base m start v st = Ok (v', st') ->
    (treeNonneg (rootNode (strategy E)) -> nonnegBets base /\ 1 <= m) ->
    reachW E st st'.
Proof.
  induction fuel as [|fuel IH]; intros v st v' st' H Hinv; cbn [repeatLoop] in H;
    [discriminate|].
  destruct (loopActive v && (st_spinsConsumed st <? maxSpins (config E))
            && (st_bankroll st >? 0)) eqn:G.
  2:{ inversion H; subst; apply reachW_refl. }
  apply andb_prop in G as [G G3]. apply andb_prop in G as [_ G2].
  apply Z.ltb_lt in G2. apply Z.gtb_lt in G3.
  cbv zeta in H.
  destruct (snd (capToTableMax E (scaleBets base m)) >? st_bankroll st) eqn:T.
  { inversion H; subst; apply reachW_refl. }
  rewrite Z.gtb_ltb in T. apply Z.ltb_ge in T.
  rewrite sumAmounts_capToTableMax in T.
  assert (Hc : callSite E st (fst (capToTableMax E (scaleBets base m))) (REPEAT rt) false)
    by (constructor; lia).
  assert (Hw : wagerOK E (fst (capToTableMax E (scaleBets base m))) (REPEAT rt)).
  { split; [|intros ? ?; discriminate].
    intros Ht. destruct (Hinv Ht).
    apply nonnegBets_cap, nonnegBets_scale; [assumption | lia]. }
  pose proof (reachW_one _ _ _ _ Hc Hw) as H1.
  destruct (lastStep _); [|discriminate].
  eapply reachW_trans; [exact H1 | eapply IH; eassumption].
Qed.

End WagerFacts.

Section CursorFacts.

Variable E : RunInput.

Hypothesis Htree : treeNonneg (rootNode (strategy E)).

Let good (c : Cursor) : Prop :=
  nonnegBets (currentBaseBets c) /\ 1 <= currentMultiplier c
  /\ treeNonneg (currentNode c).

Lemma treeNonneg_bets (n : StrategyNode) :
  treeNonneg n -> nonnegBets (betsOrEmpty n).
Proof. destruct n; cbn; tauto. Qed.

Lemma treeNonneg_child (n m : StrategyNode) :
  treeNonneg n -> children_win n = Sub m \/ children_loss n = Sub m ->
  treeNonneg m.
Proof. destruct n; cbn. intros (_ & Hw & Hl) [H|H]; subst; assumption. Qed.

Lemma resetToRoot_good : good (resetToRoot E).
Proof.
  unfold good, resetToRoot; cbn. repeat split; try lia; try assumption.
  now apply treeNonneg_bets.
Qed.

Lemma enterNode_good (n : StrategyNode) (c : Cursor) :
  treeNonneg n -> good c -> good (enterNode n c).
Proof.
  intros Hn (H1 & H2 & H3). unfold good, enterNode.
  destruct (hasBets n); cbn; repeat split; try lia; try assumption.
  now apply treeNonneg_bets.
Qed.

Lemma applyNodeModifier_good (c : Cursor) : good c -> good (applyNodeModifier E c).
Proof.
  intros (H1 & H2 & H3). unfold applyNodeModifier.
  destruct (node_type (currentNode c)); try (destruct (noBetsField (currentNode c)));
    try apply resetToRoot_good;
    unfold good, withMultiplier; cbn; repeat split; try lia; assumption.
Qed.

Lemma applyPostWaitAction_good (a : ProgressionType) (c : Cursor) :
  good c -> good (applyPostWaitAction E a c).
Proof.
  intros (H1 & H2 & H3). unfold applyPostWaitAction.
  destruct a; unfold good, withMultiplier; cbn; repeat split; try lia;
    try assumption.
  now apply treeNonneg_bets.
Qed.

Lemma resolveChild_good (c : Cursor) (b : bool) (n : StrategyNode) :
  good c ->
  resolveChild E (if b then children_win (currentNode c)
                  else children_loss (currentNode c)) = Some n ->
  treeNonneg n.
Proof.
  intros (_ & _ & H3) Hn. unfold resolveChild in Hn.
  destruct (if b then children_win (currentNode c) else children_loss (currentNode c))
    as [| |m] eqn:Hx; inversion Hn; subst; [exact Htree|].
  apply (treeNonneg_child (currentNode c)); [exact H3|].
  destruct b; [left | right]; exact Hx.
Qed.

Lemma leaveLoopNode_good (c c1 : Cursor) (b : bool) :
  good c -> good c1 ->
  good (leaveLoopNode E (if b then children_win (currentNode c)
                         else children_loss (currentNode c)) c1).
Proof.
  intros Hc Hc1. unfold leaveLoopNode.
  destruct (resolveChild E _) as [n|] eqn:Hn; [|apply resetToRoot_good].
  apply applyNodeModifier_good. apply enterNode_good; [|exact Hc1].
  exact (resolveChild_good c b n Hc Hn).
Qed.

Lemma leaveSpinNode_good (c : Cursor) (b : bool) (st : RunState) :
  good c ->
  good (fst (leaveSpinNode E (if b then children_win (currentNode c)
                              else children_loss (currentNode c)) c st)).
Proof.
  intros Hc. unfold leaveSpinNode.
  destruct (resolveChild E _) as [n|] eqn:Hn; [|apply resetToRoot_good].
  pose proof (resolveChild_good c b n Hc Hn) as Ht.
  pose proof (enterNode_good n c Ht Hc) as He.
  destruct (node_type n); cbn [fst]; try (apply applyNodeModifier_good; exact He).
  destruct (postWaitAction n) as [a|]; [|exact He].
  destruct (negb (hasBets n)); [|exact He].
  now apply applyPostWaitAction_good.
Qed.

Lemma leaveSpinNode_reachW (next : Child StrategyNode) (c : Cursor) (st : RunState) :
  reachW E st (snd (leaveSpinNode E next c st)).
Proof.
  unfold leaveSpinNode.
  destruct (resolveChild E next) as [n|]; [|apply reachW_refl].
  destruct (node_type n); try apply reachW_refl.
  cbn [snd]. destruct (truthyZ (value n)); [apply waitSpins_reachW | apply reachW_refl].
Qed.

End CursorFacts.

Section WagerRun.

Variable E : RunInput.

Lemma mainLoop_reachW (fuel : nat) :
  forall c st c' st',
    mainLoop E fuel c st = Ok (c', st') -> cursorOK E c -> reachW E st st'.
Proof.
  induction fuel as [|fuel IH]; intros c st c' st' H Hc; cbn [mainLoop] in H;
    [discriminate|].
  destruct (negb (st_spinsConsumed st <? maxSpins (config E))) eqn:G1.
  { inversion H; subst; apply reachW_refl. }
  apply negb_false_iff, Z.ltb_lt in G1.
  destruct (haltCondition E st) eqn:G2.
  { inversion H; subst; apply reachW_refl. }
  assert (Hspin : forall
    (H : (let capped := capToTableMax E (scaleBets (currentBaseBets c) (currentMultiplier c)) in
          let activeBets := fst capped in
          let totalWager := snd capped in
          if totalWager >? st_bankroll st then Ok (c, st)
          else
            let res := draw E st in
            let r := recordStep E st res activeBets (spinAction activeBets st) false in
            match lastStep (st_steps (snd r)) with
            | None => TypeError
            | Some last =>
                let roundWin := won last in
                let next := if roundWin then children_win (currentNode c)
                            else children_loss (currentNode c) in
                let cs := leaveSpinNode E next c (snd r) in
                mainLoop E fuel (fst cs) (snd cs)
            end) = Ok (c', st')), reachW E st st').
  { clear H. intros H. cbv zeta in H.
    destruct (snd (capToTableMax E (scaleBets (currentBaseBets c) (currentMultiplier c)))
              >? st_bankroll st) eqn:T.
    { inversion H; subst; apply reachW_refl. }
    rewrite Z.gtb_ltb in T. apply Z.ltb_ge in T. rewrite sumAmounts_capToTableMax in T.
    set (ab := fst (capToTableMax E (scaleBets (currentBaseBets c) (currentMultiplier c)))) in *.
    assert (Hcall : callSite E st ab (spinAction ab st) false)
      by (constructor; assumption).
    assert (Hw : wagerOK E ab (spinAction ab st)).
    { split.
      - intros Ht. destruct (Hc Ht) as (B1 & B2 & _).
        apply nonnegBets_cap, nonnegBets_scale; [assumption | lia].
      - intros m Hm. destruct (spinAction_kind ab st) as [_ Hk].
        rewrite Hm in Hk. discriminate. }
    pose proof (reachW_one E _ _ _ _ Hcall Hw) as H1.
    destruct (lastStep _) as [last|]; [|discriminate].
    eapply reachW_trans; [exact H1|].
    eapply reachW_trans; [apply leaveSpinNode_reachW|].
    eapply IH; [exact H|].
    intros Ht. apply (leaveSpinNode_good E Ht c (won last)). exact (Hc Ht). }
  destruct (node_type (currentNode c)); try (apply Hspin; exact H); clear Hspin.
  - cbv zeta in H.
    destruct (martingaleLoop E fuel _ _ _ _ _ st) as [[v st1]| |] eqn:M;
      try discriminate.
    apply martingaleLoop_reachW in M.
    2:{ intros Ht. destruct (Hc Ht) as (B1 & B2 & _). split; assumption. }
    destruct M as [M1 M2].
    eapply reachW_trans; [exact M1|].
    eapply IH; [exact H|].
    intros Ht. destruct (Hc Ht) as (B1 & B2 & B3).
    apply (leaveLoopNode_good E Ht c (withMultiplier c (mv_multiplier v))
             (st_bankroll st1 >=? st_bankroll st)).
    + exact (Hc Ht).
    + unfold withMultiplier; cbn. repeat split; try assumption. exact (M2 Ht).
  - cbv zeta in H.
    destruct (repeatLoop E fuel _ _ _ _ _ _ st) as [[v st1]| |] eqn:M;
      try discriminate.
    apply repeatLoop_reachW in M.
    2:{ intros Ht. destruct (Hc Ht) as (B1 & B2 & _). split; assumption. }
    eapply reachW_trans; [exact M|].
    eapply IH; [exact H|].
    intros Ht. exact (leaveLoopNode_good E Ht c c true (Hc Ht) (Hc Ht)).
Qed.

Lemma runSimulation_reachW (fuel : nat) (steps : list SimulationStep)
    (stats : SimulationStats) :
  runSimulation E fuel = Ok (steps, stats) ->
  exists st, reachW E (initialState E) st
             /\ steps = st_steps st /\ stats = finalStats E st.
Proof.
  unfold runSimulation.
  destruct (mainLoop E fuel (initialCursor E) (preSimWait E (initialState E)))
    as [[c st]| |] eqn:M; try discriminate.
  intros H; inversion H; subst. exists st. repeat split.
  eapply reachW_trans; [apply preSimWait_reachW|].
  eapply mainLoop_reachW; [exact M|].
  intros Ht. exact (resetToRoot_good E Ht).
Qed.

Lemma betOutcome_payout_nonneg (res : SpinResult) (b : PlacedBet) :
  0 <= amount b -> 0 <= o_payout (betOutcome res b).
Proof.
  intros Hb. unfold betOutcome; cbn [o_payout].
  destruct (isWin (number res) b); [|lia].
  assert (0 <= payoutMultiplier (bet_type b)) by (destruct (bet_type b); cbn; lia).
  nia.
Qed.

Lemma totalPayout_nonneg (res : SpinResult) (bs : list PlacedBet) :
  nonnegBets bs -> 0 <= fst (calculateDetailedOutcomes bs res).
Proof.
  intros H. rewrite calculateDetailedOutcomes_map. cbn [fst].
  induction H as [|b bs Hb Hbs IH]; cbn [fold_right]; [lia|].
  pose proof (betOutcome_payout_nonneg res b Hb). lia.
Qed.

Lemma reachW_ledger (st st' : RunState) :
  reachW E st st' ->
  Forall (entryWagerOK E) (st_steps st) ->
  Forall (entryWagerOK E) (st_steps st').
Proof.
  induction 1 as [|st st' bs a w Hr IH Hc Hw]; intros Hi; [exact Hi|].
  destruct (recordStep_pushes E _ _ _ _ Hc) as (Hs & _).
  rewrite Hs. apply Forall_app; split; [apply IH, Hi|].
  constructor; [|constructor]. exact Hw.
Qed.

Lemma reachW_bankroll_nonneg (st st' : RunState) :
  treeNonneg (rootNode (strategy E)) ->
  reachW E st st' ->
  0 <= st_bankroll st /\ Forall (fun s => 0 <= bankroll s) (st_steps st) ->
  0 <= st_bankroll st' /\ Forall (fun s => 0 <= bankroll s) (st_steps st').
Proof.
  intros Ht. induction 1 as [|st st' bs a w Hr IH Hc Hw]; intros Hi; [exact Hi|].
  destruct (IH Hi) as [Hb Hf].
  destruct (recordStep_pushes E _ _ _ _ Hc) as (Hs & Hbk & _).
  assert (He : 0 <= bankroll (entryOf st' (draw E st') bs a w)).
  { unfold entryOf; cbn [bankroll].
    destruct w; cbn [fst].
    - inversion Hc; subst. cbn. lia.
    - pose proof (totalPayout_nonneg (draw E st') bs (proj1 Hw Ht)) as Hp.
      pose proof (callSite_affordable E _ _ _ _ Hc) as Ha. cbn [negb andb] in Ha.
      rewrite Z.gtb_ltb in Ha. apply Z.ltb_ge in Ha. lia. }
  rewrite Hs, Hbk. split; [exact He|].
  apply Forall_app; split; [exact Hf|]. constructor; [exact He | constructor].
Qed.

End WagerRun.

(** X7. If no wager in the strategy tree has a negative amount and the
    initial bankroll is not negative, the bankroll is never negative: not
    in any ledger entry of a returned run, nor in its final statistics. *)
Theorem X7_bankroll_never_negative (E : RunInput) (fuel : nat)
    (steps : list SimulationStep) (stats : SimulationStats)
    (Htree : treeNonneg (rootNode (strategy E)))
    (Hinit : 0 <= initialBankroll E)
    (Hrun : runSimulation E fuel = Ok (steps, stats)) :
  Forall (fun s => 0 <= bankroll s) steps /\ 0 <= finalBankroll stats.
Proof.
  apply runSimulation_reachW in Hrun as (st & Hr & -> & ->).
  destruct (reachW_bankroll_nonneg E _ _ Htree Hr) as [H1 H2].
  - split; [exact Hinit | constructor].
  - split; [exact H2 | exact H1].
Qed.

Lemma X7_bankroll_never_negative_witness :
  treeNonneg (rootNode (strategy demoInput))
  /\ 0 <= initialBankroll demoInput
  /\ runSimulation demoInput 20 = Ok (demoSteps, demoStats)
  /\ Forall (fun s => 0 <= bankroll s) demoSteps.
Proof.
  assert (Ht : treeNonneg (rootNode (strategy demoInput))).
  { cbn. repeat split. constructor; [cbn; lia | constructor]. }
  assert (Hi : 0 <= initialBankroll demoInput) by (cbn; lia).
  assert (Hrun : runSimulation demoInput 20 = Ok (demoSteps, demoStats))
    by (vm_compute; reflexivity).
  split; [exact Ht|]. split; [exact Hi|]. split; [exact Hrun|].
  exact (proj1 (X7_bankroll_never_negative demoInput 20 demoSteps demoStats Ht Hi Hrun)).
Defined.

(** X8. Every spin of a martingale sequence respects the table maximum:
    the betTotal of an entry tagged MARTINGALE is at most [tableMax]. *)
Theorem X8_martingale_within_table_max (E : RunInput) (fuel : nat)
    (steps : list SimulationStep) (stats : SimulationStats)
    (Hrun : runSimulation E fuel = Ok (steps, stats))
    (s : SimulationStep) (m : Z) (Hin : In s steps)
    (Htag : actionType s = MARTINGALE_x m) :
  betTotal s <= tableMax (config E).
Proof.
  apply runSimulation_reachW in Hrun as (st & Hr & -> & ->).
  pose proof (reachW_ledger E _ _ Hr (Forall_nil _)) as Hf.
  rewrite Forall_forall in Hf. exact (proj2 (Hf s Hin) m Htag).
Qed.

Lemma X8_martingale_within_table_max_witness :
  runSimulation spinCountInput 20 = Ok (martSteps, martStats)
  /\ In martStep2 martSteps
  /\ actionType martStep2 = MARTINGALE_x 2
  /\ betTotal martStep2 <= tableMax (config spinCountInput).
Proof.
  assert (Hrun : runSimulation spinCountInput 20 = Ok (martSteps, martStats))
    by (vm_compute; reflexivity).
  assert (Hin : In martStep2 martSteps) by (right; left; reflexivity).
  assert (Htag : actionType martStep2 = MARTINGALE_x 2) by reflexivity.
  split; [exact Hrun|]. split; [exact Hin|]. split; [exact Htag|].
  exact (X8_martingale_within_table_max spinCountInput 20 martSteps martStats Hrun
           martStep2 2 Hin Htag).
Defined.

(** ** The wait-for-condition phase *)

Section WaitConditionFacts.

Variable E : RunInput.

Lemma waitCondition_run (cond : string) (k : nat) :
  forall st,
    exists added,
      st_steps (waitCondition E k cond st) = st_steps st ++ added
      /\ st_bankroll (waitCondition E k cond st) = st_bankroll st
      /\ (List.length added <= k)%nat
      /\ (1 <= k -> 1 <= List.length added)%nat
      /\ waitRun cond added
      /\ (List.length added = k
          \/ exists e, lastStep added = Some e /\ conditionMet cond (result e) = true).
Proof.
  induction k as [|k IH]; intros st; cbn [waitCondition].
  - exists []. rewrite app_nil_r. cbn. repeat split; lia.
  - cbv zeta.
    assert (Hc : callSite E st [] (WAITING_FOR (toUpperCase cond)) true)
      by now constructor.
    destruct (recordStep_pushes E _ _ _ _ Hc) as (Hs & Hb & _).
    set (st1 := snd (recordStep E st (draw E st) [] (WAITING_FOR (toUpperCase cond)) true)) in *.
    set (e := entryOf st (draw E st) [] (WAITING_FOR (toUpperCase cond)) true) in *.
    assert (Hb1 : st_bankroll st1 = st_bankroll st)
      by (rewrite Hb; unfold e, entryOf; cbn; lia).
    change ((String.eqb cond "red" && match color (draw E st) with red => true | _ => false end)
            || (String.eqb cond "black" && match color (draw E st) with black => true | _ => false end))
      with (conditionMet cond (draw E st)).
    destruct (conditionMet cond (draw E st)) eqn:Hm.
    + exists [e]. rewrite Hs. cbn [List.length waitRun].
      repeat split; try lia; try reflexivity; try assumption.
      * intros Hne; now contradiction Hne.
      * right. exists e. split; [reflexivity | exact Hm].
    + destruct (IH st1) as (added & H1 & H2 & H3 & H4 & H5 & H6).
      exists (e :: added). rewrite H1, Hs, <- app_assoc, H2, Hb1.
      cbn [app List.length waitRun]. repeat split; try lia; try reflexivity;
        try assumption.
      * intros _; exact Hm.
      * destruct H6 as [H6|(e' & He' & Hm')]; [left; lia|].
        right. exists e'. split; [|exact Hm'].
        unfold lastStep in *. cbn [rev].
        destruct (rev added) as [|x r]; [discriminate|]. exact He'.
Qed.

End WaitConditionFacts.

(** X9. When the root is a wait_condition node with a condition, the run
    starts with between 1 and 200 zero-wager entries tagged with the
    upper-cased condition; the condition (red or black showing) is met on
    none of them except possibly the last, the phase stops at the first
    entry that meets it, and otherwise after exactly 200 entries; the
    bankroll is unchanged. *)
Theorem X9_wait_condition_phase (E : RunInput) (cond : string)
    (Hty : node_type (rootNode (strategy E)) = wait_condition)
    (Hcond : truthyString (condition (rootNode (strategy E))) = Some cond) :
  exists added,
    st_steps (preSimWait E (initialState E)) = added
    /\ st_bankroll (preSimWait E (initialState E)) = initialBankroll E
    /\ (1 <= List.length added <= 200)%nat
    /\ waitRun cond added
    /\ (List.length added = 200%nat
        \/ exists e, lastStep added = Some e /\ conditionMet cond (result e) = true).
Proof.
  unfold preSimWait. rewrite Hty, Hcond.
  destruct (waitCondition_run E cond 200 (initialState E))
    as (added & H1 & H2 & H3 & H4 & H5 & H6).
  exists added.
  replace (match truthyZ (value (rootNode (strategy E))) with
           | Some _ | _ => waitCondition E 200 cond (initialState E) end)
    with (waitCondition E 200 cond (initialState E))
    by (destruct (truthyZ (value (rootNode (strategy E)))); reflexivity).
  repeat split; try assumption; try lia.
Qed.

Lemma X9_wait_condition_phase_witness :
  node_type (rootNode (strategy rootWaitInput)) = wait_condition
  /\ truthyString (condition (rootNode (strategy rootWaitInput))) = Some "red"%string
  /\ exists added,
       st_steps (preSimWait rootWaitInput (initialState rootWaitInput)) = added
       /\ (1 <= List.length added <= 200)%nat.
Proof.
  assert (H1 : node_type (rootNode (strategy rootWaitInput)) = wait_condition)
    by reflexivity.
  assert (H2 : truthyString (condition (rootNode (strategy rootWaitInput)))
               = Some "red"%string) by reflexivity.
  split; [exact H1|]. split; [exact H2|].
  destruct (X9_wait_condition_phase rootWaitInput "red" H1 H2)
    as (added & Ha & _ & Hl & _).
  exists added. split; assumption.
Defined.

(** X10. A wait_condition root whose condition is neither "red" nor
    "black" (for instance "green" or "even") can never be satisfied: the
    run always starts with exactly 200 wait entries, whatever the wheel
    shows. *)
Theorem X10_unknown_condition_waits_200 (E : RunInput) (cond : string)
    (Hty : node_type (rootNode (strategy E)) = wait_condition)
    (Hcond : truthyString (condition (rootNode (strategy E))) = Some cond)
    (Hred : cond <> "red"%string) (Hblack : cond <> "black"%string) :
  List.length (st_steps (preSimWait E (initialState E))) = 200%nat
  /\ Forall (fun s => actionType s = WAITING_FOR (toUpperCase cond))
       (st_steps (preSimWait E (initialState E))).
Proof.
  assert (Hnever : forall res, conditionMet cond res = false).
  { intros res. unfold conditionMet.
    apply String.eqb_neq in Hred, Hblack. now rewrite Hred, Hblack. }
  unfold preSimWait. rewrite Hty, Hcond.
  replace (match truthyZ (value (rootNode (strategy E))) with
           | Some _ | _ => waitCondition E 200 cond (initialState E) end)
    with (waitCondition E 200 cond (initialState E))
    by (destruct (truthyZ (value (rootNode (strategy E)))); reflexivity).
  destruct (waitCondition_run E cond 200 (initialState E))
    as (added & H1 & _ & _ & _ & H5 & H6).
  cbn [initialState st_steps app] in H1. rewrite H1. split.
  - destruct H6 as [H6|(e & _ & He)]; [exact H6|].
    rewrite Hnever in He. discriminate.
  - clear H1 H6. induction added as [|s l IH]; constructor.
    + exact (proj1 H5).
    + apply IH. exact (proj2 (proj2 (proj2 (proj2 H5)))).
Qed.

Lemma X10_unknown_condition_waits_200_witness :
  node_type (rootNode (strategy (greenWheelInput "green"))) = wait_condition
  /\ List.length (st_steps (preSimWait (greenWheelInput "green")
                              (initialState (greenWheelInput "green")))) = 200%nat.
Proof.
  assert (H1 : node_type (rootNode (strategy (greenWheelInput "green"))) = wait_condition)
    by reflexivity.
  assert (H2 : truthyString (condition (rootNode (strategy (greenWheelInput "green"))))
               = Some "green"%string) by reflexivity.
  assert (H3 : "green"%string <> "red"%string) by discriminate.
  assert (H4 : "green"%string <> "black"%string) by discriminate.
  split; [exact H1|].
  exact (proj1 (X10_unknown_condition_waits_200 (greenWheelInput "green") "green"
                  H1 H2 H3 H4)).
Defined.

(** ** The inner loops *)

Section InnerLoopFacts.

Variable E : RunInput.

Lemma martingaleLoop_returns (fuel : nat) (lt : MartingaleLimitType) (lv : Z)
    (base : list PlacedBet) (start : Z) :
  forall v st,
    Z.max 0 (maxSpins (config E) - st_spinsConsumed st) < Z.of_nat fuel ->
    exists r, martingaleLoop E fuel lt lv base start v st = Ok r.
Proof.
  induction fuel as [|fuel IH]; intros v st Hf; [lia|].
  cbn [martingaleLoop].
  destruct (martingaleActive v && (st_spinsConsumed st <? maxSpins (config E))
            && (st_bankroll st >? 0)) eqn:G; [|eexists; reflexivity].
  apply andb_prop in G as [G G3]. apply andb_prop in G as [_ G2].
  apply Z.ltb_lt in G2. apply Z.gtb_lt in G3.
  cbv zeta.
  destruct ((sumAmounts (scaleBets base (mv_multiplier v)) >? tableMax (config E))
            || (sumAmounts (scaleBets base (mv_multiplier v)) >? st_bankroll st)) eqn:T;
    [eexists; reflexivity|].
  apply orb_false_elim in T as [_ T2].
  rewrite Z.gtb_ltb in T2. apply Z.ltb_ge in T2.
  assert (Hc : callSite E st (scaleBets base (mv_multiplier v))
                 (MARTINGALE_x (mv_multiplier v)) false) by (constructor; lia).
  destruct (recordStep_entry E _ _ _ _ Hc) as (e & Hr & Hs & _ & Hn & _).
  rewrite Hr. cbn [fst snd negb]. rewrite Hs, lastStep_snoc.
  match goal with |- exists r, (if ?b then _ else _) = _ => destruct b end;
    [eexists; reflexivity|].
  apply IH. lia.
Qed.

Lemma repeatLoop_returns (fuel : nat) (rt : RepeatUntilType) (rv : Z)
    (base : list PlacedBet) (m start : Z) :
  forall v st,
    Z.max 0 (maxSpins (config E) - st_spinsConsumed st) < Z.of_nat fuel ->
    exists r, repeatLoop E fuel rt rv base m start v st = Ok r.
Proof.
  induction fuel as [|fuel IH]; intros v st Hf; [lia|].
  cbn [repeatLoop].
  destruct (loopActive v && (st_spinsConsumed st <? maxSpins (config E))
            && (st_bankroll st >? 0)) eqn:G; [|eexists; reflexivity].
  apply andb_prop in G as [G G3]. apply andb_prop in G as [_ G2].
  apply Z.ltb_lt in G2. apply Z.gtb_lt in G3.
  cbv zeta.
  destruct (snd (capToTableMax E (scaleBets base m)) >? st_bankroll st) eqn:T;
    [eexists; reflexivity|].
  rewrite Z.gtb_ltb in T. apply Z.ltb_ge in T. rewrite sumAmounts_capToTableMax in T.
  assert (Hc : callSite E st (fst (capToTableMax E (scaleBets base m))) (REPEAT rt) false)
    by (constructor; lia).
  destruct (recordStep_entry E _ _ _ _ Hc) as (e & _ & Hs & _ & Hn & _).
  rewrite Hs, lastStep_snoc. apply IH. lia.
Qed.

Lemma repeatLoop_inactive (fuel : nat) (rt : RepeatUntilType) (rv : Z)
    (base : list PlacedBet) (m start : Z) (v : RepeatVars) (st : RunState)
    (r : RepeatVars * RunState) :
  loopActive v = false ->
  repeatLoop E fuel rt rv base m start v st = Ok r -> r = (v, st).
Proof.
  intros Hv. destruct fuel as [|fuel]; cbn [repeatLoop]; [discriminate|].
  rewrite Hv. cbn [andb]. congruence.
Qed.

(** The entries of a repeat-until visit: the same wager every time, and
    with a spin target no more entries than the target. *)
Lemma repeatLoop_visit (rt : RepeatUntilType) (rv : Z) (base : list PlacedBet)
    (m start : Z) (fuel : nat) :
  forall v st v' st',
    repeatLoop E fuel rt rv base m start v st = Ok (v', st') ->
    loopActive v = true ->
    exists visit,
      st_steps st' = st_steps st ++ visit
      /\ Forall (fun s => actionType s = REPEAT rt
                          /\ bets s = fst (capToTableMax E (scaleBets base m))) visit
      /\ (rt = ru_spins ->
          Z.of_nat (List.length visit) <= Z.max 1 (rv - loopSpins v)).
Proof.
  induction fuel as [|fuel IH]; intros v st v' st' H Hact; cbn [repeatLoop] in H;
    [discriminate|].
  rewrite Hact in H. cbn [andb] in H.
  destruct ((st_spinsConsumed st <? maxSpins (config E)) && (st_bankroll st >? 0)) eqn:G.
  2:{ inversion H; subst. exists []. rewrite app_nil_r. cbn.
      repeat split; try constructor; lia. }
  apply andb_prop in G as [G2 G3]. apply Z.ltb_lt in G2. apply Z.gtb_lt in G3.
  cbv zeta in H.
  destruct (snd (capToTableMax E (scaleBets base m)) >? st_bankroll st) eqn:T.
  { inversion H; subst. exists []. rewrite app_nil_r. cbn.
    repeat split; try constructor; lia. }
  rewrite Z.gtb_ltb in T. apply Z.ltb_ge in T. rewrite sumAmounts_capToTableMax in T.
  assert (Hc : callSite E st (fst (capToTableMax E (scaleBets base m))) (REPEAT rt) false)
    by (constructor; lia).
  destruct (recordStep_pushes E _ _ _ _ Hc) as (Hs & _).
  set (e := entryOf st (draw E st) (fst (capToTableMax E (scaleBets base m)))
              (REPEAT rt) false) in *.
  rewrite Hs, lastStep_snoc in H.
  match type of H with
  | repeatLoop _ _ _ _ _ _ _ ?vv _ = _ => set (v1 := vv) in *
  end.
  destruct (loopActive v1) eqn:A1.
  - apply IH in H; [|exact A1].
    destruct H as (visit & H1 & H2 & H3).
    exists (e :: visit). split; [rewrite H1, Hs, <- app_assoc; reflexivity|].
    split; [constructor; [split; reflexivity | exact H2]|].
    intros Hrt. specialize (H3 Hrt). cbn [v1 loopSpins] in H3.
    assert (loopSpins v + 1 < rv).
    { subst rt. unfold v1 in A1. cbn [loopActive repeatExit] in A1.
      apply negb_true_iff in A1. rewrite Z.geb_leb in A1. apply Z.leb_gt in A1. lia. }
    cbn [List.length]. lia.
  - apply repeatLoop_inactive in H; [|exact A1].
    inversion H; subst. exists [e]. split; [exact Hs|].
    split; [constructor; [split; reflexivity | constructor]|].
    intros _. cbn [List.length]. lia.
Qed.

(** The entries of an until-bankrupt martingale visit. *)
Lemma untilBankrupt_visit (lv : Z) (base : list PlacedBet) (start : Z)
    (fuel : nat) :
  forall v st v' st',
    martingaleLoop E fuel until_bankrupt lv base start v st = Ok (v', st') ->
    martingaleActive v = true ->
    exists visit,
      st_steps st' = st_steps st ++ visit
      /\ doublingRun base (mv_multiplier v) visit.
Proof.
  induction fuel as [|fuel IH]; intros v st v' st' H Hact;
    cbn [martingaleLoop] in H; [discriminate|].
  rewrite Hact in H. cbn [andb] in H.
  destruct ((st_spinsConsumed st <? maxSpins (config E)) && (st_bankroll st >? 0)) eqn:G.
  2:{ inversion H; subst. exists []. rewrite app_nil_r. split; [reflexivity | exact I]. }
  apply andb_prop in G as [G2 G3]. apply Z.ltb_lt in G2. apply Z.gtb_lt in G3.
  cbv zeta in H.
  destruct ((sumAmounts (scaleBets base (mv_multiplier v)) >? tableMax (config E))
            || (sumAmounts (scaleBets base (mv_multiplier v)) >? st_bankroll st)) eqn:T.
  { inversion H; subst. exists []. rewrite app_nil_r. split; [reflexivity | exact I]. }
  apply orb_false_elim in T as [_ T2].
  rewrite Z.gtb_ltb in T2. apply Z.ltb_ge in T2.
  assert (Hc : callSite E st (scaleBets base (mv_multiplier v))
                 (MARTINGALE_x (mv_multiplier v)) false) by (constructor; lia).
  destruct (recordStep_pushes E _ _ _ _ Hc) as (Hs & _).
  destruct (recordStep_entry E _ _ _ _ Hc) as (e0 & Hr & _).
  set (e := entryOf st (draw E st) (scaleBets base (mv_multiplier v))
              (MARTINGALE_x (mv_multiplier v)) false) in *.
  rewrite Hr in H. cbn [fst snd negb] in H.
  rewrite Hs, lastStep_snoc in H.
  cbn [martingaleProgress] in H.
  destruct (won e) eqn:W; cbn [fst snd] in H.
  - (* a winning spin ends the visit *)
    assert (Hend : (v', st') = ({| martingaleActive := false;
                                  martingaleStepCount := martingaleStepCount v + 1;
                                  mv_multiplier := mv_multiplier v |},
                                snd (recordStep E st (draw E st)
                                       (scaleBets base (mv_multiplier v))
                                       (MARTINGALE_x (mv_multiplier v)) false))).
    { destruct (mv_multiplier v >? 10000); [congruence|].
      eapply (martingaleLoop_inactive E); [|exact H]. reflexivity. }
    inversion Hend; subst. exists [e]. split; [exact Hs|].
    cbn [doublingRun]. repeat split. intros Hne; now contradiction Hne.
  - destruct (mv_multiplier v * 2 >? 10000).
    + inversion H; subst. exists [e]. split; [exact Hs|].
      cbn [doublingRun]. repeat split. intros Hne; now contradiction Hne.
    + apply IH in H; [|reflexivity].
      destruct H as (visit & H1 & H2). cbn [mv_multiplier] in H2.
      exists (e :: visit). split; [rewrite H1, Hs, <- app_assoc; reflexivity|].
      cbn [doublingRun]. repeat split; [intros _; exact W | exact H2].
Qed.

End InnerLoopFacts.

(** X11. The two inner loops always end: started with more fuel than
    spins left in the budget, a martingale visit and a repeat-until visit
    both return, whatever their limit type, limit value, wagers and
    bankroll (each pass through either loop consumes a spin or leaves the
    loop). *)
Theorem X11_inner_loops_return (E : RunInput) (fuel : nat) (st : RunState)
    (Hfuel : Z.max 0 (maxSpins (config E) - st_spinsConsumed st) < Z.of_nat fuel) :
  (forall lt lv base start v,
      exists r, martingaleLoop E fuel lt lv base start v st = Ok r)
  /\ (forall rt rv base m start v,
         exists r, repeatLoop E fuel rt rv base m start v st = Ok r).
Proof.
  split.
  - intros. now apply martingaleLoop_returns.
  - intros. now apply repeatLoop_returns.
Qed.

Lemma X11_inner_loops_return_witness :
  Z.max 0 (maxSpins (config spinCountInput)
           - st_spinsConsumed (initialState spinCountInput)) < Z.of_nat 5
  /\ exists r, martingaleLoop spinCountInput 5 until_bankrupt 0 [straight17 10] 1000
                 spinCountStart (initialState spinCountInput) = Ok r.
Proof.
  assert (H : Z.max 0 (maxSpins (config spinCountInput)
                       - st_spinsConsumed (initialState spinCountInput)) < Z.of_nat 5)
    by (cbn; lia).
  split; [exact H|].
  exact (proj1 (X11_inner_loops_return spinCountInput 5 (initialState spinCountInput) H)
           until_bankrupt 0 [straight17 10] 1000 spinCountStart).
Defined.

(** X12. A repeat-until visit places the same wager at every spin (the
    base wagers times the multiplier, scaled down to the table maximum),
    each entry tagged with the repeat type; with a spin target N >= 1 the
    visit draws at most N spins. *)
Theorem X12_repeat_until_visit (E : RunInput) (fuel : nat) (rt : RepeatUntilType)
    (rv : Z) (base : list PlacedBet) (m start : Z) (st : RunState)
    (v' : RepeatVars) (st' : RunState)
    (Hpos : 1 <= rv)
    (Hvisit : repeatLoop E fuel rt rv base m start repeatStart st = Ok (v', st')) :
  exists visit,
    st_steps st' = st_steps st ++ visit
    /\ Forall (fun s => actionType s = REPEAT rt
                        /\ bets s = fst (capToTableMax E (scaleBets base m))) visit
    /\ (rt = ru_spins -> Z.of_nat (List.length visit) <= rv).
Proof.
  destruct (repeatLoop_visit E rt rv base m start fuel _ _ _ _ Hvisit eq_refl)
    as (visit & H1 & H2 & H3).
  exists visit. repeat split; try assumption.
  intros Hrt. specialize (H3 Hrt). cbn in H3. lia.
Qed.

Lemma X12_repeat_until_visit_witness :
  1 <= 3
  /\ exists v' st',
       repeatLoop spinCountInput 20 ru_spins 3 [straight17 10] 1 1000 repeatStart
         (initialState spinCountInput) = Ok (v', st')
       /\ exists visit,
            st_steps st' = st_steps (initialState spinCountInput) ++ visit
            /\ (ru_spins = ru_spins -> Z.of_nat (List.length visit) <= 3).
Proof.
  assert (Hpos : 1 <= 3) by lia.
  split; [exact Hpos|].
  destruct (repeatLoop spinCountInput 20 ru_spins 3 [straight17 10] 1 1000 repeatStart
              (initialState spinCountInput))
    as [[v' st']| |] eqn:H; [|vm_compute in H; discriminate ..].
  exists v', st'. split; [reflexivity|].
  destruct (X12_repeat_until_visit spinCountInput 20 ru_spins 3 [straight17 10] 1 1000
              (initialState spinCountInput) v' st' Hpos H) as (visit & H1 & _ & H3).
  exists visit. split; assumption.
Defined.

(** X13. In an until-bankrupt martingale visit every spin wagers the base
    wagers times the multiplier in force, the multiplier doubles from each
    spin to the next, and only the last spin of the visit can be a win: the
    sequence stops at its first winning spin. *)
Theorem X13_until_bankrupt_visit (E : RunInput) (fuel : nat) (lv : Z)
    (base : list PlacedBet) (start m : Z) (st : RunState)
    (v' : MartingaleVars) (st' : RunState)
    (Hvisit : martingaleLoop E fuel until_bankrupt lv base start
                (untilBankruptStart m) st = Ok (v', st')) :
  exists visit,
    st_steps st' = st_steps st ++ visit /\ doublingRun base m visit.
Proof.
  destruct (untilBankrupt_visit E lv base start fuel _ _ _ _ Hvisit eq_refl)
    as (visit & H1 & H2).
  exists visit. split; [exact H1 | exact H2].
Qed.

Lemma X13_until_bankrupt_visit_witness :
  exists v' st',
    martingaleLoop stopLossInput 20 until_bankrupt 0 [straight17 10] 100
      (untilBankruptStart 1) (initialState stopLossInput) = Ok (v', st')
    /\ exists visit,
         st_steps st' = st_steps (initialState stopLossInput) ++ visit
         /\ doublingRun [straight17 10] 1 visit.
Proof.
  destruct (martingaleLoop stopLossInput 20 until_bankrupt 0 [straight17 10] 100
              (untilBankruptStart 1) (initialState stopLossInput))
    as [[v' st']| |] eqn:H; [|vm_compute in H; discriminate ..].
  exists v', st'. split; [reflexivity|].
  exact (X13_until_bankrupt_visit stopLossInput 20 0 [straight17 10] 100 1
           (initialState stopLossInput) v' st' H).
Defined.

(** * The wagers of the betting table *)

Lemma isWin_spotWager (p : Pocket) (id : string) (chip : Z) (s : Spot) :
  isWin p (spotWager id chip s) = isWin p (spotWager EmptyString 0 s).
Proof. reflexivity. Qed.

Lemma rawSpins_range (raw : Z) : 0 <= raw <= 37 -> In raw rawSpins.
Proof.
  intros H. unfold rawSpins, arrayFrom. apply in_map_iff.
  exists (Z.to_nat raw). split; [lia|]. apply in_seq. lia.
Qed.

Lemma getResultValue_generateSpin (raw : Z) :
  getResultValue (number (generateSpin raw)) = raw.
Proof.
  unfold generateSpin; cbn [number].
  destruct (Z.eqb_spec raw 37) as [->|_]; reflexivity.
Qed.

(** The net over a list of draws, from the number of winning draws. *)
Lemma net_over_draws (bet : PlacedBet) (l : list Z) :
  fold_right (fun raw acc => o_net (betOutcome (generateSpin raw) bet) + acc) 0 l
  = amount bet
    * (payoutMultiplier (bet_type bet)
       * Z.of_nat (List.length (filter (fun raw => isWin (number (generateSpin raw)) bet) l))
       - (Z.of_nat (List.length l)
          - Z.of_nat (List.length (filter (fun raw => isWin (number (generateSpin raw)) bet) l)))).
Proof.
  induction l as [|raw l IH]; cbn [fold_right filter List.length]; [lia|].
  rewrite IH. unfold betOutcome at 1. cbn [o_net].
  destruct (isWin (number (generateSpin raw)) bet); cbn [List.length]; nia.
Qed.

Lemma rawSpins_length : List.length rawSpins = 38%nat.
Proof. reflexivity. Qed.

Lemma netOverWheel_formula (bet : PlacedBet) :
  netOverWheel bet
  = amount bet
    * (payoutMultiplier (bet_type bet) * winningPockets bet
       - (38 - winningPockets bet)).
Proof.
  unfold netOverWheel, winningPockets. rewrite net_over_draws, rawSpins_length.
  reflexivity.
Qed.

Lemma winningPockets_spotWager (id : string) (chip : Z) (s : Spot) :
  winningPockets (spotWager id chip s) = winningPockets (spotWager EmptyString 0 s).
Proof.
  unfold winningPockets.
  rewrite (filter_ext _ _ (fun raw => isWin_spotWager (number (generateSpin raw)) id chip s)).
  reflexivity.
Qed.

Lemma tableSpots_checked :
  forallb
    (fun s =>
       (payoutMultiplier (spot_type s) * winningPockets (spotWager EmptyString 0 s)
        - (38 - winningPockets (spotWager EmptyString 0 s))
        =? match spot_type s with BASKET => -3 | _ => -2 end)
       && forallb
            (fun raw =>
               match spot_numbers s with
               | [] => true
               | _ :: _ =>
                   Bool.eqb (isWin (number (generateSpin raw)) (spotWager EmptyString 0 s))
                            (includes (spot_numbers s) raw)
               end)
            rawSpins)
    tableSpots = true.
Proof. vm_compute. reflexivity. Qed.

(** X14. For every wager the betting table can place that carries a
    number set (all but Red, Black, Even and Odd), the resolver's verdict
    on each of the 38 pockets is membership of the pocket's value in that
    set: the label rules used for dozens, halves and the basket agree with
    the numbers the table attaches. *)
Theorem X14_table_wager_numbers_decide (id : string) (chip : Z) (s : Spot)
    (raw : Z) (Hspot : In s tableSpots) (Hnums : spot_numbers s <> [])
    (Hraw : 0 <= raw <= 37) :
  isWin (number (generateSpin raw)) (spotWager id chip s)
  = includes (numbers (spotWager id chip s)) (getResultValue (number (generateSpin raw))).
Proof.
  rewrite getResultValue_generateSpin, isWin_spotWager. cbn [numbers spotWager].
  pose proof tableSpots_checked as Hall.
  rewrite forallb_forall in Hall. specialize (Hall s Hspot).
  apply andb_prop in Hall as [_ Hall].
  rewrite forallb_forall in Hall. specialize (Hall raw (rawSpins_range raw Hraw)).
  destruct (spot_numbers s) as [|x l]; [now contradiction Hnums|].
  now apply Bool.eqb_prop in Hall.
Qed.

Lemma X14_table_wager_numbers_decide_witness :
  In (mkSpot DOZEN (arrayFrom 12 (fun i => 1 + i)) "1st 12") tableSpots
  /\ isWin (number (generateSpin 5))
       (spotWager "b" 10 (mkSpot DOZEN (arrayFrom 12 (fun i => 1 + i)) "1st 12"))
     = true.
Proof.
  assert (Hin : In (mkSpot DOZEN (arrayFrom 12 (fun i => 1 + i)) "1st 12") tableSpots).
  { unfold tableSpots. apply in_or_app; right. apply in_or_app; right.
    apply in_or_app; left. left. reflexivity. }
  assert (Hn : spot_numbers (mkSpot DOZEN (arrayFrom 12 (fun i => 1 + i)) "1st 12") <> [])
    by discriminate.
  assert (Hr : 0 <= 5 <= 37) by lia.
  split; [exact Hin|].
  rewrite (X14_table_wager_numbers_decide "b" 10 _ 5 Hin Hn Hr). reflexivity.
Defined.

(** X15. Summed over the 38 pockets, the net of any wager the table can
    place is minus twice its stake (a house edge of 2/38), except the
    five-number basket, whose net is minus three times its stake (3/38). *)
Theorem X15_table_wager_house_edge (id : string) (chip : Z) (s : Spot)
    (Hspot : In s tableSpots) :
  netOverWheel (spotWager id chip s)
  = match spot_type s with BASKET => -3 * chip | _ => -2 * chip end.
Proof.
  rewrite netOverWheel_formula, winningPockets_spotWager.
  cbn [amount bet_type spotWager].
  pose proof tableSpots_checked as Hall.
  rewrite forallb_forall in Hall. specialize (Hall s Hspot).
  apply andb_prop in Hall as [Hall _]. apply Z.eqb_eq in Hall.
  rewrite Hall. destruct (spot_type s); lia.
Qed.

Lemma X15_table_wager_house_edge_witness :
  In (mkSpot BASKET [0; 37; 1; 2; 3] "Basket") tableSpots
  /\ netOverWheel (spotWager "b" 10 (mkSpot BASKET [0; 37; 1; 2; 3] "Basket")) = -30.
Proof.
  assert (Hin : In (mkSpot BASKET [0; 37; 1; 2; 3] "Basket") tableSpots)
    by (right; right; right; left; reflexivity).
  split; [exact Hin|].
  exact (X15_table_wager_house_edge "b" 10 _ Hin).
Defined.

(** * The payout estimate of the strategy builder *)

Lemma number_generateSpin (raw : Z) :
  number (generateSpin raw) = if raw =? 37 then DoubleZero else Num raw.
Proof. reflexivity. Qed.

Ltac split_label bet :=
  unfold label_is, opt_string_eqb;
  destruct (label bet) as [lbl|]; [|reflexivity];
  repeat match goal with
         | |- context [String.eqb lbl ?s] =>
             destruct (String.eqb_spec lbl s); [subst lbl; cbn [String.eqb Ascii.eqb Bool.eqb] |]
         end.

Ltac split_compare :=
  rewrite ?Z.geb_leb;
  repeat match goal with
         | |- context [?a <=? ?b] => destruct (Z.leb_spec a b)
         | |- context [?a =? ?b] => destruct (Z.eqb_spec a b)
         end;
  cbn [andb orb negb]; try reflexivity; try lia.

(** The estimator and the engine resolve a wager alike on each pocket. *)
Lemma estimatorHit_isWin (raw : Z) (bet : PlacedBet) :
  0 <= raw <= 37 ->
  estimatorHit raw bet = isWin (number (generateSpin raw)) bet.
Proof.
  intros Hr. unfold estimatorHit, isWin.
  rewrite getResultValue_generateSpin, number_generateSpin. cbv zeta.
  destruct (bet_type bet); try reflexivity;
    try (destruct (includes (numbers bet) raw); reflexivity).
  - (* COLUMN *)
    destruct ((raw =? 0) || (raw =? 37)) eqn:Z0; [reflexivity|].
    apply orb_false_elim in Z0 as [Z1 Z2]. rewrite Z1, Z2.
    destruct (Z.of_nat (List.length (numbers bet)) >? 0); [reflexivity|].
    split_label bet; cbn [andb negb];
      repeat match goal with |- context [if ?b then true else false] => destruct b end;
      reflexivity.
  - (* DOZEN *)
    destruct ((raw =? 0) || (raw =? 37)) eqn:Z0; [reflexivity|].
    apply orb_false_elim in Z0 as [Z1 Z2].
    apply Z.eqb_neq in Z1, Z2.
    split_label bet; cbn [andb negb]; split_compare.
  - (* EVEN_ODD *)
    destruct ((raw =? 0) || (raw =? 37)); [reflexivity|].
    split_label bet; cbn [andb orb negb];
      destruct (Z.rem raw 2 =? 0); reflexivity.
  - (* HIGH_LOW *)
    destruct ((raw =? 0) || (raw =? 37)) eqn:Z0; [reflexivity|].
    apply orb_false_elim in Z0 as [Z1 Z2].
    apply Z.eqb_neq in Z1, Z2.
    split_label bet; cbn [andb negb]; split_compare.
Qed.

Lemma estimatorRatio_payoutMultiplier (t : BetType) :
  estimatorRatio t = payoutMultiplier t.
Proof. destruct t; reflexivity. Qed.

Lemma estimatedSpinPayout_acc (bets : list PlacedBet) (m raw : Z) :
  0 <= raw <= 37 ->
  forall acc,
    fold_left
      (fun acc bet =>
         if estimatorHit raw bet
         then acc + (amount bet * m + amount bet * m * estimatorRatio (bet_type bet))
         else acc) bets acc
    = acc + fold_right
              (fun b s => o_payout (betOutcome (generateSpin raw) b) + s) 0
              (scaleBets bets m).
Proof.
  intros Hr. induction bets as [|b bets IH]; intros acc;
    cbn [fold_left scaleBets map fold_right]; [lia|].
  rewrite IH. fold (scaleBets bets m).
  rewrite (estimatorHit_isWin raw b Hr), estimatorRatio_payoutMultiplier.
  unfold betOutcome at 2. cbn [o_payout].
  change (isWin (number (generateSpin raw)) (setAmount b (amount b * m)))
    with (isWin (number (generateSpin raw)) b).
  cbn [amount bet_type setAmount].
  destruct (isWin (number (generateSpin raw)) b); lia.
Qed.

Lemma estimate_totalWager (bets : list PlacedBet) (m : Z) :
  forall acc,
    fold_left (fun s b => s + amount b * m) bets acc
    = acc + sumAmounts (scaleBets bets m).
Proof.
  induction bets as [|b bets IH]; intros acc; cbn [fold_left scaleBets map];
    [unfold sumAmounts; cbn; lia|].
  rewrite IH. fold (scaleBets bets m).
  unfold sumAmounts at 2. cbn [fold_left].
  rewrite (sumAmounts_acc (scaleBets bets m)). cbn [amount setAmount]. lia.
Qed.

Lemma fold_max_bound (f : Z -> Z) (l : list Z) :
  forall mx,
    mx <= fold_left (fun mx i => if f i >? mx then f i else mx) l mx
    /\ forall i, In i l ->
         f i <= fold_left (fun mx i => if f i >? mx then f i else mx) l mx.
Proof.
  induction l as [|x l IH]; intros mx; cbn [fold_left].
  - split; [lia | intros i []].
  - destruct (IH (if f x >? mx then f x else mx)) as [H1 H2].
    destruct (Z.gtb_spec (f x) mx); split; try lia;
      intros i [->|Hi]; try lia; now apply H2.
Qed.

(** X16. For each of the 38 pockets the strategy builder's estimator
    computes, for a wager set and multiplier, exactly the gross payout the
    engine pays on that pocket for the scaled wagers, and its total wager
    is the engine's betTotal: the two separately written resolvers agree. *)
Theorem X16_estimator_agrees_with_engine (bets : list PlacedBet) (m raw : Z)
    (Hraw : 0 <= raw <= 37) :
  estimatedSpinPayout bets m raw
  = fst (calculateDetailedOutcomes (scaleBets bets m) (generateSpin raw))
  /\ totalWager (calculateEstimatedOutcomes bets m) = sumAmounts (scaleBets bets m).
Proof.
  split.
  - unfold estimatedSpinPayout.
    rewrite (estimatedSpinPayout_acc bets m raw Hraw), calculateDetailedOutcomes_map.
    cbn [fst]. lia.
  - unfold calculateEstimatedOutcomes. cbn [totalWager].
    rewrite estimate_totalWager. lia.
Qed.

Lemma X16_estimator_agrees_with_engine_witness :
  0 <= 17 <= 37
  /\ estimatedSpinPayout [straight17 5] 2 17 = 360.
Proof.
  assert (H : 0 <= 17 <= 37) by lia.
  split; [exact H|].
  rewrite (proj1 (X16_estimator_agrees_with_engine [straight17 5] 2 17 H)).
  reflexivity.
Defined.

(** X17. The win and loss figures the builder shows for a node bracket
    every real spin: when no wager amount and not the multiplier is
    negative, the net of one engine spin on the node's scaled wagers lies
    between the estimated loss and the estimated win, whichever of the 38
    pockets comes up. *)
Theorem X17_estimate_brackets_spin (bets : list PlacedBet) (m raw : Z)
    (Hraw : 0 <= raw <= 37)
    (Hbets : nonnegBets bets) (Hm : 0 <= m) :
  lossDelta (calculateEstimatedOutcomes bets m) <= spinNet bets m raw
  /\ spinNet bets m raw <= winDelta (calculateEstimatedOutcomes bets m).
Proof.
  unfold spinNet, calculateEstimatedOutcomes. cbn [winDelta lossDelta].
  rewrite estimate_totalWager.
  destruct (fold_max_bound (estimatedSpinPayout bets m) rawSpins 0) as [_ Hmax].
  specialize (Hmax raw (rawSpins_range raw Hraw)).
  unfold estimatedSpinPayout in Hmax at 1.
  rewrite (estimatedSpinPayout_acc bets m raw Hraw) in Hmax.
  pose proof (totalPayout_nonneg (generateSpin raw) (scaleBets bets m)
                (nonnegBets_scale bets m Hbets Hm)) as Hp.
  rewrite calculateDetailedOutcomes_map in *. cbn [fst] in *.
  fold (estimatedSpinPayout bets m) in Hmax |- *.
  lia.
Qed.

Lemma X17_estimate_brackets_spin_witness :
  0 <= 17 <= 37
  /\ nonnegBets [straight17 5]
  /\ 0 <= 2
  /\ spinNet [straight17 5] 2 17 <= winDelta (calculateEstimatedOutcomes [straight17 5] 2).
Proof.
  assert (H : 0 <= 17 <= 37) by lia.
  assert (Hn : nonnegBets [straight17 5]) by (constructor; [cbn; lia | constructor]).
  assert (Hm : 0 <= 2) by lia.
  split; [exact H|]. split; [exact Hn|]. split; [exact Hm|].
  exact (proj2 (X17_estimate_brackets_spin [straight17 5] 2 17 H Hn Hm)).
Defined.

(** * The betting table and its editor *)

From Stdlib Require Import Permutation.

Lemma BetType_eqb_eq (a b : BetType) : BetType_eqb a b = true <-> a = b.
Proof. destruct a, b; cbn; split; intros H; try reflexivity; discriminate. Qed.

Lemma insertAscending_perm (x : Z) (l : list Z) :
  Permutation (x :: l) (insertAscending x l).
Proof.
  induction l as [|y l IH]; cbn [insertAscending]; [reflexivity|].
  destruct (x <=? y); [reflexivity|].
  rewrite perm_swap. now apply perm_skip.
Qed.

Lemma sortAscending_perm (l : list Z) : Permutation l (sortAscending l).
Proof.
  induction l as [|x l IH]; cbn [sortAscending fold_right]; [reflexivity|].
  rewrite <- insertAscending_perm. now apply perm_skip.
Qed.

Lemma insertAscending_comm (x y : Z) (l : list Z) :
  insertAscending x (insertAscending y l) = insertAscending y (insertAscending x l).
Proof.
  induction l as [|z l IH]; cbn [insertAscending].
  - destruct (Z.leb_spec x y), (Z.leb_spec y x); try reflexivity; try lia.
    now replace y with x by lia.
  - destruct (Z.leb_spec y z), (Z.leb_spec x z); cbn [insertAscending];
      repeat match goal with
             | |- context [?a <=? ?b] => destruct (Z.leb_spec a b)
             end;
      try lia; try reflexivity.
    + now replace y with x by lia.
    + now rewrite IH.
Qed.

Lemma sortAscending_permutation (l l' : list Z) :
  Permutation l l' -> sortAscending l = sortAscending l'.
Proof.
  induction 1 as [|x l l' _ IH|x y l|l l' l'' _ IH1 _ IH2];
    cbn [sortAscending fold_right].
  - reflexivity.
  - unfold sortAscending in IH. now rewrite IH.
  - apply insertAscending_comm.
  - now rewrite IH1.
Qed.

Lemma everyAt_eq (a : list Z) :
  forall (pre b : list Z),
    List.length a = List.length b ->
    (everyAt a (pre ++ b) (List.length pre) = true <-> a = b).
Proof.
  induction a as [|v a IH]; intros pre b Hl; destruct b as [|w b]; try discriminate.
  - cbn. tauto.
  - cbn [everyAt]. rewrite nth_error_app2 by lia. rewrite Nat.sub_diag. cbn [nth_error].
    injection Hl as Hl.
    specialize (IH (pre ++ [w]) b Hl).
    rewrite <- app_assoc, length_app in IH. cbn [app List.length] in IH.
    rewrite Nat.add_1_r in IH.
    rewrite andb_true_iff, IH, Z.eqb_eq.
    split; [intros [-> ->]; reflexivity | intros H; now inversion H].
Qed.

Lemma stackFilter_spotWager (t : BetType) (nums : list Z) (lbl : option string)
    (id : string) (chip : Z) (s : Spot) :
  stackFilter t nums lbl (spotWager id chip s)
  = stackFilter t nums lbl (spotWager EmptyString 0 s).
Proof. reflexivity. Qed.

Lemma tableSpots_apart_checked :
  forallb (fun i => forallb (spotsApart i) (seq 0 154)) (seq 0 154) = true.
Proof. vm_compute. reflexivity. Qed.

Lemma tableSpots_length : List.length tableSpots = 154%nat.
Proof. reflexivity. Qed.

Lemma sumAmounts_app (l l' : list PlacedBet) :
  sumAmounts (l ++ l') = sumAmounts l + sumAmounts l'.
Proof.
  unfold sumAmounts. rewrite fold_left_app.
  rewrite (sumAmounts_acc l'). unfold sumAmounts. lia.
Qed.

(** X18. A placed wager belongs to the chip stack drawn for (type, numbers,
    label) exactly when it has that type, carries that label (any label if
    the stack is asked for without one or with the empty one), and its
    numbers are a rearrangement of the stack's numbers. *)
Theorem X18_chip_stack_membership (type : BetType) (nums : list Z)
    (lbl : option string) (b : PlacedBet) :
  stackFilter type nums lbl b = true
  <-> bet_type b = type
      /\ (truthy lbl = true -> label b = lbl)
      /\ Permutation (numbers b) nums.
Proof.
  unfold stackFilter.
  destruct (BetType_eqb (bet_type b) type) eqn:Ht; cbn [negb].
  2:{ split; [discriminate|]. intros [H _]. apply BetType_eqb_eq in H. congruence. }
  apply BetType_eqb_eq in Ht.
  assert (Hlbl : truthy lbl && negb (opt_string_eqb (label b) lbl) = false
                 <-> (truthy lbl = true -> label b = lbl)).
  { destruct lbl as [[|c l]|]; cbn [truthy andb]; try (split; [discriminate|reflexivity]).
    unfold opt_string_eqb. destruct (label b) as [x|]; cbn [negb].
    - destruct (String.eqb_spec x (String c l)); cbn [negb]; split; intros H;
        try reflexivity; try discriminate; try congruence.
      specialize (H eq_refl). congruence.
    - split; [discriminate|]. intros H. specialize (H eq_refl). discriminate. }
  destruct (truthy lbl && negb (opt_string_eqb (label b) lbl)) eqn:Hl.
  { split; [discriminate|]. intros (_ & H & _). apply Hlbl in H. discriminate. }
  destruct (Nat.eqb_spec (List.length (numbers b)) (List.length nums)) as [Hn|Hn];
    cbn [negb].
  2:{ split; [discriminate|]. intros (_ & _ & H).
      apply Permutation_length in H. contradiction. }
  assert (Hs : List.length (sortAscending (numbers b)) = List.length (sortAscending nums)).
  { rewrite <- (Permutation_length (sortAscending_perm (numbers b))).
    rewrite <- (Permutation_length (sortAscending_perm nums)). exact Hn. }
  rewrite (everyAt_eq (sortAscending (numbers b)) [] (sortAscending nums) Hs).
  split.
  - intros H. split; [exact Ht|]. split; [now apply Hlbl|].
    rewrite (sortAscending_perm (numbers b)), H. symmetry. apply sortAscending_perm.
  - intros (_ & _ & H). now apply sortAscending_permutation.
Qed.

(** X19. A chip the editor accepts on one of the 154 spots of the table is
    drawn on top of that spot's stack and adds its value to that spot's
    badge, and the stack of every other spot stays as it was: no two spots
    of the table share a stack. *)
Theorem X19_chip_lands_on_its_spot (startBankroll chip : Z)
    (placed : list PlacedBet) (id : string) (i j : nat) (s s' : Spot)
    (Hs : nth_error tableSpots i = Some s)
    (Hs' : nth_error tableSpots j = Some s')
    (Hafford : chip <= startBankroll - sumAmounts placed) :
  let placed' :=
    handlePlaceBet startBankroll placed id (spot_type s) (spot_numbers s) chip
      (Some (spot_label s)) in
  (i <> j -> spotStack placed' s' = spotStack placed s')
  /\ (exists st below,
        spotStack placed' s = Some st
        /\ visibleBets st = below ++ [spotWager id chip s]
        /\ stackTotal st = stackTotalAt placed s + chip).
Proof.
  cbv zeta. unfold handlePlaceBet.
  destruct (Z.ltb_spec (startBankroll - sumAmounts placed) chip) as [Hlt|_]; [lia|].
  change {| bet_id := id; bet_type := spot_type s; numbers := spot_numbers s;
            amount := chip; label := Some (spot_label s) |}
    with (spotWager id chip s).
  assert (Hap : forall a b sa sb,
             nth_error tableSpots a = Some sa -> nth_error tableSpots b = Some sb ->
             stackFilter (spot_type sb) (spot_numbers sb) (Some (spot_label sb))
               (spotWager id chip sa) = Nat.eqb a b).
  { intros a b sa sb Ha Hb.
    pose proof tableSpots_apart_checked as Hall.
    rewrite forallb_forall in Hall.
    assert (La : (a < 154)%nat)
      by (rewrite <- tableSpots_length; apply nth_error_Some; congruence).
    assert (Lb : (b < 154)%nat)
      by (rewrite <- tableSpots_length; apply nth_error_Some; congruence).
    specialize (Hall a ltac:(apply in_seq; lia)).
    rewrite forallb_forall in Hall.
    specialize (Hall b ltac:(apply in_seq; lia)).
    unfold spotsApart in Hall. rewrite Ha, Hb in Hall.
    apply Bool.eqb_prop in Hall. rewrite stackFilter_spotWager. exact Hall. }
  split.
  - intros Hij. unfold spotStack, getChipStack.
    rewrite filter_app. cbn [filter].
    rewrite (Hap i j s s' Hs Hs').
    destruct (Nat.eqb_spec i j) as [->|_]; [contradiction|].
    now rewrite app_nil_r.
  - unfold stackTotalAt, spotStack, getChipStack.
    rewrite filter_app. cbn [filter].
    rewrite (Hap i i s s Hs Hs), Nat.eqb_refl.
    set (old := filter (stackFilter (spot_type s) (spot_numbers s)
                          (Some (spot_label s))) placed).
    rewrite length_app. cbn [List.length].
    replace (List.length old + 1)%nat with (S (List.length old)) by lia.
    cbn [Nat.eqb]. eexists. exists (skipn (S (List.length old) - 10) old).
    split; [reflexivity|]. cbn [visibleBets stackTotal].
    split.
    + rewrite skipn_app.
      replace (S (List.length old) - 10 - List.length old)%nat with 0%nat by lia.
      reflexivity.
    + rewrite sumAmounts_app.
      replace (sumAmounts [spotWager id chip s]) with chip by (unfold sumAmounts; cbn; lia).
      destruct old as [|o old']; cbn [List.length Nat.eqb stackTotal];
        [unfold sumAmounts; cbn; lia | lia].
Qed.

Lemma X19_chip_lands_on_its_spot_witness :
  nth_error tableSpots 0 = Some (mkSpot STRAIGHT [0] "0")
  /\ nth_error tableSpots 2 = Some (mkSpot STRAIGHT [37] "00")
  /\ 5 <= 100 - sumAmounts []
  /\ spotStack
       (handlePlaceBet 100 [] "a" STRAIGHT [0] 5 (Some "0"%string))
       (mkSpot STRAIGHT [37] "00")
     = None.
Proof.
  assert (H0 : nth_error tableSpots 0 = Some (mkSpot STRAIGHT [0] "0")) by reflexivity.
  assert (H2 : nth_error tableSpots 2 = Some (mkSpot STRAIGHT [37] "00")) by reflexivity.
  assert (Ha : 5 <= 100 - sumAmounts []) by (unfold sumAmounts; cbn; lia).
  assert (Hne : 0%nat <> 2%nat) by discriminate.
  split; [exact H0|]. split; [exact H2|]. split; [exact Ha|].
  exact (proj1 (X19_chip_lands_on_its_spot 100 5 [] "a" 0 2 _ _ H0 H2 Ha) Hne).
Defined.

Lemma sumAmounts_nonneg (l : list PlacedBet) : nonnegBets l -> 0 <= sumAmounts l.
Proof.
  induction 1 as [|b l Hb _ IH]; [unfold sumAmounts; cbn; lia|].
  change (b :: l) with ([b] ++ l). rewrite sumAmounts_app.
  unfold sumAmounts at 1. cbn [fold_left]. lia.
Qed.

Lemma modalStep_budget (startBankroll : Z) (st : ModalState) (ev : TableEvent) :
  nonnegBets (tempBets st) ->
  sumAmounts (tempBets st) <= startBankroll ->
  nonnegBets (tempBets (modalStep startBankroll st ev))
  /\ sumAmounts (tempBets (modalStep startBankroll st ev)) <= startBankroll.
Proof.
  intros Hn Hs. destruct ev as [s id|c| |]; cbn [modalStep tempBets].
  - unfold handlePlaceBet.
    destruct (Z.ltb_spec (startBankroll - sumAmounts (tempBets st))
                (chipAmount (selectedChip st))) as [_|Hok]; [now split|].
    split.
    + apply Forall_app. split; [exact Hn|]. constructor; [|constructor].
      cbn [amount]. destruct (selectedChip st); cbn; lia.
    + rewrite sumAmounts_app. unfold sumAmounts at 2. cbn [fold_left amount]. lia.
  - now split.
  - destruct (tempBets st) as [|b0 l0]; [now split|].
    destruct (@exists_last _ (b0 :: l0)) as (l & b & Heq); [discriminate|].
    rewrite Heq in *. rewrite removelast_last.
    apply Forall_app in Hn as [Hl Hlast]. inversion Hlast; subst.
    split; [exact Hl|].
    rewrite sumAmounts_app in Hs. unfold sumAmounts at 2 in Hs.
    cbn [fold_left] in Hs. lia.
  - pose proof (sumAmounts_nonneg _ Hn).
    split; [constructor | unfold sumAmounts; cbn; lia].
Qed.

(** X20. Whatever the user does in the open wager editor (clicking spots,
    changing the chip, undo, clear), the total of the wagers on the table
    never exceeds the simulation's starting bankroll, provided the wagers
    the editor was opened on did not and held no negative amount. *)
Theorem X20_editor_total_within_bankroll (startBankroll : Z)
    (initialBets : list PlacedBet) (events : list TableEvent)
    (Hnonneg : nonnegBets initialBets)
    (Hfits : sumAmounts initialBets <= startBankroll) :
  sumAmounts (tempBets (modalRun startBankroll initialBets events)) <= startBankroll
  /\ nonnegBets (tempBets (modalRun startBankroll initialBets events)).
Proof.
  unfold modalRun.
  assert (G : forall st,
             nonnegBets (tempBets st) -> sumAmounts (tempBets st) <= startBankroll ->
             sumAmounts (tempBets (fold_left (modalStep startBankroll) events st))
               <= startBankroll
             /\ nonnegBets (tempBets (fold_left (modalStep startBankroll) events st))).
  { induction events as [|ev events IH]; intros st Hn Hs; cbn [fold_left];
      [now split|].
    destruct (modalStep_budget startBankroll st ev Hn Hs) as [Hn' Hs'].
    now apply IH. }
  now apply G.
Qed.

Lemma X20_editor_total_within_bankroll_witness :
  nonnegBets [straight17 5]
  /\ sumAmounts [straight17 5] <= 12
  /\ sumAmounts
       (tempBets
          (modalRun 12 [straight17 5]
             [ClickSpot (mkSpot RED_BLACK [] "Red") "a";
              ClickSpot (mkSpot RED_BLACK [] "Red") "b"; Undo;
              SelectChip ONE;
              ClickSpot (mkSpot EVEN_ODD [] "Odd") "c"])) <= 12.
Proof.
  assert (Hn : nonnegBets [straight17 5])
    by (constructor; [cbn; lia | constructor]).
  assert (Hs : sumAmounts [straight17 5] <= 12) by (unfold sumAmounts; cbn; lia).
  split; [exact Hn|]. split; [exact Hs|].
  exact (proj1 (X20_editor_total_within_bankroll 12 [straight17 5] _ Hn Hs)).
Defined.

(** * A batch of simulations *)

From Stdlib Require Import Sorted.

Lemma runAll_length (E : RunInput) (fuel : nat) (n : nat) :
  forall offset runs, runAll E fuel n offset = Ok runs -> List.length runs = n.
Proof.
  induction n as [|n IH]; intros offset runs H; cbn [runAll] in H.
  - now inversion H.
  - destruct (runSimulation _ fuel) as [r| |]; try discriminate.
    destruct (runAll E fuel n _) as [rest| |] eqn:R; try discriminate.
    inversion H; subst. cbn [List.length]. f_equal. exact (IH _ _ R).
Qed.

Lemma runAll_genuine (E : RunInput) (fuel : nat) (n : nat) :
  forall offset runs r,
    runAll E fuel n offset = Ok runs -> In r runs ->
    exists start, runSimulation (withRng E (fun i => rng E (start + i))) fuel = Ok r.
Proof.
  induction n as [|n IH]; intros offset runs r H Hin; cbn [runAll] in H.
  - inversion H; subst. destruct Hin.
  - destruct (runSimulation _ fuel) as [r0| |] eqn:R0; try discriminate.
    destruct (runAll E fuel n _) as [rest| |] eqn:R; try discriminate.
    inversion H; subst. destruct Hin as [->|Hin].
    + now exists offset.
    + exact (IH _ _ _ R Hin).
Qed.

Lemma insertResult_perm (r : SimResult) (l : list SimResult) :
  Permutation (r :: l) (insertResult r l).
Proof.
  induction l as [|y l IH]; cbn [insertResult]; [reflexivity|].
  destruct (finalBankroll (snd r) <=? finalBankroll (snd y)); [reflexivity|].
  rewrite perm_swap. now apply perm_skip.
Qed.

Lemma sortResults_perm (l : list SimResult) : Permutation l (sortResults l).
Proof.
  induction l as [|x l IH]; cbn [sortResults fold_right]; [reflexivity|].
  rewrite <- insertResult_perm. now apply perm_skip.
Qed.

Lemma insertResult_sorted (r : SimResult) (l : list SimResult) :
  StronglySorted byFinalBankroll l ->
  StronglySorted byFinalBankroll (insertResult r l).
Proof.
  induction 1 as [|y l Hl IH Hy]; cbn [insertResult].
  - constructor; constructor.
  - destruct (Z.leb_spec (finalBankroll (snd r)) (finalBankroll (snd y))) as [Hle|Hgt].
    + constructor; [now constructor|].
      constructor; [exact Hle|].
      eapply Forall_impl; [|exact Hy]. unfold byFinalBankroll. intros z Hz. lia.
    + constructor; [exact IH|].
      eapply Permutation_Forall; [apply insertResult_perm|].
      constructor; [unfold byFinalBankroll; lia | exact Hy].
Qed.

Lemma sortResults_sorted (l : list SimResult) :
  StronglySorted byFinalBankroll (sortResults l).
Proof.
  induction l as [|x l IH]; cbn [sortResults fold_right]; [constructor|].
  now apply insertResult_sorted.
Qed.

Lemma sorted_split (l : list SimResult) :
  StronglySorted byFinalBankroll l ->
  forall idx x,
    nth_error l idx = Some x ->
    (forall r, In r (firstn idx l) -> byFinalBankroll r x)
    /\ (forall r, In r (skipn idx l) -> byFinalBankroll x r).
Proof.
  induction 1 as [|a l Hl IH Ha]; intros idx x Hx; [destruct idx; discriminate|].
  rewrite Forall_forall in Ha.
  destruct idx as [|k]; cbn [nth_error firstn skipn] in *.
  - inversion Hx; subst. split; [intros r []|].
    intros r [->|Hr]; [unfold byFinalBankroll; lia | now apply Ha].
  - destruct (IH k x Hx) as [H1 H2]. split; [|exact H2].
    intros r [->|Hr]; [|now apply H1].
    apply Ha. exact (nth_error_In _ _ Hx).
Qed.

(** X21. When a batch of n > 0 simulations returns, the n results kept are
    genuine runs of the same strategy, ordered by final bankroll, and the
    run selected for display, at index floor(n/2), is a median: every result
    before it ended with no more money and every result from it on with no
    less. *)
Theorem X21_batch_shows_median (E : RunInput) (fuel n : nat)
    (sorted : list SimResult) (idx : nat)
    (Hrun : executeSimulationLogic E fuel n = Ok (sorted, idx))
    (Hn : (0 < n)%nat) :
  List.length sorted = n
  /\ idx = Nat.div n 2
  /\ (forall r, In r sorted ->
        exists start,
          runSimulation (withRng E (fun i => rng E (start + i))) fuel = Ok r)
  /\ exists shown,
       nth_error sorted idx = Some shown
       /\ (forall r, In r (firstn idx sorted) ->
             finalBankroll (snd r) <= finalBankroll (snd shown))
       /\ (forall r, In r (skipn idx sorted) ->
             finalBankroll (snd shown) <= finalBankroll (snd r)).
Proof.
  unfold executeSimulationLogic in Hrun.
  destruct (runAll E fuel n 0) as [runs| |] eqn:R; try discriminate.
  inversion Hrun; subst. clear Hrun.
  assert (Hlen : List.length (sortResults runs) = n).
  { rewrite <- (Permutation_length (sortResults_perm runs)).
    exact (runAll_length E fuel n 0 runs R). }
  split; [exact Hlen|]. rewrite Hlen. split; [reflexivity|].
  split.
  { intros r Hr. apply (runAll_genuine E fuel n 0 runs r R).
    eapply Permutation_in; [symmetry; apply sortResults_perm | exact Hr]. }
  destruct (nth_error (sortResults runs) (Nat.div n 2)) as [shown|] eqn:Hs.
  - exists shown. split; [exact Hs|].
    exact (sorted_split _ (sortResults_sorted runs) _ _ Hs).
  - apply nth_error_None in Hs. rewrite Hlen in Hs.
    pose proof (Nat.div_lt n 2 Hn). lia.
Qed.

Lemma X21_batch_shows_median_witness :
  executeSimulationLogic demoInput 20 3 = Ok (demoBatch, 1%nat)
  /\ (0 < 3)%nat
  /\ List.length demoBatch = 3%nat.
Proof.
  assert (H : executeSimulationLogic demoInput 20 3 = Ok (demoBatch, 1%nat))
    by (vm_compute; reflexivity).
  assert (Hn : (0 < 3)%nat) by lia.
  split; [exact H|]. split; [exact Hn|].
  exact (proj1 (X21_batch_shows_median demoInput 20 3 demoBatch 1%nat H Hn)).
Defined.

(** * Playback: the money figures *)

Lemma chain_firstn (P : Z -> SimulationStep -> Prop) (k : nat) :
  forall (l : list SimulationStep) (prev : Z),
    chain P prev l -> chain P prev (firstn k l).
Proof.
  induction k as [|k IH]; intros [|s l] prev H; cbn [firstn chain]; try exact I.
  destruct H as [Hs Hl]. split; [exact Hs | now apply IH].
Qed.

Lemma playback_engine_money (E : RunInput) (initial : Z) (steps : list SimulationStep) :
  forall (prev : Z) (a e : PlaybackAcc),
    chain (stepOK E) prev steps ->
    a_bankroll a = prev -> a_bankroll e = prev ->
    a_maxDrawdown a = a_maxDrawdown e -> a_maxUpside a = a_maxUpside e ->
    a_maxDrawdown e <= prev - initial <= a_maxUpside e ->
    a_bankroll (fold_left (playbackStep initial) steps a)
    = a_bankroll (fold_left (engineStep initial) steps e)
    /\ a_maxDrawdown (fold_left (playbackStep initial) steps a)
       = a_maxDrawdown (fold_left (engineStep initial) steps e)
    /\ a_maxUpside (fold_left (playbackStep initial) steps a)
       = a_maxUpside (fold_left (engineStep initial) steps e).
Proof.
  induction steps as [|s steps IH]; intros prev a e Hc Ha He Hd Hu Hb;
    cbn [fold_left]; [repeat split; congruence|].
  destruct Hc as [(Hbank & Hwait & _) Hc].
  apply (IH (bankroll s)); try exact Hc; try reflexivity.
  - unfold playbackStep, engineStep. cbn [a_maxDrawdown].
    destruct (isWaitAction (actionType s)); cbn [negb andb].
    + destruct (Hwait eq_refl) as (Hn & _).
      destruct (Z.ltb_spec (bankroll s - initial) (a_maxDrawdown a)); lia.
    + now rewrite Hd.
  - unfold playbackStep, engineStep. cbn [a_maxUpside].
    destruct (isWaitAction (actionType s)); cbn [negb andb].
    + destruct (Hwait eq_refl) as (Hn & _).
      destruct (Z.gtb_spec (bankroll s - initial) (a_maxUpside a)); lia.
    + now rewrite Hu.
  - unfold engineStep. cbn [a_maxDrawdown a_maxUpside].
    destruct (isWaitAction (actionType s)); cbn [negb andb].
    + destruct (Hwait eq_refl) as (Hn & _). lia.
    + destruct (Z.ltb_spec (bankroll s - initial) (a_maxDrawdown e));
        destruct (Z.gtb_spec (bankroll s - initial) (a_maxUpside e)); lia.
Qed.

(** X22. At every playback position k > 0 of a run, the money figures the
    statistics panel shows, that is bankroll, maximum drawdown, maximum
    upside, ROI and number of spins, are exactly the engine's own figures
    after its first k ledger entries (the whole ledger once k reaches its
    length); idle entries never disturb them. *)
Theorem X22_playback_money_figures (E : RunInput) (fuel : nat)
    (steps : list SimulationStep) (stats : SimulationStats) (k : nat)
    (Hrun : runSimulation E fuel = Ok (steps, stats))
    (Hk : (0 < k)%nat) :
  exists shown,
    displayedStats (Some (steps, stats)) k = Some shown
    /\ finalBankroll shown
       = finalBankroll (engineStats (initialBankroll E) (config E) (firstn k steps))
    /\ maxDrawdown shown
       = maxDrawdown (engineStats (initialBankroll E) (config E) (firstn k steps))
    /\ maxUpside shown
       = maxUpside (engineStats (initialBankroll E) (config E) (firstn k steps))
    /\ roi shown
       = roi (engineStats (initialBankroll E) (config E) (firstn k steps))
    /\ totalSpins shown
       = totalSpins (engineStats (initialBankroll E) (config E) (firstn k steps)).
Proof.
  pose proof (run_stats_engine_fold E fuel steps stats Hrun) as Hstats.
  destruct (run_ledger_chain E fuel steps stats Hrun) as [Hchain _].
  unfold displayedStats.
  destruct (Nat.eqb_spec k 0) as [->|_]; [lia|].
  destruct (Nat.leb_spec (List.length steps) k) as [Hle|Hlt].
  - exists stats. split; [reflexivity|].
    rewrite (firstn_all2 steps Hle), <- Hstats. repeat split; reflexivity.
  - cbv zeta. eexists. split; [reflexivity|].
    assert (Hi : s_initialBankroll stats = initialBankroll E) by (now rewrite Hstats).
    rewrite Hi.
    destruct (playback_engine_money E (initialBankroll E) (firstn k steps)
                (initialBankroll E) (emptyAcc (initialBankroll E))
                (emptyAcc (initialBankroll E)))
      as (Hb & Hd & Hu);
      try reflexivity; try (cbn; lia); [now apply chain_firstn|].
    unfold emptyAcc in Hb, Hd, Hu.
    unfold engineStats, accStats, emptyAcc.
    cbn [finalBankroll maxDrawdown maxUpside roi totalSpins].
    rewrite Hb, Hd, Hu. repeat split; reflexivity.
Qed.

Lemma X22_playback_money_figures_witness :
  runSimulation demoInput 20 = Ok (demoSteps, demoStats)
  /\ (0 < 2)%nat
  /\ exists shown,
       displayedStats (Some (demoSteps, demoStats)) 2 = Some shown
       /\ finalBankroll shown
          = finalBankroll (engineStats 100 (config demoInput) (firstn 2 demoSteps)).
Proof.
  assert (H : runSimulation demoInput 20 = Ok (demoSteps, demoStats))
    by (vm_compute; reflexivity).
  assert (Hk : (0 < 2)%nat) by lia.
  split; [exact H|]. split; [exact Hk|].
  destruct (X22_playback_money_figures demoInput 20 demoSteps demoStats 2 H Hk)
    as (shown & Hs & Hb & _).
  exists shown. split; [exact Hs | exact Hb].
Defined.

(** * Runs that cannot fail *)

Lemma runAll_no_TypeError (E : RunInput) (fuel : nat) (n : nat) :
  forall offset, runAll E fuel n offset <> TypeError.
Proof.
  induction n as [|n IH]; intros offset; cbn [runAll]; [discriminate|].
  destruct (runSimulation _ fuel) as [r| |] eqn:R; try discriminate.
  - specialize (IH (offset + Z.of_nat (List.length (fst r)))).
    destruct (runAll E fuel n _); try discriminate. now contradiction IH.
  - now apply runSimulation_no_TypeError in R.
Qed.

Lemma runAll_single_spin_returns (E : RunInput) (fuel : nat) (n : nat) :
  singleSpinOnly (rootNode (strategy E)) ->
  Z.max 0 (maxSpins (config E)) < Z.of_nat fuel ->
  forall offset, exists runs, runAll E fuel n offset = Ok runs.
Proof.
  intros Hroot Hf. induction n as [|n IH]; intros offset; cbn [runAll];
    [now eexists|].
  destruct (runSimulation_single_spin_returns
              (withRng E (fun i => rng E (offset + i))) fuel Hroot Hf)
    as (steps & stats & ->).
  destruct (IH (offset + Z.of_nat (List.length (fst (steps, stats))))) as (rest & ->).
  now eexists.
Qed.

(** X23. No run, and so no batch of runs, ever fails on a missing ledger
    entry: wherever the engine reads the last entry of the ledger
    (the outcome of the spin just made), an entry has been recorded,
    whatever the strategy, configuration and draws. *)
Theorem X23_engine_never_reads_missing_entry (E : RunInput) (fuel n : nat) :
  runSimulation E fuel <> TypeError
  /\ executeSimulationLogic E fuel n <> TypeError.
Proof.
  split; [apply runSimulation_no_TypeError|].
  unfold executeSimulationLogic.
  pose proof (runAll_no_TypeError E fuel n 0) as H.
  destruct (runAll E fuel n 0); try discriminate. now contradiction H.
Qed.

(** X24. A strategy without martingale and repeat-until nodes always
    terminates: once the fuel exceeds the spin budget, a run returns its
    ledger and statistics, and a batch of any size returns its sorted
    results with the median index. *)
Theorem X24_single_spin_strategies_terminate (E : RunInput) (fuel n : nat)
    (Hroot : singleSpinOnly (rootNode (strategy E)))
    (Hfuel : Z.max 0 (maxSpins (config E)) < Z.of_nat fuel) :
  (exists steps stats, runSimulation E fuel = Ok (steps, stats))
  /\ (exists sorted,
        executeSimulationLogic E fuel n = Ok (sorted, Nat.div n 2)
        /\ List.length sorted = n).
Proof.
  split; [now apply runSimulation_single_spin_returns|].
  unfold executeSimulationLogic.
  destruct (runAll_single_spin_returns E fuel n Hroot Hfuel 0) as (runs & R).
  rewrite R. exists (sortResults runs).
  assert (Hlen : List.length (sortResults runs) = n).
  { rewrite <- (Permutation_length (sortResults_perm runs)).
    exact (runAll_length E fuel n 0 runs R). }
  rewrite Hlen. split; reflexivity || exact Hlen.
Qed.

Lemma X24_single_spin_strategies_terminate_witness :
  singleSpinOnly (rootNode (strategy defaultInput))
  /\ Z.max 0 (maxSpins (config defaultInput)) < Z.of_nat 51
  /\ exists steps stats, runSimulation defaultInput 51 = Ok (steps, stats).
Proof.
  assert (Hroot : singleSpinOnly (rootNode (strategy defaultInput)))
    by (cbn; repeat split; discriminate).
  assert (Hfuel : Z.max 0 (maxSpins (config defaultInput)) < Z.of_nat 51)
    by (cbn; lia).
  split; [exact Hroot|]. split; [exact Hfuel|].
  exact (proj1 (X24_single_spin_strategies_terminate defaultInput 51 1 Hroot Hfuel)).
Defined.

(** * Progression nodes: the engine and the builder's preview *)

Lemma leaveSpinNode_modifier (E : RunInput) (c : Cursor) (st : RunState)
    (n : StrategyNode) :
  isModifier (node_type n) = true ->
  leaveSpinNode E (Sub n) c st
  = (match node_bets n with
     | None =>
         {| currentNode := n; currentBaseBets := currentBaseBets c;
            currentMultiplier := modified (node_type n) (currentMultiplier c) |}
     | Some [] =>
         {| currentNode := n; currentBaseBets := currentBaseBets c;
            currentMultiplier := currentMultiplier c |}
     | Some (b :: l) =>
         {| currentNode := n; currentBaseBets := b :: l; currentMultiplier := 1 |}
     end, st).
Proof.
  intros Hty. unfold leaveSpinNode, resolveChild, enterNode, applyNodeModifier,
    hasBets, noBetsField, betsOrEmpty, withMultiplier.
  destruct n as [id ty bs v cd pw mt mv rt rv w l]. cbn in *.
  destruct ty; try discriminate; destruct bs as [[|b bs]|]; reflexivity.
Qed.

(** X25. After a single spin leads to a double, triple, add-unit or
    subtract-unit node, the engine changes the multiplier only if the node
    has no bets field at all.  With an empty bets list the node is inert
    (same wagers, same multiplier); with a non-empty one its own wagers
    replace the current ones at multiplier 1.  No spin is consumed. *)
Theorem X25_modifier_acts_without_bets_field (E : RunInput) (c : Cursor)
    (st : RunState) (n : StrategyNode)
    (Hty : isModifier (node_type n) = true) :
  snd (leaveSpinNode E (Sub n) c st) = st
  /\ currentNode (fst (leaveSpinNode E (Sub n) c st)) = n
  /\ match node_bets n with
     | None =>
         currentBaseBets (fst (leaveSpinNode E (Sub n) c st)) = currentBaseBets c
         /\ currentMultiplier (fst (leaveSpinNode E (Sub n) c st))
            = modified (node_type n) (currentMultiplier c)
     | Some [] =>
         currentBaseBets (fst (leaveSpinNode E (Sub n) c st)) = currentBaseBets c
         /\ currentMultiplier (fst (leaveSpinNode E (Sub n) c st))
            = currentMultiplier c
     | Some bs =>
         currentBaseBets (fst (leaveSpinNode E (Sub n) c st)) = bs
         /\ currentMultiplier (fst (leaveSpinNode E (Sub n) c st)) = 1
     end.
Proof.
  rewrite (leaveSpinNode_modifier E c st n Hty). cbn [fst snd].
  split; [reflexivity|].
  destruct (node_bets n) as [[|b l]|]; cbn [currentNode currentBaseBets currentMultiplier];
    repeat split; reflexivity.
Qed.

Lemma X25_modifier_acts_without_bets_field_witness :
  isModifier (node_type (plainNode "d" double None NoChild NoChild)) = true
  /\ currentMultiplier
       (fst (leaveSpinNode demoInput (Sub (plainNode "d" double None NoChild NoChild))
               (initialCursor demoInput) (initialState demoInput))) = 2.
Proof.
  assert (H : isModifier (node_type (plainNode "d" double None NoChild NoChild)) = true)
    by reflexivity.
  split; [exact H|].
  destruct (X25_modifier_acts_without_bets_field demoInput (initialCursor demoInput)
              (initialState demoInput) _ H) as (_ & _ & _ & Hm).
  exact Hm.
Defined.

(** X26. A double, triple, add-unit or subtract-unit node created through
    the builder's action menu carries an empty bets list, so the engine's
    next wager after entering it is the wager it would have placed without
    the node, while the builder's preview of the same node shows the
    multiplier doubled, tripled, raised or lowered. *)
Theorem X26_created_modifier_is_inert (E : RunInput) (c : Cursor) (st : RunState)
    (id : string) (ty : ProgressionType)
    (Hty : isModifier ty = true) :
  nextWager E (fst (leaveSpinNode E (Sub (createdNode id ty)) c st)) = nextWager E c
  /\ snd (leaveSpinNode E (Sub (createdNode id ty)) c st) = st
  /\ traverseEntry (rootNode (strategy E)) (createdNode id ty)
       (currentBaseBets c) (currentMultiplier c)
     = (currentBaseBets c, modified ty (currentMultiplier c)).
Proof.
  rewrite (leaveSpinNode_modifier E c st (createdNode id ty)) by exact Hty.
  cbn [fst snd node_bets createdNode].
  split; [reflexivity|]. split; [reflexivity|].
  destruct ty; try discriminate; reflexivity.
Qed.

Lemma X26_created_modifier_is_inert_witness :
  isModifier double = true
  /\ nextWager demoInput
       (fst (leaveSpinNode demoInput (Sub (createdNode "d" double))
               (initialCursor demoInput) (initialState demoInput)))
     = nextWager demoInput (initialCursor demoInput).
Proof.
  assert (H : isModifier double = true) by reflexivity.
  split; [exact H|].
  exact (proj1 (X26_created_modifier_is_inert demoInput (initialCursor demoInput)
                  (initialState demoInput) "d" double H)).
Defined.

(** X27. For a node that carries wagers of its own and is not a reset node,
    and for every same-bet, custom-bet, repeat-until and wait-spins node
    under a root with a bets field, the wagers and the multiplier of the
    builder's preview are those the engine holds after a single spin has
    led to the node, and the previewed bet amount is the total of the
    engine's next wager before the table maximum is applied. *)
Theorem X27_preview_matches_engine (E : RunInput) (c : Cursor) (st : RunState)
    (n : StrategyNode)
    (Hroot : node_bets (rootNode (strategy E)) <> None)
    (Hnode : (hasBets n = true /\ node_type n <> reset)
             \/ node_type n = same_bet \/ node_type n = custom_bet
             \/ node_type n = repeat_until \/ node_type n = wait_spins) :
  traverseEntry (rootNode (strategy E)) n (currentBaseBets c) (currentMultiplier c)
  = (currentBaseBets (fst (leaveSpinNode E (Sub n) c st)),
     currentMultiplier (fst (leaveSpinNode E (Sub n) c st)))
  /\ activeBetAmount (rootNode (strategy E)) n (currentBaseBets c) (currentMultiplier c)
     = sumAmounts
         (scaleBets (currentBaseBets (fst (leaveSpinNode E (Sub n) c st)))
            (currentMultiplier (fst (leaveSpinNode E (Sub n) c st)))).
Proof.
  assert (Hentry :
    traverseEntry (rootNode (strategy E)) n (currentBaseBets c) (currentMultiplier c)
    = (currentBaseBets (fst (leaveSpinNode E (Sub n) c st)),
       currentMultiplier (fst (leaveSpinNode E (Sub n) c st)))).
  { unfold traverseEntry, leaveSpinNode, resolveChild, enterNode, applyNodeModifier,
      applyPostWaitAction, resetToRoot, withMultiplier, noBetsField, hasBets,
      betsOrEmpty in *.
    destruct (node_bets (rootNode (strategy E))) as [rb|];
      [|now contradiction Hroot].
    destruct n as [id ty bs v cd pw mt mv rt rv w l].
    cbn [node_type node_bets postWaitAction value] in *.
    destruct Hnode as [[Hb Hr]|[Ht|[Ht|[Ht|Ht]]]].
    - destruct bs as [bs|]; [|discriminate]. rewrite Hb. cbn [negb].
      destruct ty; try reflexivity; try congruence.
      destruct pw; reflexivity.
    - subst ty. destruct bs as [bs|]; [destruct (Z.of_nat (List.length bs) >? 0)|];
        reflexivity.
    - subst ty. destruct bs as [bs|]; [destruct (Z.of_nat (List.length bs) >? 0)|];
        reflexivity.
    - subst ty. destruct bs as [bs|]; [destruct (Z.of_nat (List.length bs) >? 0)|];
        reflexivity.
    - subst ty. destruct bs as [bs|]; [destruct (Z.of_nat (List.length bs) >? 0)|];
        cbn [negb]; destruct pw as [[]|]; reflexivity. }
  split; [exact Hentry|].
  unfold activeBetAmount. rewrite Hentry. cbn [fst snd].
  unfold calculateEstimatedOutcomes. cbn [totalWager].
  rewrite estimate_totalWager. lia.
Qed.

Lemma X27_preview_matches_engine_witness :
  node_bets (rootNode (strategy demoInput)) <> None
  /\ activeBetAmount (rootNode (strategy demoInput))
       (plainNode "c" custom_bet (Some [straight17 7]) NoChild NoChild)
       (currentBaseBets (initialCursor demoInput))
       (currentMultiplier (initialCursor demoInput)) = 7.
Proof.
  assert (Hroot : node_bets (rootNode (strategy demoInput)) <> None) by discriminate.
  assert (Hnode :
    (hasBets (plainNode "c" custom_bet (Some [straight17 7]) NoChild NoChild) = true
     /\ node_type (plainNode "c" custom_bet (Some [straight17 7]) NoChild NoChild) <> reset)
    \/ node_type (plainNode "c" custom_bet (Some [straight17 7]) NoChild NoChild) = same_bet
    \/ node_type (plainNode "c" custom_bet (Some [straight17 7]) NoChild NoChild) = custom_bet
    \/ node_type (plainNode "c" custom_bet (Some [straight17 7]) NoChild NoChild) = repeat_until
    \/ node_type (plainNode "c" custom_bet (Some [straight17 7]) NoChild NoChild) = wait_spins)
    by (left; split; [reflexivity | discriminate]).
  split; [exact Hroot|].
  rewrite (proj2 (X27_preview_matches_engine demoInput (initialCursor demoInput)
                    (initialState demoInput) _ Hroot Hnode)).
  reflexivity.
Defined.

(** * Strategies made of menu nodes *)

Lemma scaleBets_one (bs : list PlacedBet) : scaleBets bs 1 = bs.
Proof.
  unfold scaleBets. induction bs as [|b bs IH]; cbn [map]; [reflexivity|].
  rewrite IH. f_equal. destruct b. unfold setAmount. cbn. f_equal. lia.
Qed.

Lemma menuMade_facts (n : StrategyNode) :
  menuMade n ->
  node_bets n = Some [] /\ postWaitAction n = None
  /\ node_type n <> martingale /\ node_type n <> repeat_until
  /\ match children_win n with Sub m => menuMade m | _ => True end
  /\ match children_loss n with Sub m => menuMade m | _ => True end.
Proof. destruct n. cbn. tauto. Qed.

Section MenuFacts.

Variable E : RunInput.
Hypothesis Hmenu : menuStrategy (rootNode (strategy E)).

Lemma menu_node_kind (n : StrategyNode) :
  n = rootNode (strategy E) \/ menuMade n ->
  node_type n <> martingale /\ node_type n <> repeat_until
  /\ postWaitAction n = None /\ node_bets n <> None
  /\ (hasBets n = true -> betsOrEmpty n = betsOrEmpty (rootNode (strategy E))).
Proof.
  destruct Hmenu as (R1 & R2 & R3 & R4 & _).
  intros [->|Hn].
  - repeat split; assumption || reflexivity.
  - destruct (menuMade_facts n Hn) as (N1 & N2 & N3 & N4 & _).
    repeat split; try assumption; try congruence.
    unfold hasBets. rewrite N1. cbn. discriminate.
Qed.

Lemma menu_child (n : StrategyNode) (b : bool) :
  n = rootNode (strategy E) \/ menuMade n ->
  match (if b then children_win n else children_loss n) with
  | Sub m => menuMade m
  | _ => True
  end.
Proof.
  destruct Hmenu as (_ & _ & _ & _ & R5 & R6).
  intros [->|Hn].
  - destruct b; assumption.
  - destruct (menuMade_facts n Hn) as (_ & _ & _ & _ & N5 & N6).
    destruct b; assumption.
Qed.

Lemma resetToRoot_atRootWager : atRootWager E (resetToRoot E).
Proof. unfold atRootWager, resetToRoot. cbn. repeat split. now left. Qed.

Lemma enter_atRootWager (n : StrategyNode) (c : Cursor) (st : RunState) :
  n = rootNode (strategy E) \/ menuMade n ->
  atRootWager E c ->
  atRootWager E (fst (leaveSpinNode E (Sub n) c st)).
Proof.
  intros Hn (C1 & C2 & C3).
  destruct (menu_node_kind n Hn) as (K1 & K2 & K3 & K4 & K5).
  assert (G : forall m,
             currentNode m = n ->
             currentBaseBets m = betsOrEmpty (rootNode (strategy E)) ->
             currentMultiplier m = 1 -> atRootWager E m).
  { intros m M1 M2 M3. unfold atRootWager. rewrite M1. tauto. }
  unfold leaveSpinNode, resolveChild, enterNode, applyNodeModifier, withMultiplier,
    noBetsField.
  rewrite K3.
  destruct (node_bets n) as [bs|] eqn:Hb; [|now contradiction K4].
  destruct (hasBets n) eqn:Hh; cbn [currentNode negb]; rewrite ?Hb.
  - specialize (K5 eq_refl).
    destruct (node_type n); cbn [fst];
      try apply resetToRoot_atRootWager;
      (apply G; [reflexivity | exact K5 | reflexivity]).
  - destruct (node_type n); cbn [fst];
      try apply resetToRoot_atRootWager;
      (apply G; [reflexivity | exact C1 | exact C2]).
Qed.

Lemma leaveSpinNode_atRootWager (c : Cursor) (st : RunState) (b : bool) :
  atRootWager E c ->
  atRootWager E
    (fst (leaveSpinNode E
            (if b then children_win (currentNode c) else children_loss (currentNode c))
            c st)).
Proof.
  intros Hc. pose proof Hc as (_ & _ & C3).
  pose proof (menu_child (currentNode c) b C3) as Hch.
  destruct (if b then children_win (currentNode c) else children_loss (currentNode c))
    as [| |m].
  - apply resetToRoot_atRootWager.
  - change (leaveSpinNode E RootRef c st)
      with (leaveSpinNode E (Sub (rootNode (strategy E))) c st).
    apply enter_atRootWager; [now left | exact Hc].
  - apply enter_atRootWager; [now right | exact Hc].
Qed.

Lemma recordStep_wait_keeps (st : RunState) (res : SpinResult) (a : ActionType) :
  isWaitAction a = true ->
  Forall (waitOrRootWager E) (st_steps st) ->
  Forall (waitOrRootWager E) (st_steps (snd (recordStep E st res [] a true))).
Proof.
  intros Ha Hs. unfold recordStep. cbn.
  apply Forall_app. split; [exact Hs|].
  constructor; [|constructor]. left. exact Ha.
Qed.

Lemma waitSpins_keeps (n : nat) :
  forall st,
    Forall (waitOrRootWager E) (st_steps st) ->
    Forall (waitOrRootWager E) (st_steps (waitSpins E n st)).
Proof.
  induction n as [|n IH]; intros st H; cbn [waitSpins]; [exact H|].
  apply IH, recordStep_wait_keeps; [reflexivity | exact H].
Qed.

Lemma waitCondition_keeps (k : nat) (cond : string) :
  forall st,
    Forall (waitOrRootWager E) (st_steps st) ->
    Forall (waitOrRootWager E) (st_steps (waitCondition E k cond st)).
Proof.
  induction k as [|k IH]; intros st H; cbn [waitCondition]; [exact H|].
  cbv zeta.
  pose proof (recordStep_wait_keeps st (draw E st) (WAITING_FOR (toUpperCase cond))
                eq_refl H) as H1.
  destruct (_ || _); [exact H1 | now apply IH].
Qed.

Lemma leaveSpinNode_keeps (next : Child StrategyNode) (c : Cursor) (st : RunState) :
  Forall (waitOrRootWager E) (st_steps st) ->
  Forall (waitOrRootWager E) (st_steps (snd (leaveSpinNode E next c st))).
Proof.
  intros H. unfold leaveSpinNode.
  destruct (resolveChild E next) as [n|]; [|exact H].
  destruct (node_type n); try exact H. cbn [snd].
  destruct (truthyZ (value n)); [now apply waitSpins_keeps | exact H].
Qed.

Lemma mainLoop_menu (fuel : nat) :
  forall c st c' st',
    mainLoop E fuel c st = Ok (c', st') ->
    atRootWager E c ->
    Forall (waitOrRootWager E) (st_steps st) ->
    Forall (waitOrRootWager E) (st_steps st').
Proof.
  induction fuel as [|fuel IH]; intros c st c' st' H Hc Hs; cbn [mainLoop] in H;
    [discriminate|].
  destruct (negb (st_spinsConsumed st <? maxSpins (config E))).
  { now inversion H; subst. }
  destruct (haltCondition E st).
  { now inversion H; subst. }
  pose proof Hc as (C1 & C2 & C3).
  destruct (menu_node_kind (currentNode c) C3) as (K1 & K2 & _).
  assert (Hspin : forall
    (H : (let capped := capToTableMax E (scaleBets (currentBaseBets c) (currentMultiplier c)) in
          let activeBets := fst capped in
          let totalWager := snd capped in
          if totalWager >? st_bankroll st then Ok (c, st)
          else
            let res := draw E st in
            let r := recordStep E st res activeBets (spinAction activeBets st) false in
            match lastStep (st_steps (snd r)) with
            | None => TypeError
            | Some last =>
                let roundWin := won last in
                let next := if roundWin then children_win (currentNode c)
                            else children_loss (currentNode c) in
                let cs := leaveSpinNode E next c (snd r) in
                mainLoop E fuel (fst cs) (snd cs)
            end) = Ok (c', st')),
    Forall (waitOrRootWager E) (st_steps st')).
  { clear H. intros H. cbv zeta in H.
    rewrite C1, C2, scaleBets_one in H. fold (rootWager E) in H.
    destruct (snd (capToTableMax E (betsOrEmpty (rootNode (strategy E)))) >? st_bankroll st).
    { now inversion H; subst. }
    assert (Hrec : Forall (waitOrRootWager E)
                     (st_steps (snd (recordStep E st (draw E st) (rootWager E)
                                       (spinAction (rootWager E) st) false)))).
    { unfold recordStep. cbv zeta.
      destruct (negb false && (sumAmounts (rootWager E) >? st_bankroll st));
        cbn [snd st_steps]; [exact Hs|].
      apply Forall_app. split; [exact Hs|].
      constructor; [|constructor]. right. reflexivity. }
    destruct (lastStep _) as [last|]; [|discriminate].
    eapply IH; [exact H| |].
    - apply leaveSpinNode_atRootWager. exact Hc.
    - apply leaveSpinNode_keeps. exact Hrec. }
  destruct (node_type (currentNode c)); try (apply Hspin; exact H);
    congruence.
Qed.

End MenuFacts.

(** X28. In a strategy whose root holds the wagers and whose other nodes
    all come from the action menu (empty bets list, no post-wait action, no
    loop node), the progression nodes never take effect: every betting
    entry of every run wagers exactly the root's wagers (scaled to the table
    maximum if they exceed it), whatever double, triple, add-unit or
    subtract-unit nodes the run passes through. *)
Theorem X28_menu_strategy_always_bets_root_wager (E : RunInput) (fuel : nat)
    (steps : list SimulationStep) (stats : SimulationStats) (s : SimulationStep)
    (Hmenu : menuStrategy (rootNode (strategy E)))
    (Hrun : runSimulation E fuel = Ok (steps, stats))
    (Hin : In s steps)
    (Hbet : isWaitAction (actionType s) = false) :
  bets s = fst (capToTableMax E (betsOrEmpty (rootNode (strategy E)))).
Proof.
  unfold runSimulation in Hrun.
  destruct (mainLoop E fuel (initialCursor E) (preSimWait E (initialState E)))
    as [[c st]| |] eqn:M; try discriminate.
  inversion Hrun; subst. clear Hrun.
  assert (Hall : Forall (waitOrRootWager E) (st_steps st)).
  { eapply (mainLoop_menu E Hmenu); [exact M| |].
    - apply resetToRoot_atRootWager.
    - unfold preSimWait.
      destruct (node_type (rootNode (strategy E)));
        destruct (truthyZ (value (rootNode (strategy E))));
        destruct (truthyString (condition (rootNode (strategy E))));
        first [ apply waitSpins_keeps; constructor
              | apply waitCondition_keeps; constructor
              | constructor ]. }
  rewrite Forall_forall in Hall. destruct (Hall s Hin) as [Hw|Hb]; [congruence|].
  exact Hb.
Qed.

Lemma X28_menu_strategy_always_bets_root_wager_witness :
  menuStrategy (rootNode (strategy menuInput))
  /\ runSimulation menuInput 10 = Ok (menuSteps, menuStats)
  /\ In menuStep2 menuSteps
  /\ isWaitAction (actionType menuStep2) = false
  /\ bets menuStep2 = [straight17 10].
Proof.
  assert (Hm : menuStrategy (rootNode (strategy menuInput))).
  { cbn. repeat split; discriminate. }
  assert (Hr : runSimulation menuInput 10 = Ok (menuSteps, menuStats))
    by (vm_compute; reflexivity).
  assert (Hi : In menuStep2 menuSteps) by (right; left; reflexivity).
  assert (Hb : isWaitAction (actionType menuStep2) = false) by reflexivity.
  split; [exact Hm|]. split; [exact Hr|]. split; [exact Hi|]. split; [exact Hb|].
  rewrite (X28_menu_strategy_always_bets_root_wager menuInput 10 menuSteps menuStats
             menuStep2 Hm Hr Hi Hb).
  reflexivity.
Defined.

(** * Wait nodes inside the tree *)

Lemma waitSpins_run (E : RunInput) (n : nat) :
  forall st,
    exists added,
      st_steps (waitSpins E n st) = st_steps st ++ added
      /\ List.length added = n
      /\ Forall (fun s => actionType s = WAITING /\ bets s = [] /\ betTotal s = 0
                          /\ net s = 0 /\ bankroll s = st_bankroll st) added
      /\ st_bankroll (waitSpins E n st) = st_bankroll st
      /\ st_spinsConsumed (waitSpins E n st) = st_spinsConsumed st + Z.of_nat n.
Proof.
  induction n as [|n IH]; intros st; cbn [waitSpins].
  - exists []. rewrite app_nil_r. repeat split; try constructor. lia.
  - destruct (IH (snd (recordStep E st (draw E st) [] WAITING true)))
      as (added & H1 & H2 & H3 & H4 & H5).
    assert (Hb : st_bankroll (snd (recordStep E st (draw E st) [] WAITING true))
                 = st_bankroll st)
      by (unfold recordStep; cbn; lia).
    eexists (_ :: added). rewrite H1, H4, H5, Hb.
    split; [unfold recordStep; cbn; rewrite <- app_assoc; reflexivity|].
    split; [cbn [List.length]; now rewrite H2|].
    split.
    + constructor.
      * cbn. repeat split; lia.
      * eapply Forall_impl; [|exact H3]. cbn beta. rewrite Hb. tauto.
    + split; [reflexivity|]. unfold recordStep; cbn. lia.
Qed.

(** X29. When a single spin leads to a wait_spins node with value v, the
    engine records exactly v WAITING entries (none for a negative v), each
    without wagers and with the bankroll unchanged, even past the spin
    budget; afterwards a post-wait double, triple, add-unit or
    subtract-unit action changes the multiplier exactly when the node has
    no wagers of its own, an empty bets list included. *)
Theorem X29_interior_wait_spins (E : RunInput) (c : Cursor) (st : RunState)
    (n : StrategyNode) (v : Z) (a : ProgressionType)
    (Hty : node_type n = wait_spins)
    (Hval : truthyZ (value n) = Some v)
    (Hpost : postWaitAction n = Some a)
    (Hmod : isModifier a = true) :
  (exists added,
      st_steps (snd (leaveSpinNode E (Sub n) c st)) = st_steps st ++ added
      /\ List.length added = Z.to_nat v
      /\ Forall (fun s => actionType s = WAITING /\ bets s = [] /\ betTotal s = 0
                          /\ net s = 0 /\ bankroll s = st_bankroll st) added)
  /\ st_bankroll (snd (leaveSpinNode E (Sub n) c st)) = st_bankroll st
  /\ st_spinsConsumed (snd (leaveSpinNode E (Sub n) c st))
     = st_spinsConsumed st + Z.max 0 v
  /\ currentNode (fst (leaveSpinNode E (Sub n) c st)) = n
  /\ (if hasBets n
      then currentBaseBets (fst (leaveSpinNode E (Sub n) c st)) = betsOrEmpty n
           /\ currentMultiplier (fst (leaveSpinNode E (Sub n) c st)) = 1
      else currentBaseBets (fst (leaveSpinNode E (Sub n) c st)) = currentBaseBets c
           /\ currentMultiplier (fst (leaveSpinNode E (Sub n) c st))
              = modified a (currentMultiplier c)).
Proof.
  unfold leaveSpinNode, resolveChild. rewrite Hty, Hval, Hpost. cbn [fst snd].
  destruct (waitSpins_run E (Z.to_nat v) st) as (added & H1 & H2 & H3 & H4 & H5).
  split; [exists added; repeat split; assumption|].
  split; [exact H4|]. split; [rewrite H5; lia|].
  unfold enterNode.
  destruct (hasBets n); cbn [negb currentNode currentBaseBets currentMultiplier].
  - repeat split; reflexivity.
  - destruct a; try discriminate; cbn; repeat split; reflexivity.
Qed.

Lemma X29_interior_wait_spins_witness :
  node_type (waitTwoThenDouble) = wait_spins
  /\ truthyZ (value waitTwoThenDouble) = Some 2
  /\ postWaitAction waitTwoThenDouble = Some double
  /\ isModifier double = true
  /\ currentMultiplier
       (fst (leaveSpinNode demoInput (Sub waitTwoThenDouble)
               (initialCursor demoInput) (initialState demoInput))) = 2.
Proof.
  assert (H1 : node_type (waitTwoThenDouble) = wait_spins) by reflexivity.
  assert (H2 : truthyZ (value waitTwoThenDouble) = Some 2) by reflexivity.
  assert (H3 : postWaitAction waitTwoThenDouble = Some double) by reflexivity.
  assert (H4 : isModifier double = true) by reflexivity.
  split; [exact H1|]. split; [exact H2|]. split; [exact H3|]. split; [exact H4|].
  destruct (X29_interior_wait_spins demoInput (initialCursor demoInput)
              (initialState demoInput) waitTwoThenDouble 2 double H1 H2 H3 H4)
    as (_ & _ & _ & _ & Hm).
  exact (proj2 Hm).
Defined.

(** * Runs of strategies without wagers *)

Lemma noWagerTree_facts (n : StrategyNode) :
  noWagerTree n ->
  node_type n <> martingale /\ node_type n <> repeat_until
  /\ hasBets n = false /\ betsOrEmpty n = []
  /\ match children_win n with Sub m => noWagerTree m | _ => True end
  /\ match children_loss n with Sub m => noWagerTree m | _ => True end.
Proof.
  destruct n as [id ty bs v cd pw mt mv rt rv w l]. cbn.
  intros (H1 & H2 & [->| ->] & H4 & H5); repeat split; assumption.
Qed.

Lemma noWagerTree_singleSpinOnly :
  forall n : StrategyNode, noWagerTree n -> singleSpinOnly n.
Proof.
  fix IH 1. intros [id ty bs v cd pw mt mv rt rv w l]. cbn.
  intros (H1 & H2 & _ & Hw & Hl).
  split; [exact H1|]. split; [exact H2|]. split.
  - destruct w as [| |m]; [exact I | exact I | exact (IH m Hw)].
  - destruct l as [| |m]; [exact I | exact I | exact (IH m Hl)].
Qed.

Lemma map_by_index {A B : Type} (f : A -> B) (g : nat -> B) (l : list A) :
  forall k,
    (forall i s, nth_error l i = Some s -> f s = g (k + i)%nat) ->
    map f l = map g (seq k (List.length l)).
Proof.
  induction l as [|x l IH]; intros k H; cbn [map List.length seq]; [reflexivity|].
  f_equal.
  - rewrite (H 0%nat x eq_refl). f_equal. lia.
  - apply IH. intros i s Hi. rewrite (H (S i) s Hi). f_equal. lia.
Qed.

Section EmptyWagers.

Variable E : RunInput.
Hypothesis Htree : noWagerTree (rootNode (strategy E)).

Lemma haltCondition_unmoved (st : RunState) :
  unmoved E st -> haltCondition E st = haltCondition E (initialState E).
Proof. intros (Hb & _). unfold haltCondition. now rewrite Hb. Qed.

Lemma resetToRoot_emptyHanded : emptyHanded (resetToRoot E).
Proof.
  destruct (noWagerTree_facts _ Htree) as (_ & _ & _ & Hb & _).
  split; [exact Hb | exact Htree].
Qed.

Lemma enter_emptyHanded (n : StrategyNode) (c : Cursor) (st : RunState) :
  noWagerTree n -> emptyHanded c ->
  emptyHanded (fst (leaveSpinNode E (Sub n) c st)).
Proof.
  intros Hn (B1 & B2).
  destruct (noWagerTree_facts n Hn) as (_ & _ & Hh & _).
  destruct (noWagerTree_facts _ Htree) as (_ & _ & _ & Hb & _).
  assert (G : forall m, currentNode m = n -> currentBaseBets m = [] -> emptyHanded m).
  { intros m M1 M2. split; [exact M2 | now rewrite M1]. }
  unfold leaveSpinNode, resolveChild, enterNode, applyNodeModifier,
    applyPostWaitAction, withMultiplier.
  rewrite Hh. cbn [negb currentNode].
  destruct (node_type n); cbn [fst];
    try apply resetToRoot_emptyHanded;
    try (apply G; [reflexivity | exact B1]).
  - destruct (postWaitAction n) as [[]|]; (apply G; [reflexivity | assumption]).
  - destruct (noBetsField n); (apply G; [reflexivity | exact B1]).
  - destruct (noBetsField n); (apply G; [reflexivity | exact B1]).
  - destruct (noBetsField n); (apply G; [reflexivity | exact B1]).
  - destruct (noBetsField n); (apply G; [reflexivity | exact B1]).
Qed.

Lemma leaveSpinNode_emptyHanded (c : Cursor) (st : RunState) (b : bool) :
  emptyHanded c ->
  emptyHanded
    (fst (leaveSpinNode E
            (if b then children_win (currentNode c) else children_loss (currentNode c))
            c st)).
Proof.
  intros Hc. pose proof Hc as (_ & B2).
  destruct (noWagerTree_facts _ B2) as (_ & _ & _ & _ & Hw & Hl).
  assert (Hch : match (if b then children_win (currentNode c)
                       else children_loss (currentNode c)) with
                | Sub m => noWagerTree m
                | _ => True
                end) by (destruct b; assumption).
  destruct (if b then children_win (currentNode c) else children_loss (currentNode c))
    as [| |m].
  - apply resetToRoot_emptyHanded.
  - change (leaveSpinNode E RootRef c st)
      with (leaveSpinNode E (Sub (rootNode (strategy E))) c st).
    apply enter_emptyHanded; [exact Htree | exact Hc].
  - apply enter_emptyHanded; [exact Hch | exact Hc].
Qed.

Lemma recordStep_wait_unmoved (st : RunState) (a : ActionType) :
  isWaitAction a = true -> unmoved E st ->
  unmoved E (snd (recordStep E st (draw E st) [] a true)).
Proof.
  intros Ha (Hb & Hn & Hs). unfold unmoved, recordStep. cbn.
  rewrite Z.add_0_r, length_app. cbn [List.length].
  split; [exact Hb|]. split; [lia|].
  apply Forall_app. split; [exact Hs|].
  constructor; [|constructor]. left.
  unfold idleEntry; cbn. repeat split; try assumption; lia.
Qed.

Lemma waitSpins_unmoved (n : nat) :
  forall st, unmoved E st -> unmoved E (waitSpins E n st).
Proof.
  induction n as [|n IH]; intros st H; cbn [waitSpins]; [exact H|].
  apply IH, recordStep_wait_unmoved; [reflexivity | exact H].
Qed.

Lemma waitCondition_unmoved (k : nat) (cond : string) :
  forall st, unmoved E st -> unmoved E (waitCondition E k cond st).
Proof.
  induction k as [|k IH]; intros st H; cbn [waitCondition]; [exact H|].
  cbv zeta.
  pose proof (recordStep_wait_unmoved st (WAITING_FOR (toUpperCase cond)) eq_refl H)
    as H1.
  destruct (_ || _); [exact H1 | now apply IH].
Qed.

Lemma preSimWait_unmoved : unmoved E (preSimWait E (initialState E)).
Proof.
  assert (H0 : unmoved E (initialState E)).
  { unfold unmoved, initialState. cbn. repeat split. constructor. }
  unfold preSimWait.
  destruct (node_type (rootNode (strategy E)));
    destruct (truthyZ (value (rootNode (strategy E))));
    destruct (truthyString (condition (rootNode (strategy E))));
    first [ apply waitSpins_unmoved; exact H0
          | apply waitCondition_unmoved; exact H0
          | exact H0 ].
Qed.

Lemma preSimWait_only_waits :
  Forall (idleEntry (initialBankroll E)) (st_steps (preSimWait E (initialState E))).
Proof.
  exact (proj1 (proj2 (preSimWait_idle E))).
Qed.

Lemma leaveSpinNode_unmoved (next : Child StrategyNode) (c : Cursor) (st : RunState) :
  unmoved E st -> unmoved E (snd (leaveSpinNode E next c st)).
Proof.
  intros H. unfold leaveSpinNode.
  destruct (resolveChild E next) as [n|]; [|exact H].
  destruct (node_type n); try exact H. cbn [snd].
  destruct (truthyZ (value n)); [now apply waitSpins_unmoved | exact H].
Qed.

Lemma mainLoop_emptyHanded (fuel : nat) :
  forall c st c' st',
    mainLoop E fuel c st = Ok (c', st') ->
    emptyHanded c -> unmoved E st ->
    unmoved E st'
    /\ (if haltCondition E (initialState E) then st' = st
        else maxSpins (config E) <= st_spinsConsumed st').
Proof.
  induction fuel as [|fuel IH]; intros c st c' st' H Hc Hs; [discriminate|].
  pose proof (haltCondition_unmoved st Hs) as Hh.
  destruct (negb (st_spinsConsumed st <? maxSpins (config E))) eqn:G1.
  { cbn [mainLoop] in H. rewrite G1 in H. inversion H; subst.
    split; [exact Hs|].
    apply negb_true_iff, Z.ltb_ge in G1.
    destruct (haltCondition E (initialState E)); [reflexivity | lia]. }
  destruct (haltCondition E st) eqn:G2.
  { cbn [mainLoop] in H. rewrite G1, G2 in H. inversion H; subst.
    split; [exact Hs|]. rewrite <- Hh. reflexivity. }
  apply negb_false_iff, Z.ltb_lt in G1.
  pose proof Hc as (B1 & B2).
  destruct (noWagerTree_facts _ B2) as (K1 & K2 & _).
  destruct (empty_wager_iteration E fuel c st B1 (conj K1 K2) G1 G2)
    as (S1 & S2 & S3 & S4).
  rewrite S4 in H.
  destruct Hs as (Hb & Hn & Hall).
  assert (Hs1 : unmoved E (snd (recordStep E st (draw E st) [] NO_BET false))).
  { unfold unmoved. rewrite S1, S2, S3, length_app. cbn [List.length].
    split; [exact Hb|]. split; [lia|].
    apply Forall_app. split; [exact Hall|].
    constructor; [|constructor]. right.
    unfold noBetSpin, noBetEntry; cbn. repeat split; try assumption; lia. }
  destruct (IH _ _ _ _ H (leaveSpinNode_emptyHanded c _ false Hc)
              (leaveSpinNode_unmoved _ c _ Hs1)) as [I1 I2].
  split; [exact I1|].
  rewrite <- Hh in *. exact I2.
Qed.

End EmptyWagers.

Lemma hasWaitNode_facts (n : StrategyNode) :
  hasWaitNode n = false ->
  node_type n <> wait_spins /\ node_type n <> wait_condition
  /\ match children_win n with Sub m => hasWaitNode m = false | _ => True end
  /\ match children_loss n with Sub m => hasWaitNode m = false | _ => True end.
Proof.
  destruct n as [id ty bs v cd pw mt mv rt rv w l]. cbn.
  intros H. apply orb_false_elim in H as [H Hl].
  apply orb_false_elim in H as [Ht Hw].
  repeat split.
  - intros ->. discriminate.
  - intros ->. discriminate.
  - destruct w; trivial.
  - destruct l; trivial.
Qed.

Section NoWaitNodes.

Variable E : RunInput.
Hypothesis Htree : noWagerTree (rootNode (strategy E)).
Hypothesis Hnowait : hasWaitNode (rootNode (strategy E)) = false.

Lemma enter_noWait (n : StrategyNode) (c : Cursor) (st : RunState) :
  hasWaitNode n = false ->
  hasWaitNode (currentNode (fst (leaveSpinNode E (Sub n) c st))) = false
  /\ snd (leaveSpinNode E (Sub n) c st) = st.
Proof.
  intros Hn. destruct (hasWaitNode_facts n Hn) as (K1 & K2 & _).
  unfold leaveSpinNode, resolveChild, enterNode, applyNodeModifier, resetToRoot,
    withMultiplier.
  destruct (hasBets n); cbn [currentNode];
    destruct (node_type n); cbn [fst snd currentNode];
    try (split; [assumption | reflexivity]); try congruence;
    destruct (noBetsField n); cbn [currentNode]; split; assumption || reflexivity.
Qed.

Lemma leaveSpinNode_noWait (c : Cursor) (st : RunState) (b : bool) :
  hasWaitNode (currentNode c) = false ->
  hasWaitNode
    (currentNode
       (fst (leaveSpinNode E
               (if b then children_win (currentNode c) else children_loss (currentNode c))
               c st))) = false
  /\ snd (leaveSpinNode E
            (if b then children_win (currentNode c) else children_loss (currentNode c))
            c st) = st.
Proof.
  intros Hc. destruct (hasWaitNode_facts _ Hc) as (_ & _ & Hw & Hl).
  assert (Hch : match (if b then children_win (currentNode c)
                       else children_loss (currentNode c)) with
                | Sub m => hasWaitNode m = false
                | _ => True
                end) by (destruct b; assumption).
  destruct (if b then children_win (currentNode c) else children_loss (currentNode c))
    as [| |m].
  - split; [exact Hnowait | reflexivity].
  - change (leaveSpinNode E RootRef c st)
      with (leaveSpinNode E (Sub (rootNode (strategy E))) c st).
    now apply enter_noWait.
  - now apply enter_noWait.
Qed.

Lemma mainLoop_noWait (fuel : nat) :
  forall c st c' st',
    mainLoop E fuel c st = Ok (c', st') ->
    emptyHanded c -> hasWaitNode (currentNode c) = false ->
    Forall (fun s => actionType s = NO_BET) (st_steps st) ->
    Forall (fun s => actionType s = NO_BET) (st_steps st').
Proof.
  induction fuel as [|fuel IH]; intros c st c' st' H Hc Hw Hs; [discriminate|].
  destruct (negb (st_spinsConsumed st <? maxSpins (config E))) eqn:G1.
  { cbn [mainLoop] in H. rewrite G1 in H. now inversion H; subst. }
  destruct (haltCondition E st) eqn:G2.
  { cbn [mainLoop] in H. rewrite G1, G2 in H. now inversion H; subst. }
  apply negb_false_iff, Z.ltb_lt in G1.
  pose proof Hc as (B1 & B2).
  destruct (noWagerTree_facts _ B2) as (K1 & K2 & _).
  destruct (empty_wager_iteration E fuel c st B1 (conj K1 K2) G1 G2)
    as (S1 & _ & _ & S4).
  rewrite S4 in H.
  destruct (leaveSpinNode_noWait c (snd (recordStep E st (draw E st) [] NO_BET false))
              false Hw) as [N1 N2].
  apply (IH _ _ _ _ H).
  - exact (leaveSpinNode_emptyHanded E Htree c _ false Hc).
  - exact N1.
  - rewrite N2, S1. apply Forall_app. split; [exact Hs|].
    constructor; [reflexivity | constructor].
Qed.

Lemma run_noWait (fuel : nat) (steps : list SimulationStep) (stats : SimulationStats) :
  runSimulation E fuel = Ok (steps, stats) ->
  Forall (fun s => actionType s = NO_BET) steps.
Proof.
  unfold runSimulation.
  destruct (mainLoop E fuel (initialCursor E) (preSimWait E (initialState E)))
    as [[c st]| |] eqn:M; try discriminate.
  intros H; inversion H; subst.
  destruct (hasWaitNode_facts _ Hnowait) as (K1 & K2 & _).
  assert (Hp : preSimWait E (initialState E) = initialState E).
  { unfold preSimWait.
    destruct (node_type (rootNode (strategy E))); try reflexivity; congruence. }
  rewrite Hp in M.
  apply (mainLoop_noWait fuel _ _ _ _ M).
  - exact (resetToRoot_emptyHanded E Htree).
  - exact Hnowait.
  - constructor.
Qed.

End NoWaitNodes.

Lemma numbered_last_index (E : RunInput) (steps : list SimulationStep) :
  numbered E steps ->
  Forall (fun s => spinIndex s <= maxSpins (config E)) steps ->
  Z.of_nat (List.length steps) <= Z.max 0 (maxSpins (config E)).
Proof.
  intros Hnum Hall.
  destruct (rev steps) as [|s r] eqn:R.
  - apply (f_equal (@List.length _)) in R. rewrite length_rev in R.
    rewrite R. cbn. lia.
  - assert (Hs : steps = rev r ++ [s]).
    { rewrite <- (rev_involutive steps), R. reflexivity. }
    assert (Hi : nth_error steps (List.length (rev r)) = Some s).
    { rewrite Hs, nth_error_app2 by lia. now rewrite Nat.sub_diag. }
    destruct (Hnum _ _ Hi) as [Hidx _].
    rewrite Forall_forall in Hall.
    assert (Hin : In s steps) by (rewrite Hs; apply in_or_app; right; now left).
    specialize (Hall s Hin).
    rewrite Hs, length_app. cbn [List.length]. lia.
Qed.


